(** * Bônus de Desempenho: the cleaning and bonus pipeline of [app.py]

    A shallow embedding of [limpar_e_filtrar_dados] and [calcular_bonus]
    together with the properties of the report they produce.

    Conventions of the embedding.
    - A Python [str] is the list of its Unicode code points ([texto]).
      The character tables ([str.upper], [str.isspace], the regex class
      [\w]) are Python's over the whole code space, as the Unicode
      Character Database 14.0.0 of CPython 3.11 gives them.
    - Numbers are read twice. The tables of [calcular_bonus] and their
      sums are read in exact arithmetic: a cell is an exact rational,
      [None] standing for NaN, and sums skip NaN as pandas does; this is
      the reading of the laws that relate the tables. The BÔNUS column
      of lines 128-137 is also given bit for bit in binary64 (module
      [F64], on the Standard Library's specification of IEEE 754
      arithmetic), and the rule of the column is settled there.
    - A [DataFrame] is the list of its rows, in row order. *)

From Stdlib Require Import List Bool Ascii String ZArith NArith QArith Qround Lia.
From Stdlib Require Import Sorting.Sorted Sorting.Permutation.
From Stdlib Require Decimal DecimalN.
From Stdlib Require Import Lqa Qpower Qabs.
From Stdlib Require Import Floats.SpecFloat.
Import ListNotations.

Set Implicit Arguments.

(* ================================================================== *)
(** * Text *)

Definition texto := list N.

(** UTF-8 decoding, used to write literals as the source has them. *)
Fixpoint decodifica (resto : nat) (acc : N) (s : string) : texto :=
  match s with
  | EmptyString => []
  | String a s' =>
      let b := N_of_ascii a in
      match resto with
      | O =>
          if (b <? 128)%N then b :: decodifica 0 0 s'
          else if (b <? 224)%N then decodifica 1 (b - 192) s'
          else if (b <? 240)%N then decodifica 2 (b - 224) s'
          else decodifica 3 (b - 240) s'
      | S k =>
          let acc' := (acc * 64 + (b - 128))%N in
          match k with
          | O => acc' :: decodifica 0 0 s'
          | S _ => decodifica k acc' s'
          end
      end
  end.

Definition txt (s : string) : texto := decodifica 0 0 s.

Definition texto_eqb (a b : texto) : bool :=
  if list_eq_dec N.eq_dec a b then true else false.

Module Unicode.

Local Open Scope N_scope.

Definition entre (lo hi c : N) : bool := (lo <=? c) && (c <=? hi).

(** The code points that [str.upper] changes, each with the code points
    it becomes (the full upper-case mapping of the Unicode Character
    Database 14.0.0, as CPython 3.11 carries it). *)
Definition maiusculas : list (N * list N) :=
  [
  (97, [65]); (98, [66]); (99, [67]); (100, [68]); (101, [69]); (102, [70]);
  (103, [71]); (104, [72]); (105, [73]); (106, [74]); (107, [75]);
  (108, [76]); (109, [77]); (110, [78]); (111, [79]); (112, [80]);
  (113, [81]); (114, [82]); (115, [83]); (116, [84]); (117, [85]);
  (118, [86]); (119, [87]); (120, [88]); (121, [89]); (122, [90]);
  (181, [924]); (223, [83; 83]); (224, [192]); (225, [193]); (226, [194]);
  (227, [195]); (228, [196]); (229, [197]); (230, [198]); (231, [199]);
  (232, [200]); (233, [201]); (234, [202]); (235, [203]); (236, [204]);
  (237, [205]); (238, [206]); (239, [207]); (240, [208]); (241, [209]);
  (242, [210]); (243, [211]); (244, [212]); (245, [213]); (246, [214]);
  (248, [216]); (249, [217]); (250, [218]); (251, [219]); (252, [220]);
  (253, [221]); (254, [222]); (255, [376]); (257, [256]); (259, [258]);
  (261, [260]); (263, [262]); (265, [264]); (267, [266]); (269, [268]);
  (271, [270]); (273, [272]); (275, [274]); (277, [276]); (279, [278]);
  (281, [280]); (283, [282]); (285, [284]); (287, [286]); (289, [288]);
  (291, [290]); (293, [292]); (295, [294]); (297, [296]); (299, [298]);
  (301, [300]); (303, [302]); (305, [73]); (307, [306]); (309, [308]);
  (311, [310]); (314, [313]); (316, [315]); (318, [317]); (320, [319]);
  (322, [321]); (324, [323]); (326, [325]); (328, [327]); (329, [700; 78]);
  (331, [330]); (333, [332]); (335, [334]); (337, [336]); (339, [338]);
  (341, [340]); (343, [342]); (345, [344]); (347, [346]); (349, [348]);
  (351, [350]); (353, [352]); (355, [354]); (357, [356]); (359, [358]);
  (361, [360]); (363, [362]); (365, [364]); (367, [366]); (369, [368]);
  (371, [370]); (373, [372]); (375, [374]); (378, [377]); (380, [379]);
  (382, [381]); (383, [83]); (384, [579]); (387, [386]); (389, [388]);
  (392, [391]); (396, [395]); (402, [401]); (405, [502]); (409, [408]);
  (410, [573]); (414, [544]); (417, [416]); (419, [418]); (421, [420]);
  (424, [423]); (429, [428]); (432, [431]); (436, [435]); (438, [437]);
  (441, [440]); (445, [444]); (447, [503]); (453, [452]); (454, [452]);
  (456, [455]); (457, [455]); (459, [458]); (460, [458]); (462, [461]);
  (464, [463]); (466, [465]); (468, [467]); (470, [469]); (472, [471]);
  (474, [473]); (476, [475]); (477, [398]); (479, [478]); (481, [480]);
  (483, [482]); (485, [484]); (487, [486]); (489, [488]); (491, [490]);
  (493, [492]); (495, [494]); (496, [74; 780]); (498, [497]); (499, [497]);
  (501, [500]); (505, [504]); (507, [506]); (509, [508]); (511, [510]);
  (513, [512]); (515, [514]); (517, [516]); (519, [518]); (521, [520]);
  (523, [522]); (525, [524]); (527, [526]); (529, [528]); (531, [530]);
  (533, [532]); (535, [534]); (537, [536]); (539, [538]); (541, [540]);
  (543, [542]); (547, [546]); (549, [548]); (551, [550]); (553, [552]);
  (555, [554]); (557, [556]); (559, [558]); (561, [560]); (563, [562]);
  (572, [571]); (575, [11390]); (576, [11391]); (578, [577]); (583, [582]);
  (585, [584]); (587, [586]); (589, [588]); (591, [590]); (592, [11375]);
  (593, [11373]); (594, [11376]); (595, [385]); (596, [390]); (598, [393]);
  (599, [394]); (601, [399]); (603, [400]); (604, [42923]); (608, [403]);
  (609, [42924]); (611, [404]); (613, [42893]); (614, [42922]); (616, [407]);
  (617, [406]); (618, [42926]); (619, [11362]); (620, [42925]); (623, [412]);
  (625, [11374]); (626, [413]); (629, [415]); (637, [11364]); (640, [422]);
  (642, [42949]); (643, [425]); (647, [42929]); (648, [430]); (649, [580]);
  (650, [433]); (651, [434]); (652, [581]); (658, [439]); (669, [42930]);
  (670, [42928]); (837, [921]); (881, [880]); (883, [882]); (887, [886]);
  (891, [1021]); (892, [1022]); (893, [1023]); (912, [921; 776; 769]);
  (940, [902]); (941, [904]); (942, [905]); (943, [906]);
  (944, [933; 776; 769]); (945, [913]); (946, [914]); (947, [915]);
  (948, [916]); (949, [917]); (950, [918]); (951, [919]); (952, [920]);
  (953, [921]); (954, [922]); (955, [923]); (956, [924]); (957, [925]);
  (958, [926]); (959, [927]); (960, [928]); (961, [929]); (962, [931]);
  (963, [931]); (964, [932]); (965, [933]); (966, [934]); (967, [935]);
  (968, [936]); (969, [937]); (970, [938]); (971, [939]); (972, [908]);
  (973, [910]); (974, [911]); (976, [914]); (977, [920]); (981, [934]);
  (982, [928]); (983, [975]); (985, [984]); (987, [986]); (989, [988]);
  (991, [990]); (993, [992]); (995, [994]); (997, [996]); (999, [998]);
  (1001, [1000]); (1003, [1002]); (1005, [1004]); (1007, [1006]);
  (1008, [922]); (1009, [929]); (1010, [1017]); (1011, [895]); (1013, [917]);
  (1016, [1015]); (1019, [1018]); (1072, [1040]); (1073, [1041]);
  (1074, [1042]); (1075, [1043]); (1076, [1044]); (1077, [1045]);
  (1078, [1046]); (1079, [1047]); (1080, [1048]); (1081, [1049]);
  (1082, [1050]); (1083, [1051]); (1084, [1052]); (1085, [1053]);
  (1086, [1054]); (1087, [1055]); (1088, [1056]); (1089, [1057]);
  (1090, [1058]); (1091, [1059]); (1092, [1060]); (1093, [1061]);
  (1094, [1062]); (1095, [1063]); (1096, [1064]); (1097, [1065]);
  (1098, [1066]); (1099, [1067]); (1100, [1068]); (1101, [1069]);
  (1102, [1070]); (1103, [1071]); (1104, [1024]); (1105, [1025]);
  (1106, [1026]); (1107, [1027]); (1108, [1028]); (1109, [1029]);
  (1110, [1030]); (1111, [1031]); (1112, [1032]); (1113, [1033]);
  (1114, [1034]); (1115, [1035]); (1116, [1036]); (1117, [1037]);
  (1118, [1038]); (1119, [1039]); (1121, [1120]); (1123, [1122]);
  (1125, [1124]); (1127, [1126]); (1129, [1128]); (1131, [1130]);
  (1133, [1132]); (1135, [1134]); (1137, [1136]); (1139, [1138]);
  (1141, [1140]); (1143, [1142]); (1145, [1144]); (1147, [1146]);
  (1149, [1148]); (1151, [1150]); (1153, [1152]); (1163, [1162]);
  (1165, [1164]); (1167, [1166]); (1169, [1168]); (1171, [1170]);
  (1173, [1172]); (1175, [1174]); (1177, [1176]); (1179, [1178]);
  (1181, [1180]); (1183, [1182]); (1185, [1184]); (1187, [1186]);
  (1189, [1188]); (1191, [1190]); (1193, [1192]); (1195, [1194]);
  (1197, [1196]); (1199, [1198]); (1201, [1200]); (1203, [1202]);
  (1205, [1204]); (1207, [1206]); (1209, [1208]); (1211, [1210]);
  (1213, [1212]); (1215, [1214]); (1218, [1217]); (1220, [1219]);
  (1222, [1221]); (1224, [1223]); (1226, [1225]); (1228, [1227]);
  (1230, [1229]); (1231, [1216]); (1233, [1232]); (1235, [1234]);
  (1237, [1236]); (1239, [1238]); (1241, [1240]); (1243, [1242]);
  (1245, [1244]); (1247, [1246]); (1249, [1248]); (1251, [1250]);
  (1253, [1252]); (1255, [1254]); (1257, [1256]); (1259, [1258]);
  (1261, [1260]); (1263, [1262]); (1265, [1264]); (1267, [1266]);
  (1269, [1268]); (1271, [1270]); (1273, [1272]); (1275, [1274]);
  (1277, [1276]); (1279, [1278]); (1281, [1280]); (1283, [1282]);
  (1285, [1284]); (1287, [1286]); (1289, [1288]); (1291, [1290]);
  (1293, [1292]); (1295, [1294]); (1297, [1296]); (1299, [1298]);
  (1301, [1300]); (1303, [1302]); (1305, [1304]); (1307, [1306]);
  (1309, [1308]); (1311, [1310]); (1313, [1312]); (1315, [1314]);
  (1317, [1316]); (1319, [1318]); (1321, [1320]); (1323, [1322]);
  (1325, [1324]); (1327, [1326]); (1377, [1329]); (1378, [1330]);
  (1379, [1331]); (1380, [1332]); (1381, [1333]); (1382, [1334]);
  (1383, [1335]); (1384, [1336]); (1385, [1337]); (1386, [1338]);
  (1387, [1339]); (1388, [1340]); (1389, [1341]); (1390, [1342]);
  (1391, [1343]); (1392, [1344]); (1393, [1345]); (1394, [1346]);
  (1395, [1347]); (1396, [1348]); (1397, [1349]); (1398, [1350]);
  (1399, [1351]); (1400, [1352]); (1401, [1353]); (1402, [1354]);
  (1403, [1355]); (1404, [1356]); (1405, [1357]); (1406, [1358]);
  (1407, [1359]); (1408, [1360]); (1409, [1361]); (1410, [1362]);
  (1411, [1363]); (1412, [1364]); (1413, [1365]); (1414, [1366]);
  (1415, [1333; 1362]); (4304, [7312]); (4305, [7313]); (4306, [7314]);
  (4307, [7315]); (4308, [7316]); (4309, [7317]); (4310, [7318]);
  (4311, [7319]); (4312, [7320]); (4313, [7321]); (4314, [7322]);
  (4315, [7323]); (4316, [7324]); (4317, [7325]); (4318, [7326]);
  (4319, [7327]); (4320, [7328]); (4321, [7329]); (4322, [7330]);
  (4323, [7331]); (4324, [7332]); (4325, [7333]); (4326, [7334]);
  (4327, [7335]); (4328, [7336]); (4329, [7337]); (4330, [7338]);
  (4331, [7339]); (4332, [7340]); (4333, [7341]); (4334, [7342]);
  (4335, [7343]); (4336, [7344]); (4337, [7345]); (4338, [7346]);
  (4339, [7347]); (4340, [7348]); (4341, [7349]); (4342, [7350]);
  (4343, [7351]); (4344, [7352]); (4345, [7353]); (4346, [7354]);
  (4349, [7357]); (4350, [7358]); (4351, [7359]); (5112, [5104]);
  (5113, [5105]); (5114, [5106]); (5115, [5107]); (5116, [5108]);
  (5117, [5109]); (7296, [1042]); (7297, [1044]); (7298, [1054]);
  (7299, [1057]); (7300, [1058]); (7301, [1058]); (7302, [1066]);
  (7303, [1122]); (7304, [42570]); (7545, [42877]); (7549, [11363]);
  (7566, [42950]); (7681, [7680]); (7683, [7682]); (7685, [7684]);
  (7687, [7686]); (7689, [7688]); (7691, [7690]); (7693, [7692]);
  (7695, [7694]); (7697, [7696]); (7699, [7698]); (7701, [7700]);
  (7703, [7702]); (7705, [7704]); (7707, [7706]); (7709, [7708]);
  (7711, [7710]); (7713, [7712]); (7715, [7714]); (7717, [7716]);
  (7719, [7718]); (7721, [7720]); (7723, [7722]); (7725, [7724]);
  (7727, [7726]); (7729, [7728]); (7731, [7730]); (7733, [7732]);
  (7735, [7734]); (7737, [7736]); (7739, [7738]); (7741, [7740]);
  (7743, [7742]); (7745, [7744]); (7747, [7746]); (7749, [7748]);
  (7751, [7750]); (7753, [7752]); (7755, [7754]); (7757, [7756]);
  (7759, [7758]); (7761, [7760]); (7763, [7762]); (7765, [7764]);
  (7767, [7766]); (7769, [7768]); (7771, [7770]); (7773, [7772]);
  (7775, [7774]); (7777, [7776]); (7779, [7778]); (7781, [7780]);
  (7783, [7782]); (7785, [7784]); (7787, [7786]); (7789, [7788]);
  (7791, [7790]); (7793, [7792]); (7795, [7794]); (7797, [7796]);
  (7799, [7798]); (7801, [7800]); (7803, [7802]); (7805, [7804]);
  (7807, [7806]); (7809, [7808]); (7811, [7810]); (7813, [7812]);
  (7815, [7814]); (7817, [7816]); (7819, [7818]); (7821, [7820]);
  (7823, [7822]); (7825, [7824]); (7827, [7826]); (7829, [7828]);
  (7830, [72; 817]); (7831, [84; 776]); (7832, [87; 778]); (7833, [89; 778]);
  (7834, [65; 702]); (7835, [7776]); (7841, [7840]); (7843, [7842]);
  (7845, [7844]); (7847, [7846]); (7849, [7848]); (7851, [7850]);
  (7853, [7852]); (7855, [7854]); (7857, [7856]); (7859, [7858]);
  (7861, [7860]); (7863, [7862]); (7865, [7864]); (7867, [7866]);
  (7869, [7868]); (7871, [7870]); (7873, [7872]); (7875, [7874]);
  (7877, [7876]); (7879, [7878]); (7881, [7880]); (7883, [7882]);
  (7885, [7884]); (7887, [7886]); (7889, [7888]); (7891, [7890]);
  (7893, [7892]); (7895, [7894]); (7897, [7896]); (7899, [7898]);
  (7901, [7900]); (7903, [7902]); (7905, [7904]); (7907, [7906]);
  (7909, [7908]); (7911, [7910]); (7913, [7912]); (7915, [7914]);
  (7917, [7916]); (7919, [7918]); (7921, [7920]); (7923, [7922]);
  (7925, [7924]); (7927, [7926]); (7929, [7928]); (7931, [7930]);
  (7933, [7932]); (7935, [7934]); (7936, [7944]); (7937, [7945]);
  (7938, [7946]); (7939, [7947]); (7940, [7948]); (7941, [7949]);
  (7942, [7950]); (7943, [7951]); (7952, [7960]); (7953, [7961]);
  (7954, [7962]); (7955, [7963]); (7956, [7964]); (7957, [7965]);
  (7968, [7976]); (7969, [7977]); (7970, [7978]); (7971, [7979]);
  (7972, [7980]); (7973, [7981]); (7974, [7982]); (7975, [7983]);
  (7984, [7992]); (7985, [7993]); (7986, [7994]); (7987, [7995]);
  (7988, [7996]); (7989, [7997]); (7990, [7998]); (7991, [7999]);
  (8000, [8008]); (8001, [8009]); (8002, [8010]); (8003, [8011]);
  (8004, [8012]); (8005, [8013]); (8016, [933; 787]); (8017, [8025]);
  (8018, [933; 787; 768]); (8019, [8027]); (8020, [933; 787; 769]);
  (8021, [8029]); (8022, [933; 787; 834]); (8023, [8031]); (8032, [8040]);
  (8033, [8041]); (8034, [8042]); (8035, [8043]); (8036, [8044]);
  (8037, [8045]); (8038, [8046]); (8039, [8047]); (8048, [8122]);
  (8049, [8123]); (8050, [8136]); (8051, [8137]); (8052, [8138]);
  (8053, [8139]); (8054, [8154]); (8055, [8155]); (8056, [8184]);
  (8057, [8185]); (8058, [8170]); (8059, [8171]); (8060, [8186]);
  (8061, [8187]); (8064, [7944; 921]); (8065, [7945; 921]);
  (8066, [7946; 921]); (8067, [7947; 921]); (8068, [7948; 921]);
  (8069, [7949; 921]); (8070, [7950; 921]); (8071, [7951; 921]);
  (8072, [7944; 921]); (8073, [7945; 921]); (8074, [7946; 921]);
  (8075, [7947; 921]); (8076, [7948; 921]); (8077, [7949; 921]);
  (8078, [7950; 921]); (8079, [7951; 921]); (8080, [7976; 921]);
  (8081, [7977; 921]); (8082, [7978; 921]); (8083, [7979; 921]);
  (8084, [7980; 921]); (8085, [7981; 921]); (8086, [7982; 921]);
  (8087, [7983; 921]); (8088, [7976; 921]); (8089, [7977; 921]);
  (8090, [7978; 921]); (8091, [7979; 921]); (8092, [7980; 921]);
  (8093, [7981; 921]); (8094, [7982; 921]); (8095, [7983; 921]);
  (8096, [8040; 921]); (8097, [8041; 921]); (8098, [8042; 921]);
  (8099, [8043; 921]); (8100, [8044; 921]); (8101, [8045; 921]);
  (8102, [8046; 921]); (8103, [8047; 921]); (8104, [8040; 921]);
  (8105, [8041; 921]); (8106, [8042; 921]); (8107, [8043; 921]);
  (8108, [8044; 921]); (8109, [8045; 921]); (8110, [8046; 921]);
  (8111, [8047; 921]); (8112, [8120]); (8113, [8121]); (8114, [8122; 921]);
  (8115, [913; 921]); (8116, [902; 921]); (8118, [913; 834]);
  (8119, [913; 834; 921]); (8124, [913; 921]); (8126, [921]);
  (8130, [8138; 921]); (8131, [919; 921]); (8132, [905; 921]);
  (8134, [919; 834]); (8135, [919; 834; 921]); (8140, [919; 921]);
  (8144, [8152]); (8145, [8153]); (8146, [921; 776; 768]);
  (8147, [921; 776; 769]); (8150, [921; 834]); (8151, [921; 776; 834]);
  (8160, [8168]); (8161, [8169]); (8162, [933; 776; 768]);
  (8163, [933; 776; 769]); (8164, [929; 787]); (8165, [8172]);
  (8166, [933; 834]); (8167, [933; 776; 834]); (8178, [8186; 921]);
  (8179, [937; 921]); (8180, [911; 921]); (8182, [937; 834]);
  (8183, [937; 834; 921]); (8188, [937; 921]); (8526, [8498]);
  (8560, [8544]); (8561, [8545]); (8562, [8546]); (8563, [8547]);
  (8564, [8548]); (8565, [8549]); (8566, [8550]); (8567, [8551]);
  (8568, [8552]); (8569, [8553]); (8570, [8554]); (8571, [8555]);
  (8572, [8556]); (8573, [8557]); (8574, [8558]); (8575, [8559]);
  (8580, [8579]); (9424, [9398]); (9425, [9399]); (9426, [9400]);
  (9427, [9401]); (9428, [9402]); (9429, [9403]); (9430, [9404]);
  (9431, [9405]); (9432, [9406]); (9433, [9407]); (9434, [9408]);
  (9435, [9409]); (9436, [9410]); (9437, [9411]); (9438, [9412]);
  (9439, [9413]); (9440, [9414]); (9441, [9415]); (9442, [9416]);
  (9443, [9417]); (9444, [9418]); (9445, [9419]); (9446, [9420]);
  (9447, [9421]); (9448, [9422]); (9449, [9423]); (11312, [11264]);
  (11313, [11265]); (11314, [11266]); (11315, [11267]); (11316, [11268]);
  (11317, [11269]); (11318, [11270]); (11319, [11271]); (11320, [11272]);
  (11321, [11273]); (11322, [11274]); (11323, [11275]); (11324, [11276]);
  (11325, [11277]); (11326, [11278]); (11327, [11279]); (11328, [11280]);
  (11329, [11281]); (11330, [11282]); (11331, [11283]); (11332, [11284]);
  (11333, [11285]); (11334, [11286]); (11335, [11287]); (11336, [11288]);
  (11337, [11289]); (11338, [11290]); (11339, [11291]); (11340, [11292]);
  (11341, [11293]); (11342, [11294]); (11343, [11295]); (11344, [11296]);
  (11345, [11297]); (11346, [11298]); (11347, [11299]); (11348, [11300]);
  (11349, [11301]); (11350, [11302]); (11351, [11303]); (11352, [11304]);
  (11353, [11305]); (11354, [11306]); (11355, [11307]); (11356, [11308]);
  (11357, [11309]); (11358, [11310]); (11359, [11311]); (11361, [11360]);
  (11365, [570]); (11366, [574]); (11368, [11367]); (11370, [11369]);
  (11372, [11371]); (11379, [11378]); (11382, [11381]); (11393, [11392]);
  (11395, [11394]); (11397, [11396]); (11399, [11398]); (11401, [11400]);
  (11403, [11402]); (11405, [11404]); (11407, [11406]); (11409, [11408]);
  (11411, [11410]); (11413, [11412]); (11415, [11414]); (11417, [11416]);
  (11419, [11418]); (11421, [11420]); (11423, [11422]); (11425, [11424]);
  (11427, [11426]); (11429, [11428]); (11431, [11430]); (11433, [11432]);
  (11435, [11434]); (11437, [11436]); (11439, [11438]); (11441, [11440]);
  (11443, [11442]); (11445, [11444]); (11447, [11446]); (11449, [11448]);
  (11451, [11450]); (11453, [11452]); (11455, [11454]); (11457, [11456]);
  (11459, [11458]); (11461, [11460]); (11463, [11462]); (11465, [11464]);
  (11467, [11466]); (11469, [11468]); (11471, [11470]); (11473, [11472]);
  (11475, [11474]); (11477, [11476]); (11479, [11478]); (11481, [11480]);
  (11483, [11482]); (11485, [11484]); (11487, [11486]); (11489, [11488]);
  (11491, [11490]); (11500, [11499]); (11502, [11501]); (11507, [11506]);
  (11520, [4256]); (11521, [4257]); (11522, [4258]); (11523, [4259]);
  (11524, [4260]); (11525, [4261]); (11526, [4262]); (11527, [4263]);
  (11528, [4264]); (11529, [4265]); (11530, [4266]); (11531, [4267]);
  (11532, [4268]); (11533, [4269]); (11534, [4270]); (11535, [4271]);
  (11536, [4272]); (11537, [4273]); (11538, [4274]); (11539, [4275]);
  (11540, [4276]); (11541, [4277]); (11542, [4278]); (11543, [4279]);
  (11544, [4280]); (11545, [4281]); (11546, [4282]); (11547, [4283]);
  (11548, [4284]); (11549, [4285]); (11550, [4286]); (11551, [4287]);
  (11552, [4288]); (11553, [4289]); (11554, [4290]); (11555, [4291]);
  (11556, [4292]); (11557, [4293]); (11559, [4295]); (11565, [4301]);
  (42561, [42560]); (42563, [42562]); (42565, [42564]); (42567, [42566]);
  (42569, [42568]); (42571, [42570]); (42573, [42572]); (42575, [42574]);
  (42577, [42576]); (42579, [42578]); (42581, [42580]); (42583, [42582]);
  (42585, [42584]); (42587, [42586]); (42589, [42588]); (42591, [42590]);
  (42593, [42592]); (42595, [42594]); (42597, [42596]); (42599, [42598]);
  (42601, [42600]); (42603, [42602]); (42605, [42604]); (42625, [42624]);
  (42627, [42626]); (42629, [42628]); (42631, [42630]); (42633, [42632]);
  (42635, [42634]); (42637, [42636]); (42639, [42638]); (42641, [42640]);
  (42643, [42642]); (42645, [42644]); (42647, [42646]); (42649, [42648]);
  (42651, [42650]); (42787, [42786]); (42789, [42788]); (42791, [42790]);
  (42793, [42792]); (42795, [42794]); (42797, [42796]); (42799, [42798]);
  (42803, [42802]); (42805, [42804]); (42807, [42806]); (42809, [42808]);
  (42811, [42810]); (42813, [42812]); (42815, [42814]); (42817, [42816]);
  (42819, [42818]); (42821, [42820]); (42823, [42822]); (42825, [42824]);
  (42827, [42826]); (42829, [42828]); (42831, [42830]); (42833, [42832]);
  (42835, [42834]); (42837, [42836]); (42839, [42838]); (42841, [42840]);
  (42843, [42842]); (42845, [42844]); (42847, [42846]); (42849, [42848]);
  (42851, [42850]); (42853, [42852]); (42855, [42854]); (42857, [42856]);
  (42859, [42858]); (42861, [42860]); (42863, [42862]); (42874, [42873]);
  (42876, [42875]); (42879, [42878]); (42881, [42880]); (42883, [42882]);
  (42885, [42884]); (42887, [42886]); (42892, [42891]); (42897, [42896]);
  (42899, [42898]); (42900, [42948]); (42903, [42902]); (42905, [42904]);
  (42907, [42906]); (42909, [42908]); (42911, [42910]); (42913, [42912]);
  (42915, [42914]); (42917, [42916]); (42919, [42918]); (42921, [42920]);
  (42933, [42932]); (42935, [42934]); (42937, [42936]); (42939, [42938]);
  (42941, [42940]); (42943, [42942]); (42945, [42944]); (42947, [42946]);
  (42952, [42951]); (42954, [42953]); (42961, [42960]); (42967, [42966]);
  (42969, [42968]); (42998, [42997]); (43859, [42931]); (43888, [5024]);
  (43889, [5025]); (43890, [5026]); (43891, [5027]); (43892, [5028]);
  (43893, [5029]); (43894, [5030]); (43895, [5031]); (43896, [5032]);
  (43897, [5033]); (43898, [5034]); (43899, [5035]); (43900, [5036]);
  (43901, [5037]); (43902, [5038]); (43903, [5039]); (43904, [5040]);
  (43905, [5041]); (43906, [5042]); (43907, [5043]); (43908, [5044]);
  (43909, [5045]); (43910, [5046]); (43911, [5047]); (43912, [5048]);
  (43913, [5049]); (43914, [5050]); (43915, [5051]); (43916, [5052]);
  (43917, [5053]); (43918, [5054]); (43919, [5055]); (43920, [5056]);
  (43921, [5057]); (43922, [5058]); (43923, [5059]); (43924, [5060]);
  (43925, [5061]); (43926, [5062]); (43927, [5063]); (43928, [5064]);
  (43929, [5065]); (43930, [5066]); (43931, [5067]); (43932, [5068]);
  (43933, [5069]); (43934, [5070]); (43935, [5071]); (43936, [5072]);
  (43937, [5073]); (43938, [5074]); (43939, [5075]); (43940, [5076]);
  (43941, [5077]); (43942, [5078]); (43943, [5079]); (43944, [5080]);
  (43945, [5081]); (43946, [5082]); (43947, [5083]); (43948, [5084]);
  (43949, [5085]); (43950, [5086]); (43951, [5087]); (43952, [5088]);
  (43953, [5089]); (43954, [5090]); (43955, [5091]); (43956, [5092]);
  (43957, [5093]); (43958, [5094]); (43959, [5095]); (43960, [5096]);
  (43961, [5097]); (43962, [5098]); (43963, [5099]); (43964, [5100]);
  (43965, [5101]); (43966, [5102]); (43967, [5103]); (64256, [70; 70]);
  (64257, [70; 73]); (64258, [70; 76]); (64259, [70; 70; 73]);
  (64260, [70; 70; 76]); (64261, [83; 84]); (64262, [83; 84]);
  (64275, [1348; 1350]); (64276, [1348; 1333]); (64277, [1348; 1339]);
  (64278, [1358; 1350]); (64279, [1348; 1341]); (65345, [65313]);
  (65346, [65314]); (65347, [65315]); (65348, [65316]); (65349, [65317]);
  (65350, [65318]); (65351, [65319]); (65352, [65320]); (65353, [65321]);
  (65354, [65322]); (65355, [65323]); (65356, [65324]); (65357, [65325]);
  (65358, [65326]); (65359, [65327]); (65360, [65328]); (65361, [65329]);
  (65362, [65330]); (65363, [65331]); (65364, [65332]); (65365, [65333]);
  (65366, [65334]); (65367, [65335]); (65368, [65336]); (65369, [65337]);
  (65370, [65338]); (66600, [66560]); (66601, [66561]); (66602, [66562]);
  (66603, [66563]); (66604, [66564]); (66605, [66565]); (66606, [66566]);
  (66607, [66567]); (66608, [66568]); (66609, [66569]); (66610, [66570]);
  (66611, [66571]); (66612, [66572]); (66613, [66573]); (66614, [66574]);
  (66615, [66575]); (66616, [66576]); (66617, [66577]); (66618, [66578]);
  (66619, [66579]); (66620, [66580]); (66621, [66581]); (66622, [66582]);
  (66623, [66583]); (66624, [66584]); (66625, [66585]); (66626, [66586]);
  (66627, [66587]); (66628, [66588]); (66629, [66589]); (66630, [66590]);
  (66631, [66591]); (66632, [66592]); (66633, [66593]); (66634, [66594]);
  (66635, [66595]); (66636, [66596]); (66637, [66597]); (66638, [66598]);
  (66639, [66599]); (66776, [66736]); (66777, [66737]); (66778, [66738]);
  (66779, [66739]); (66780, [66740]); (66781, [66741]); (66782, [66742]);
  (66783, [66743]); (66784, [66744]); (66785, [66745]); (66786, [66746]);
  (66787, [66747]); (66788, [66748]); (66789, [66749]); (66790, [66750]);
  (66791, [66751]); (66792, [66752]); (66793, [66753]); (66794, [66754]);
  (66795, [66755]); (66796, [66756]); (66797, [66757]); (66798, [66758]);
  (66799, [66759]); (66800, [66760]); (66801, [66761]); (66802, [66762]);
  (66803, [66763]); (66804, [66764]); (66805, [66765]); (66806, [66766]);
  (66807, [66767]); (66808, [66768]); (66809, [66769]); (66810, [66770]);
  (66811, [66771]); (66967, [66928]); (66968, [66929]); (66969, [66930]);
  (66970, [66931]); (66971, [66932]); (66972, [66933]); (66973, [66934]);
  (66974, [66935]); (66975, [66936]); (66976, [66937]); (66977, [66938]);
  (66979, [66940]); (66980, [66941]); (66981, [66942]); (66982, [66943]);
  (66983, [66944]); (66984, [66945]); (66985, [66946]); (66986, [66947]);
  (66987, [66948]); (66988, [66949]); (66989, [66950]); (66990, [66951]);
  (66991, [66952]); (66992, [66953]); (66993, [66954]); (66995, [66956]);
  (66996, [66957]); (66997, [66958]); (66998, [66959]); (66999, [66960]);
  (67000, [66961]); (67001, [66962]); (67003, [66964]); (67004, [66965]);
  (68800, [68736]); (68801, [68737]); (68802, [68738]); (68803, [68739]);
  (68804, [68740]); (68805, [68741]); (68806, [68742]); (68807, [68743]);
  (68808, [68744]); (68809, [68745]); (68810, [68746]); (68811, [68747]);
  (68812, [68748]); (68813, [68749]); (68814, [68750]); (68815, [68751]);
  (68816, [68752]); (68817, [68753]); (68818, [68754]); (68819, [68755]);
  (68820, [68756]); (68821, [68757]); (68822, [68758]); (68823, [68759]);
  (68824, [68760]); (68825, [68761]); (68826, [68762]); (68827, [68763]);
  (68828, [68764]); (68829, [68765]); (68830, [68766]); (68831, [68767]);
  (68832, [68768]); (68833, [68769]); (68834, [68770]); (68835, [68771]);
  (68836, [68772]); (68837, [68773]); (68838, [68774]); (68839, [68775]);
  (68840, [68776]); (68841, [68777]); (68842, [68778]); (68843, [68779]);
  (68844, [68780]); (68845, [68781]); (68846, [68782]); (68847, [68783]);
  (68848, [68784]); (68849, [68785]); (68850, [68786]); (71872, [71840]);
  (71873, [71841]); (71874, [71842]); (71875, [71843]); (71876, [71844]);
  (71877, [71845]); (71878, [71846]); (71879, [71847]); (71880, [71848]);
  (71881, [71849]); (71882, [71850]); (71883, [71851]); (71884, [71852]);
  (71885, [71853]); (71886, [71854]); (71887, [71855]); (71888, [71856]);
  (71889, [71857]); (71890, [71858]); (71891, [71859]); (71892, [71860]);
  (71893, [71861]); (71894, [71862]); (71895, [71863]); (71896, [71864]);
  (71897, [71865]); (71898, [71866]); (71899, [71867]); (71900, [71868]);
  (71901, [71869]); (71902, [71870]); (71903, [71871]); (93792, [93760]);
  (93793, [93761]); (93794, [93762]); (93795, [93763]); (93796, [93764]);
  (93797, [93765]); (93798, [93766]); (93799, [93767]); (93800, [93768]);
  (93801, [93769]); (93802, [93770]); (93803, [93771]); (93804, [93772]);
  (93805, [93773]); (93806, [93774]); (93807, [93775]); (93808, [93776]);
  (93809, [93777]); (93810, [93778]); (93811, [93779]); (93812, [93780]);
  (93813, [93781]); (93814, [93782]); (93815, [93783]); (93816, [93784]);
  (93817, [93785]); (93818, [93786]); (93819, [93787]); (93820, [93788]);
  (93821, [93789]); (93822, [93790]); (93823, [93791]); (125218, [125184]);
  (125219, [125185]); (125220, [125186]); (125221, [125187]);
  (125222, [125188]); (125223, [125189]); (125224, [125190]);
  (125225, [125191]); (125226, [125192]); (125227, [125193]);
  (125228, [125194]); (125229, [125195]); (125230, [125196]);
  (125231, [125197]); (125232, [125198]); (125233, [125199]);
  (125234, [125200]); (125235, [125201]); (125236, [125202]);
  (125237, [125203]); (125238, [125204]); (125239, [125205]);
  (125240, [125206]); (125241, [125207]); (125242, [125208]);
  (125243, [125209]); (125244, [125210]); (125245, [125211]);
  (125246, [125212]); (125247, [125213]); (125248, [125214]);
  (125249, [125215]); (125250, [125216]); (125251, [125217])
  ].

Fixpoint procura (c : N) (tabela : list (N * list N)) : option (list N) :=
  match tabela with
  | [] => None
  | (k, u) :: resto => if k =? c then Some u else procura c resto
  end.

(** [str.upper] on one code point. *)
Definition upper_cp (c : N) : texto :=
  match procura c maiusculas with
  | Some u => u
  | None => [c]
  end.

(** [str.isspace]. *)
Definition isspace (c : N) : bool :=
  entre 9 13 c || entre 28 32 c || (c =? 133) || (c =? 160)
  || (c =? 5760) || entre 8192 8202 c || (c =? 8232) || (c =? 8233)
  || (c =? 8239) || (c =? 8287) || (c =? 12288).

(** The ranges of the code points that are alphanumeric
    ([str.isalnum]) or the underscore, from the same database. *)
Definition faixas_palavra : list (N * N) :=
  [
  (48, 57); (65, 90); (95, 95); (97, 122); (170, 170); (178, 179);
  (181, 181); (185, 186); (188, 190); (192, 214); (216, 246); (248, 705);
  (710, 721); (736, 740); (748, 748); (750, 750); (880, 884); (886, 887);
  (890, 893); (895, 895); (902, 902); (904, 906); (908, 908); (910, 929);
  (931, 1013); (1015, 1153); (1162, 1327); (1329, 1366); (1369, 1369);
  (1376, 1416); (1488, 1514); (1519, 1522); (1568, 1610); (1632, 1641);
  (1646, 1647); (1649, 1747); (1749, 1749); (1765, 1766); (1774, 1788);
  (1791, 1791); (1808, 1808); (1810, 1839); (1869, 1957); (1969, 1969);
  (1984, 2026); (2036, 2037); (2042, 2042); (2048, 2069); (2074, 2074);
  (2084, 2084); (2088, 2088); (2112, 2136); (2144, 2154); (2160, 2183);
  (2185, 2190); (2208, 2249); (2308, 2361); (2365, 2365); (2384, 2384);
  (2392, 2401); (2406, 2415); (2417, 2432); (2437, 2444); (2447, 2448);
  (2451, 2472); (2474, 2480); (2482, 2482); (2486, 2489); (2493, 2493);
  (2510, 2510); (2524, 2525); (2527, 2529); (2534, 2545); (2548, 2553);
  (2556, 2556); (2565, 2570); (2575, 2576); (2579, 2600); (2602, 2608);
  (2610, 2611); (2613, 2614); (2616, 2617); (2649, 2652); (2654, 2654);
  (2662, 2671); (2674, 2676); (2693, 2701); (2703, 2705); (2707, 2728);
  (2730, 2736); (2738, 2739); (2741, 2745); (2749, 2749); (2768, 2768);
  (2784, 2785); (2790, 2799); (2809, 2809); (2821, 2828); (2831, 2832);
  (2835, 2856); (2858, 2864); (2866, 2867); (2869, 2873); (2877, 2877);
  (2908, 2909); (2911, 2913); (2918, 2927); (2929, 2935); (2947, 2947);
  (2949, 2954); (2958, 2960); (2962, 2965); (2969, 2970); (2972, 2972);
  (2974, 2975); (2979, 2980); (2984, 2986); (2990, 3001); (3024, 3024);
  (3046, 3058); (3077, 3084); (3086, 3088); (3090, 3112); (3114, 3129);
  (3133, 3133); (3160, 3162); (3165, 3165); (3168, 3169); (3174, 3183);
  (3192, 3198); (3200, 3200); (3205, 3212); (3214, 3216); (3218, 3240);
  (3242, 3251); (3253, 3257); (3261, 3261); (3293, 3294); (3296, 3297);
  (3302, 3311); (3313, 3314); (3332, 3340); (3342, 3344); (3346, 3386);
  (3389, 3389); (3406, 3406); (3412, 3414); (3416, 3425); (3430, 3448);
  (3450, 3455); (3461, 3478); (3482, 3505); (3507, 3515); (3517, 3517);
  (3520, 3526); (3558, 3567); (3585, 3632); (3634, 3635); (3648, 3654);
  (3664, 3673); (3713, 3714); (3716, 3716); (3718, 3722); (3724, 3747);
  (3749, 3749); (3751, 3760); (3762, 3763); (3773, 3773); (3776, 3780);
  (3782, 3782); (3792, 3801); (3804, 3807); (3840, 3840); (3872, 3891);
  (3904, 3911); (3913, 3948); (3976, 3980); (4096, 4138); (4159, 4169);
  (4176, 4181); (4186, 4189); (4193, 4193); (4197, 4198); (4206, 4208);
  (4213, 4225); (4238, 4238); (4240, 4249); (4256, 4293); (4295, 4295);
  (4301, 4301); (4304, 4346); (4348, 4680); (4682, 4685); (4688, 4694);
  (4696, 4696); (4698, 4701); (4704, 4744); (4746, 4749); (4752, 4784);
  (4786, 4789); (4792, 4798); (4800, 4800); (4802, 4805); (4808, 4822);
  (4824, 4880); (4882, 4885); (4888, 4954); (4969, 4988); (4992, 5007);
  (5024, 5109); (5112, 5117); (5121, 5740); (5743, 5759); (5761, 5786);
  (5792, 5866); (5870, 5880); (5888, 5905); (5919, 5937); (5952, 5969);
  (5984, 5996); (5998, 6000); (6016, 6067); (6103, 6103); (6108, 6108);
  (6112, 6121); (6128, 6137); (6160, 6169); (6176, 6264); (6272, 6276);
  (6279, 6312); (6314, 6314); (6320, 6389); (6400, 6430); (6470, 6509);
  (6512, 6516); (6528, 6571); (6576, 6601); (6608, 6618); (6656, 6678);
  (6688, 6740); (6784, 6793); (6800, 6809); (6823, 6823); (6917, 6963);
  (6981, 6988); (6992, 7001); (7043, 7072); (7086, 7141); (7168, 7203);
  (7232, 7241); (7245, 7293); (7296, 7304); (7312, 7354); (7357, 7359);
  (7401, 7404); (7406, 7411); (7413, 7414); (7418, 7418); (7424, 7615);
  (7680, 7957); (7960, 7965); (7968, 8005); (8008, 8013); (8016, 8023);
  (8025, 8025); (8027, 8027); (8029, 8029); (8031, 8061); (8064, 8116);
  (8118, 8124); (8126, 8126); (8130, 8132); (8134, 8140); (8144, 8147);
  (8150, 8155); (8160, 8172); (8178, 8180); (8182, 8188); (8304, 8305);
  (8308, 8313); (8319, 8329); (8336, 8348); (8450, 8450); (8455, 8455);
  (8458, 8467); (8469, 8469); (8473, 8477); (8484, 8484); (8486, 8486);
  (8488, 8488); (8490, 8493); (8495, 8505); (8508, 8511); (8517, 8521);
  (8526, 8526); (8528, 8585); (9312, 9371); (9450, 9471); (10102, 10131);
  (11264, 11492); (11499, 11502); (11506, 11507); (11517, 11517);
  (11520, 11557); (11559, 11559); (11565, 11565); (11568, 11623);
  (11631, 11631); (11648, 11670); (11680, 11686); (11688, 11694);
  (11696, 11702); (11704, 11710); (11712, 11718); (11720, 11726);
  (11728, 11734); (11736, 11742); (11823, 11823); (12293, 12295);
  (12321, 12329); (12337, 12341); (12344, 12348); (12353, 12438);
  (12445, 12447); (12449, 12538); (12540, 12543); (12549, 12591);
  (12593, 12686); (12690, 12693); (12704, 12735); (12784, 12799);
  (12832, 12841); (12872, 12879); (12881, 12895); (12928, 12937);
  (12977, 12991); (13312, 19903); (19968, 42124); (42192, 42237);
  (42240, 42508); (42512, 42539); (42560, 42606); (42623, 42653);
  (42656, 42735); (42775, 42783); (42786, 42888); (42891, 42954);
  (42960, 42961); (42963, 42963); (42965, 42969); (42994, 43009);
  (43011, 43013); (43015, 43018); (43020, 43042); (43056, 43061);
  (43072, 43123); (43138, 43187); (43216, 43225); (43250, 43255);
  (43259, 43259); (43261, 43262); (43264, 43301); (43312, 43334);
  (43360, 43388); (43396, 43442); (43471, 43481); (43488, 43492);
  (43494, 43518); (43520, 43560); (43584, 43586); (43588, 43595);
  (43600, 43609); (43616, 43638); (43642, 43642); (43646, 43695);
  (43697, 43697); (43701, 43702); (43705, 43709); (43712, 43712);
  (43714, 43714); (43739, 43741); (43744, 43754); (43762, 43764);
  (43777, 43782); (43785, 43790); (43793, 43798); (43808, 43814);
  (43816, 43822); (43824, 43866); (43868, 43881); (43888, 44002);
  (44016, 44025); (44032, 55203); (55216, 55238); (55243, 55291);
  (63744, 64109); (64112, 64217); (64256, 64262); (64275, 64279);
  (64285, 64285); (64287, 64296); (64298, 64310); (64312, 64316);
  (64318, 64318); (64320, 64321); (64323, 64324); (64326, 64433);
  (64467, 64829); (64848, 64911); (64914, 64967); (65008, 65019);
  (65136, 65140); (65142, 65276); (65296, 65305); (65313, 65338);
  (65345, 65370); (65382, 65470); (65474, 65479); (65482, 65487);
  (65490, 65495); (65498, 65500); (65536, 65547); (65549, 65574);
  (65576, 65594); (65596, 65597); (65599, 65613); (65616, 65629);
  (65664, 65786); (65799, 65843); (65856, 65912); (65930, 65931);
  (66176, 66204); (66208, 66256); (66273, 66299); (66304, 66339);
  (66349, 66378); (66384, 66421); (66432, 66461); (66464, 66499);
  (66504, 66511); (66513, 66517); (66560, 66717); (66720, 66729);
  (66736, 66771); (66776, 66811); (66816, 66855); (66864, 66915);
  (66928, 66938); (66940, 66954); (66956, 66962); (66964, 66965);
  (66967, 66977); (66979, 66993); (66995, 67001); (67003, 67004);
  (67072, 67382); (67392, 67413); (67424, 67431); (67456, 67461);
  (67463, 67504); (67506, 67514); (67584, 67589); (67592, 67592);
  (67594, 67637); (67639, 67640); (67644, 67644); (67647, 67669);
  (67672, 67702); (67705, 67742); (67751, 67759); (67808, 67826);
  (67828, 67829); (67835, 67867); (67872, 67897); (67968, 68023);
  (68028, 68047); (68050, 68096); (68112, 68115); (68117, 68119);
  (68121, 68149); (68160, 68168); (68192, 68222); (68224, 68255);
  (68288, 68295); (68297, 68324); (68331, 68335); (68352, 68405);
  (68416, 68437); (68440, 68466); (68472, 68497); (68521, 68527);
  (68608, 68680); (68736, 68786); (68800, 68850); (68858, 68899);
  (68912, 68921); (69216, 69246); (69248, 69289); (69296, 69297);
  (69376, 69415); (69424, 69445); (69457, 69460); (69488, 69505);
  (69552, 69579); (69600, 69622); (69635, 69687); (69714, 69743);
  (69745, 69746); (69749, 69749); (69763, 69807); (69840, 69864);
  (69872, 69881); (69891, 69926); (69942, 69951); (69956, 69956);
  (69959, 69959); (69968, 70002); (70006, 70006); (70019, 70066);
  (70081, 70084); (70096, 70106); (70108, 70108); (70113, 70132);
  (70144, 70161); (70163, 70187); (70272, 70278); (70280, 70280);
  (70282, 70285); (70287, 70301); (70303, 70312); (70320, 70366);
  (70384, 70393); (70405, 70412); (70415, 70416); (70419, 70440);
  (70442, 70448); (70450, 70451); (70453, 70457); (70461, 70461);
  (70480, 70480); (70493, 70497); (70656, 70708); (70727, 70730);
  (70736, 70745); (70751, 70753); (70784, 70831); (70852, 70853);
  (70855, 70855); (70864, 70873); (71040, 71086); (71128, 71131);
  (71168, 71215); (71236, 71236); (71248, 71257); (71296, 71338);
  (71352, 71352); (71360, 71369); (71424, 71450); (71472, 71483);
  (71488, 71494); (71680, 71723); (71840, 71922); (71935, 71942);
  (71945, 71945); (71948, 71955); (71957, 71958); (71960, 71983);
  (71999, 71999); (72001, 72001); (72016, 72025); (72096, 72103);
  (72106, 72144); (72161, 72161); (72163, 72163); (72192, 72192);
  (72203, 72242); (72250, 72250); (72272, 72272); (72284, 72329);
  (72349, 72349); (72368, 72440); (72704, 72712); (72714, 72750);
  (72768, 72768); (72784, 72812); (72818, 72847); (72960, 72966);
  (72968, 72969); (72971, 73008); (73030, 73030); (73040, 73049);
  (73056, 73061); (73063, 73064); (73066, 73097); (73112, 73112);
  (73120, 73129); (73440, 73458); (73648, 73648); (73664, 73684);
  (73728, 74649); (74752, 74862); (74880, 75075); (77712, 77808);
  (77824, 78894); (82944, 83526); (92160, 92728); (92736, 92766);
  (92768, 92777); (92784, 92862); (92864, 92873); (92880, 92909);
  (92928, 92975); (92992, 92995); (93008, 93017); (93019, 93025);
  (93027, 93047); (93053, 93071); (93760, 93846); (93952, 94026);
  (94032, 94032); (94099, 94111); (94176, 94177); (94179, 94179);
  (94208, 100343); (100352, 101589); (101632, 101640); (110576, 110579);
  (110581, 110587); (110589, 110590); (110592, 110882); (110928, 110930);
  (110948, 110951); (110960, 111355); (113664, 113770); (113776, 113788);
  (113792, 113800); (113808, 113817); (119520, 119539); (119648, 119672);
  (119808, 119892); (119894, 119964); (119966, 119967); (119970, 119970);
  (119973, 119974); (119977, 119980); (119982, 119993); (119995, 119995);
  (119997, 120003); (120005, 120069); (120071, 120074); (120077, 120084);
  (120086, 120092); (120094, 120121); (120123, 120126); (120128, 120132);
  (120134, 120134); (120138, 120144); (120146, 120485); (120488, 120512);
  (120514, 120538); (120540, 120570); (120572, 120596); (120598, 120628);
  (120630, 120654); (120656, 120686); (120688, 120712); (120714, 120744);
  (120746, 120770); (120772, 120779); (120782, 120831); (122624, 122654);
  (123136, 123180); (123191, 123197); (123200, 123209); (123214, 123214);
  (123536, 123565); (123584, 123627); (123632, 123641); (124896, 124902);
  (124904, 124907); (124909, 124910); (124912, 124926); (124928, 125124);
  (125127, 125135); (125184, 125251); (125259, 125259); (125264, 125273);
  (126065, 126123); (126125, 126127); (126129, 126132); (126209, 126253);
  (126255, 126269); (126464, 126467); (126469, 126495); (126497, 126498);
  (126500, 126500); (126503, 126503); (126505, 126514); (126516, 126519);
  (126521, 126521); (126523, 126523); (126530, 126530); (126535, 126535);
  (126537, 126537); (126539, 126539); (126541, 126543); (126545, 126546);
  (126548, 126548); (126551, 126551); (126553, 126553); (126555, 126555);
  (126557, 126557); (126559, 126559); (126561, 126562); (126564, 126564);
  (126567, 126570); (126572, 126578); (126580, 126583); (126585, 126588);
  (126590, 126590); (126592, 126601); (126603, 126619); (126625, 126627);
  (126629, 126633); (126635, 126651); (127232, 127244); (130032, 130041);
  (131072, 173791); (173824, 177976); (177984, 178205); (178208, 183969);
  (183984, 191456); (194560, 195101); (196608, 201546)
  ].

(** The regex class [\w] of a [str] pattern: alphanumeric or underscore. *)
Definition palavra (c : N) : bool :=
  existsb (fun f => entre (fst f) (snd f) c) faixas_palavra.

(** Does [str.upper] leave every code point it produces as it is? *)
Definition maiusculas_fechadas : bool :=
  forallb (fun e =>
             forallb (fun d => match procura d maiusculas with
                               | None => true
                               | Some _ => false
                               end)
                     (snd e))
          maiusculas.

End Unicode.

Arguments Unicode.upper_cp c : simpl never.
Arguments Unicode.palavra c : simpl never.

(** [Series.str.upper] on one cell. *)
Definition upper (s : texto) : texto := flat_map Unicode.upper_cp s.

(** [Series.str.strip] on one cell. *)
Fixpoint lstrip (s : texto) : texto :=
  match s with
  | [] => []
  | c :: s' => if Unicode.isspace c then lstrip s' else s
  end.

Definition rstrip (s : texto) : texto := rev (lstrip (rev s)).

Definition strip (s : texto) : texto := rstrip (lstrip s).

(** A code point that [str.upper] leaves as it is. *)
Definition fixo_upper (c : N) : Prop := Unicode.upper_cp c = [c].

Definition e_espaco (c : option N) : bool :=
  match c with Some x => Unicode.isspace x | None => false end.

(** The last character, if any. *)
Definition fins (s : texto) : option N := hd_error (rev s).

(** No white space at either end. *)
Definition aparado (s : texto) : Prop :=
  e_espaco (hd_error s) = false /\ e_espaco (fins s) = false.

(* ------------------------------------------------------------------ *)
(** ** [re.sub] of a literal between two [\b] *)

Section Substituicao.

(** The word class is a parameter of the scan; the pipeline uses
    [Unicode.palavra]. *)
Variable w : N -> bool.

Definition e_palavra (c : option N) : bool :=
  match c with Some x => w x | None => false end.

(** [\b]: exactly one of the two neighbours is a word character. *)
Definition limite (antes depois : option N) : bool :=
  xorb (e_palavra antes) (e_palavra depois).

Fixpoint prefixo (p s : texto) : bool :=
  match p, s with
  | [], _ => true
  | _ :: _, [] => false
  | a :: p', b :: s' => (a =? b)%N && prefixo p' s'
  end.

Definition ultimo (ant : option N) (s : texto) : option N :=
  match s with [] => ant | _ :: _ => Some (last s 0%N) end.

(** Does [\b pat \b] match at the head of [s], the character before
    being [ant]? *)
Definition casa (pat : texto) (ant : option N) (s : texto) : bool :=
  limite ant (hd_error s) && prefixo pat s
  && limite (ultimo ant pat) (hd_error (skipn (List.length pat) s)).

(** Left to right, non-overlapping: on a match emit [repl] and resume
    after the matched text ([pular] counts what is left to skip). *)
Fixpoint sub_de (pat repl : texto) (pular : nat) (ant : option N)
    (s : texto) : texto :=
  match s with
  | [] => []
  | c :: s' =>
      match pular with
      | S k => sub_de pat repl k (Some c) s'
      | O =>
          if casa pat ant s
          then repl ++ sub_de pat repl (List.length pat - 1) (Some c) s'
          else c :: sub_de pat repl 0 (Some c) s'
      end
  end.

Definition re_sub (pat repl s : texto) : texto := sub_de pat repl 0 None s.

(** Is there a place of [s] where [\b pat \b] matches, [ant] being the
    character before [s]? *)
Fixpoint ocorre (pat : texto) (ant : option N) (s : texto) : bool :=
  match s with
  | [] => false
  | c :: s' => casa pat ant s || ocorre pat (Some c) s'
  end.

(** Wherever [pat] stands in [s] it touches a word character, before or
    after: it is only ever a part of a longer token. *)
Definition so_em_palavra_maior (pat : texto) (ant : option N) (s : texto)
  : Prop :=
  forall a b, s = a ++ pat ++ b ->
              e_palavra (ultimo ant a) = true \/ e_palavra (hd_error b) = true.

End Substituicao.

Definition VINICIUS : texto := Eval vm_compute in txt "VINICIUS".
Definition VINICIUS_canonico : texto := Eval vm_compute in txt "VINÍCIUS".
Definition MARCOS_NASCIMENTO : texto := Eval vm_compute in txt "MARCOS NASCIMENTO".
Definition MARCOS : texto := Eval vm_compute in txt "MARCOS".

(** [Series.str.replace(pat, repl, regex=True)] on one cell, for a
    pattern that is a literal between two [\b]. *)
Definition str_replace (pat repl s : texto) : texto :=
  re_sub Unicode.palavra pat repl s.

(** Lines 99-105 on one cell, after [astype(str)]. *)
Definition padroniza (s : texto) : texto :=
  str_replace MARCOS_NASCIMENTO MARCOS
    (str_replace VINICIUS VINICIUS_canonico (strip (upper s))).

(* ================================================================== *)
(** * Numbers *)

Local Open Scope Q_scope.

(** [numpy.rint] on an exact number: round half to even. *)
Definition rint (x : Q) : Z :=
  let f := Qfloor x in
  match Qcompare (x - inject_Z f) (1 # 2) with
  | Lt => f
  | Gt => (f + 1)%Z
  | Eq => if Z.even f then f else (f + 1)%Z
  end.

(** [round(2)] in exact arithmetic: scale by 100, [rint], scale back
    (bit for bit in binary64: [F64.round2] below). *)
Definition round2 (x : Q) : Q := inject_Z (rint (x * 100)) / 100.

(** [round(2)] on one cell: NaN stays NaN. *)
Definition round2_cel (x : option Q) : option Q := option_map round2 x.

(** [sum] of a column in exact arithmetic, NaN skipped (an all-NaN or
    empty column sums to 0). *)
Definition soma (col : list (option Q)) : Q :=
  fold_right (fun c acc => match c with Some q => q + acc | None => acc end) 0 col.

(** [count] of a column: the cells that are not NaN. *)
Definition conta (col : list (option Q)) : nat :=
  List.length (filter (fun c => match c with Some _ => true | None => false end) col).

Definition soma_Q (col : list Q) : Q := fold_right Qplus 0 col.

(** A whole number of hundredths. *)
Definition centavos (q : Q) : Prop := exists z : Z, q == inject_Z z / 100.


(* ================================================================== *)
(** * Keys and [groupby] *)

Fixpoint texto_compare (a b : texto) : comparison :=
  match a, b with
  | [], [] => Eq
  | [], _ :: _ => Lt
  | _ :: _, [] => Gt
  | x :: a', y :: b' =>
      match (x ?= y)%N with
      | Eq => texto_compare a' b'
      | c => c
      end
  end.

Definition par_compare (k1 k2 : texto * texto) : comparison :=
  match texto_compare (fst k1) (fst k2) with
  | Eq => texto_compare (snd k1) (snd k2)
  | c => c
  end.

Definition par_eqb (k1 k2 : texto * texto) : bool :=
  texto_eqb (fst k1) (fst k2) && texto_eqb (snd k1) (snd k2).

Section GroupBy.

Variables (R K : Type).
Variable cmp : K -> K -> comparison.
Variable chave : R -> option K.

Definition mesma (k1 k2 : K) : bool :=
  match cmp k1 k2 with Eq => true | _ => false end.

(** Insertion into a strictly increasing list of keys. *)
Fixpoint insere (k : K) (l : list K) : list K :=
  match l with
  | [] => [k]
  | y :: l' =>
      match cmp k y with
      | Lt => k :: l
      | Eq => l
      | Gt => y :: insere k l'
      end
  end.

(** The group keys: the distinct keys of the rows whose key is not NaN
    ([dropna=True]), in increasing order ([sort=True]). *)
Definition chaves (df : list R) : list K :=
  fold_right insere []
    (flat_map (fun r => match chave r with Some k => [k] | None => [] end) df).

Definition no_grupo (k : K) (r : R) : bool :=
  match chave r with Some k' => mesma k' k | None => false end.

(** The rows of one group, in row order. *)
Definition grupo (df : list R) (k : K) : list R := filter (no_grupo k) df.

Definition groupby (df : list R) : list (K * list R) :=
  map (fun k => (k, grupo df k)) (chaves df).

(** Does the row carry one of the keys [ks]? *)
Definition tem_chave (ks : list K) (r : R) : bool :=
  match chave r with Some k => existsb (mesma k) ks | None => false end.

End GroupBy.

(** [sort_values(col, ascending=False)]. pandas does not fix the order
    among rows with equal values; here they keep the order they had. *)
Section SortValues.

Variable R : Type.
Variable col : R -> Q.

Fixpoint insere_desc (x : R) (l : list R) : list R :=
  match l with
  | [] => [x]
  | y :: l' =>
      if Qle_bool (col y) (col x) then x :: l else y :: insere_desc x l'
  end.

Definition sort_values_desc (l : list R) : list R := fold_right insere_desc [] l.

End SortValues.

(* ================================================================== *)
(** * The frame of trips *)

(** A cell of the DATA column. *)
Inductive celula_data :=
| Carimbo (t : Z)          (* a Timestamp, in nanoseconds *)
| TextoData (s : texto)    (* text not yet parsed *)
| NaT.                     (* empty *)

Record linha := {
  MOTORISTA : option texto;
  CENTRO_DE_CUSTO : option texto;
  DATA : celula_data;
  QUANT : option Q;
  TOTAL : option Q
}.

Definition frame := list linha.

Inductive excecao := ValueError (msg : string).

Inductive resultado (A : Type) :=
| Retorna (a : A)
| Levanta (e : excecao).

Arguments Retorna {A} a.
Arguments Levanta {A} e.

(** [pd.to_datetime] of a [datetime.date], counted in days: midnight of
    that day. *)
Definition to_datetime_date (d : Z) : Z := (d * 86400000000000)%Z.

(** [astype(str)] on one cell of an object column, as pandas 1.x and 2.x
    do it: a missing value becomes the text [nan]. *)
Definition astype_str (c : option texto) : texto :=
  match c with
  | Some s => s
  | None => txt "nan"
  end.

Definition isna_data (c : celula_data) : bool :=
  match c with NaT => true | _ => false end.

Definition isna_texto (c : option texto) : bool :=
  match c with None => true | Some _ => false end.

(** [dropna(subset=["MOTORISTA", "DATA"])]. *)
Definition dropna (df : frame) : frame :=
  filter (fun r => negb (isna_texto (MOTORISTA r)) && negb (isna_data (DATA r))) df.

(** [(DATA >= data_ini_ts) & (DATA <= data_fim_ts)] on one row. *)
Definition mask (ini_ts fim_ts : Z) (r : linha) : bool :=
  match DATA r with
  | Carimbo t => (ini_ts <=? t)%Z && (t <=? fim_ts)%Z
  | _ => false
  end.

Definition msg_vazio : string :=
  "Nenhum registro no intervalo de datas selecionado.".

Section Pipeline.

(** The text-date parser of pandas, [None] where it fails. *)
Variable parse_data : texto -> option Z.

(** [pd.to_datetime(..., errors="coerce")] on one cell. *)
Definition to_datetime_coerce (c : celula_data) : celula_data :=
  match c with
  | Carimbo t => Carimbo t
  | TextoData s =>
      match parse_data s with
      | Some t => Carimbo t
      | None => NaT
      end
  | NaT => NaT
  end.

(** Line 96: the DATA column of the caller's frame is replaced. *)
Definition atribui_DATA (df : frame) : frame :=
  map (fun r => {| MOTORISTA := MOTORISTA r;
                   CENTRO_DE_CUSTO := CENTRO_DE_CUSTO r;
                   DATA := to_datetime_coerce (DATA r);
                   QUANT := QUANT r;
                   TOTAL := TOTAL r |}) df.

(** Lines 99-105: the MOTORISTA column of the caller's frame is replaced. *)
Definition atribui_MOTORISTA (df : frame) : frame :=
  map (fun r => {| MOTORISTA := Some (padroniza (astype_str (MOTORISTA r)));
                   CENTRO_DE_CUSTO := CENTRO_DE_CUSTO r;
                   DATA := DATA r;
                   QUANT := QUANT r;
                   TOTAL := TOTAL r |}) df.

(** [limpar_e_filtrar_dados]: the first component is the caller's frame
    as the call leaves it, the second what the call returns or raises. *)
Definition limpar_e_filtrar_dados (dados : frame) (data_ini data_fim : Z)
  : frame * resultado frame :=
  let dados := atribui_DATA dados in
  let dados := atribui_MOTORISTA dados in
  let validos := dropna dados in
  let data_ini_ts := to_datetime_date data_ini in
  let data_fim_ts := to_datetime_date data_fim in
  let dados_filtrados := filter (mask data_ini_ts data_fim_ts) validos in
  match dados_filtrados with
  | [] => (dados, Levanta (ValueError msg_vazio))
  | _ :: _ => (dados, Retorna dados_filtrados)
  end.

(** The two column assignments, seen on one row. *)
Definition normaliza_linha (r : linha) : linha :=
  {| MOTORISTA := Some (padroniza (astype_str (MOTORISTA r)));
     CENTRO_DE_CUSTO := CENTRO_DE_CUSTO r;
     DATA := to_datetime_coerce (DATA r);
     QUANT := QUANT r;
     TOTAL := TOTAL r |}.

(** The rows a call hands back: none when it raises. *)
Definition devolvidos (A : Type) (res : resultado (list A)) : list A :=
  match res with
  | Retorna l => l
  | Levanta _ => []
  end.

End Pipeline.

(* ================================================================== *)
(** * [calcular_bonus] *)

Definition FRETE_BRITA : texto := Eval vm_compute in txt "FRETE BRITA".
Definition AREIA : texto := Eval vm_compute in txt "AREIA".
Definition FRETE_CIMENTO : texto := Eval vm_compute in txt "FRETE CIMENTO".
Definition FRETE_ADITIVO : texto := Eval vm_compute in txt "FRETE ADITIVO".

(** [Series.isin] on one cell: NaN is in no list of texts. *)
Definition isin (l : list texto) (c : option texto) : bool :=
  match c with
  | Some x => existsb (texto_eqb x) l
  | None => false
  end.

(** A column times a float constant, on one cell, in exact arithmetic
    (bit for bit in binary64: [F64.mul] below). *)
Definition vezes (k : Q) (c : option Q) : option Q :=
  option_map (fun q => q * k) c.

(** [np.select] at one position: the choice of the first condition
    that holds, else the default. *)
Fixpoint escolhe (conds : list bool) (escolhas : list (option Q))
    (default : option Q) : option Q :=
  match conds, escolhas with
  | c :: conds', x :: escolhas' =>
      if c then x else escolhe conds' escolhas' default
  | _, _ => default
  end.

(** [np.select(condlist, choicelist, default)] over columns of [n] rows. *)
Definition np_select (condlist : list (list bool))
    (choicelist : list (list (option Q))) (default : Q) (n : nat)
  : list (option Q) :=
  map (fun i =>
         escolhe (map (fun c => nth i c false) condlist)
                 (map (fun x => nth i x None) choicelist)
                 (Some default))
      (seq 0 n).

(** Lines 128-137: the BÔNUS column. *)
Definition coluna_bonus (dados_filtrados : frame) : list (option Q) :=
  let conditions :=
    [ map (fun r => isin [FRETE_BRITA; AREIA] (CENTRO_DE_CUSTO r)) dados_filtrados;
      map (fun r => isin [FRETE_CIMENTO; FRETE_ADITIVO] (CENTRO_DE_CUSTO r))
          dados_filtrados ] in
  let calculos :=
    [ map (fun r => vezes 1 (QUANT r)) dados_filtrados;
      map (fun r => vezes (2 # 100) (TOTAL r)) dados_filtrados ] in
  map round2_cel
      (np_select conditions calculos 0 (List.length dados_filtrados)).

(** What lines 128-137 compute at one row. *)
Definition bonus_da_linha (r : linha) : option Q :=
  round2_cel
    (escolhe [ isin [FRETE_BRITA; AREIA] (CENTRO_DE_CUSTO r);
               isin [FRETE_CIMENTO; FRETE_ADITIVO] (CENTRO_DE_CUSTO r) ]
             [ vezes 1 (QUANT r); vezes (2 # 100) (TOTAL r) ]
             (Some 0)).

(** A cell that adds nothing to a sum: NaN or zero. *)
Definition nulo (c : option Q) : Prop :=
  match c with Some q => q == 0 | None => True end.

(** A row of [dados_filtrados] once the BÔNUS column is there. *)
Record registro := {
  base : linha;
  BONUS : option Q
}.

Definition com_bonus (dados_filtrados : frame) : list registro :=
  map (fun p => {| base := fst p; BONUS := snd p |})
      (combine dados_filtrados (coluna_bonus dados_filtrados)).

Definition chave_motorista (r : registro) : option texto := MOTORISTA (base r).

Definition chave_centro (r : registro) : option texto := CENTRO_DE_CUSTO (base r).

Definition chave_par (r : registro) : option (texto * texto) :=
  match MOTORISTA (base r), CENTRO_DE_CUSTO (base r) with
  | Some m, Some c => Some (m, c)
  | _, _ => None
  end.

(** A row of the detailed table. *)
Record linha_tabela := {
  t_MOTORISTA : texto;
  t_CENTRO : texto;
  t_VIAGENS : nat;
  t_QUANT : Q;
  t_FATURAMENTO : Q;
  t_BONUS : Q;
  t_BONUS_TOTAL : option Q
}.

(** A row of the per-driver summary. *)
Record linha_motorista := {
  m_MOTORISTA : texto;
  m_VIAGENS : nat;
  m_BONUS : Q
}.

(** A row of the per-cost-centre summary. *)
Record linha_centro := {
  c_CENTRO : texto;
  c_BONUS_TOTAL : Q
}.


(** The [agg] of lines 140-145 on one group, rounded; the BÔNUS TOTAL
    column comes later. *)
Definition agg_tabela (g : (texto * texto) * list registro) : linha_tabela :=
  let rs := snd g in
  {| t_MOTORISTA := fst (fst g);
     t_CENTRO := snd (fst g);
     t_VIAGENS := conta (map (fun r => QUANT (base r)) rs);
     t_QUANT := round2 (soma (map (fun r => QUANT (base r)) rs));
     t_FATURAMENTO := round2 (soma (map (fun r => TOTAL (base r)) rs));
     t_BONUS := round2 (soma (map BONUS rs));
     t_BONUS_TOTAL := None |}.

(** Lines 140-145. *)
Definition agrega_tabela (dados : list registro) : list linha_tabela :=
  map agg_tabela (groupby par_compare chave_par dados).

(** The [agg] of lines 148-151 on one group, rounded. *)
Definition agg_motorista (g : texto * list registro) : linha_motorista :=
  let rs := snd g in
  {| m_MOTORISTA := fst g;
     m_VIAGENS := conta (map (fun r => QUANT (base r)) rs);
     m_BONUS := round2 (soma (map BONUS rs)) |}.

(** Lines 148-151. *)
Definition agrega_motorista (dados : list registro) : list linha_motorista :=
  sort_values_desc m_BONUS
    (map agg_motorista (groupby texto_compare chave_motorista dados)).

(** [Index.map(Series)]: the value at that label, NaN when absent. *)
Fixpoint procura (bonus_motorista : list linha_motorista) (m : texto)
  : option Q :=
  match bonus_motorista with
  | [] => None
  | x :: l => if texto_eqb (m_MOTORISTA x) m then Some (m_BONUS x) else procura l m
  end.

Definition indice (r : linha_tabela) : texto * texto := (t_MOTORISTA r, t_CENTRO r).

Definition poe_BONUS_TOTAL (v : option Q) (r : linha_tabela) : linha_tabela :=
  {| t_MOTORISTA := t_MOTORISTA r;
     t_CENTRO := t_CENTRO r;
     t_VIAGENS := t_VIAGENS r;
     t_QUANT := t_QUANT r;
     t_FATURAMENTO := t_FATURAMENTO r;
     t_BONUS := t_BONUS r;
     t_BONUS_TOTAL := v |}.

(** Lines 154-156. *)
Definition mapeia_total (bonus_motorista : list linha_motorista)
    (tabela : list linha_tabela) : list linha_tabela :=
  map (fun r => poe_BONUS_TOTAL (procura bonus_motorista (t_MOTORISTA r)) r) tabela.

(** Is the row of the detailed table a row of driver [d]? *)
Definition do_motorista (d : texto) (r : linha_tabela) : bool :=
  texto_eqb (t_MOTORISTA r) d.

(** [x.index[0]] for the group of driver [m]. *)
Definition primeiro_indice (tabela : list linha_tabela) (m : texto)
  : option (texto * texto) :=
  hd_error (map indice (filter (do_motorista m) tabela)).

(** Lines 157-159: [x.where(x.index == x.index[0], None)] in every group
    of the detailed table by driver. *)
Definition so_na_primeira (tabela : list linha_tabela) : list linha_tabela :=
  map (fun r =>
         match primeiro_indice tabela (t_MOTORISTA r) with
         | Some i0 =>
             if par_eqb (indice r) i0 then r else poe_BONUS_TOTAL None r
         | None => poe_BONUS_TOTAL None r
         end)
      tabela.

(** The [agg] of lines 162-167 on one group, rounded. *)
Definition agg_centro (g : texto * list registro) : linha_centro :=
  {| c_CENTRO := fst g;
     c_BONUS_TOTAL := round2 (soma (map BONUS (snd g))) |}.

(** Lines 162-167. *)
Definition agrega_centro (dados : list registro) : list linha_centro :=
  sort_values_desc c_BONUS_TOTAL
    (map agg_centro (groupby texto_compare chave_centro dados)).

Record tabelas := {
  tabela : list linha_tabela;
  bonus_motorista : list linha_motorista;
  resumo_centro_custo : list linha_centro
}.

Definition calcular_bonus (dados_filtrados : frame) : tabelas :=
  let dados := com_bonus dados_filtrados in
  let tabela := agrega_tabela dados in
  let bonus_motorista := agrega_motorista dados in
  let tabela := mapeia_total bonus_motorista tabela in
  let tabela := so_na_primeira tabela in
  let resumo_centro_custo := agrega_centro dados in
  {| tabela := tabela;
     bonus_motorista := bonus_motorista;
     resumo_centro_custo := resumo_centro_custo |}.

Section Relatorio.

Variable parse_data : texto -> option Z.

(** Lines 440-443: the tables are computed only from what the cleaning
    step returns. *)
Definition relatorio (dados_raw : frame) (data_ini data_fim : Z)
  : frame * resultado (frame * tabelas) :=
  match limpar_e_filtrar_dados parse_data dados_raw data_ini data_fim with
  | (dados, Retorna dados_filtrados) =>
      (dados, Retorna (dados_filtrados, calcular_bonus dados_filtrados))
  | (dados, Levanta e) => (dados, Levanta e)
  end.

End Relatorio.

(** Idempotence of the cleaning step, as the specification states it:
    cleaning what a call has returned, with any range that holds all its
    dates, returns it again. *)
Definition normalizador_idempotente : Prop :=
  forall (parse_data : texto -> option Z) (dados : frame) (ini fim : Z)
         (saida : frame) (ini' fim' : Z),
    snd (limpar_e_filtrar_dados parse_data dados ini fim) = Retorna saida ->
    (forall r t, In r saida -> DATA r = Carimbo t ->
                 (to_datetime_date ini' <= t <= to_datetime_date fim')%Z) ->
    snd (limpar_e_filtrar_dados parse_data saida ini' fim') = Retorna saida.

(* ================================================================== *)
(** * The script: the range suggested to the user *)

(** [Timestamp.date()], in days. *)
Definition dt_date (t : Z) : Z := (t / 86400000000000)%Z.

(** [Series.dropna()] on a column of dates: the timestamps that are
    there. *)
Definition carimbos (col : list celula_data) : list Z :=
  flat_map (fun c => match c with Carimbo t => [t] | _ => [] end) col.

(** [Series.min()] and [Series.max()] of a column that is not empty. *)
Definition serie_min (t : Z) (l : list Z) : Z := fold_left Z.min l t.

Definition serie_max (t : Z) (l : list Z) : Z := fold_left Z.max l t.

Section Script.

Variable parse_data : texto -> option Z.

(** Lines 420-425: the first and last day offered in the side bar, [hoje]
    being [date.today()]. *)
Definition intervalo_sugerido (hoje : Z) (dados_raw : frame) : Z * Z :=
  let datas_validas :=
    carimbos (map (fun r => to_datetime_coerce parse_data (DATA r)) dados_raw) in
  match datas_validas with
  | [] => (hoje, hoje)
  | t :: l => (dt_date (serie_min t l), dt_date (serie_max t l))
  end.

(** Lines 433-435: the script goes on only if the range is in order. *)
Definition intervalo_aceito (data_ini data_fim : Z) : bool :=
  negb (data_fim <? data_ini)%Z.

End Script.

(* ================================================================== *)
(** * [tabela_dias_trabalhados] and the matrix of the heat map *)

(** A row of the copy of the frame once the DIA column is there. *)
Record linha_dia := {
  da_linha : linha;
  DIA : option Z
}.

(** A row of the table of days worked. *)
Record linha_dias_trabalhados := {
  Motorista : texto;
  Dias_Trabalhados : nat
}.

(** [Series.dt.date] on one cell: the day of a timestamp, NaT for NaT. *)
Definition dia_da_celula (c : celula_data) : option Z :=
  match c with
  | Carimbo t => Some (dt_date t)
  | _ => None
  end.

(** The cells of a column that are not NaN. *)
Definition presentes (col : list (option Z)) : list Z :=
  flat_map (fun c => match c with Some d => [d] | None => [] end) col.

(** [Series.nunique()]: how many distinct values, NaN apart. *)
Definition nunique (col : list (option Z)) : nat :=
  List.length (nodup Z.eq_dec (presentes col)).

(** All the values, or nothing as soon as one is missing. *)
Fixpoint todos (A : Type) (l : list (option A)) : option (list A) :=
  match l with
  | [] => Some []
  | None :: _ => None
  | Some a :: l' =>
      match todos l' with
      | Some r => Some (a :: r)
      | None => None
      end
  end.

Definition chave_motorista_dia (x : linha_dia) : option texto :=
  MOTORISTA (da_linha x).

Definition chave_par_dia (x : linha_dia) : option (texto * Z) :=
  match MOTORISTA (da_linha x), DIA x with
  | Some m, Some d => Some (m, d)
  | _, _ => None
  end.

Definition par_dia_compare (k1 k2 : texto * Z) : comparison :=
  match texto_compare (fst k1) (fst k2) with
  | Eq => (snd k1 ?= snd k2)%Z
  | c => c
  end.

(** The matrix of the heat map: its index, its columns and its values,
    row by row. *)
Record matriz := {
  m_index : list texto;
  m_columns : list Z;
  m_values : list (list Z)
}.

(** The size recorded for a pair of labels, if any. *)
Fixpoint procura_tamanho (tamanhos : list ((texto * Z) * nat)) (k : texto * Z)
  : option nat :=
  match tamanhos with
  | [] => None
  | (k', n) :: l =>
      if mesma par_dia_compare k' k then Some n else procura_tamanho l k
  end.

(** [unstack] of a series indexed by pairs, with [fill_value]: one row
    for each first label, one column for each second label. *)
Definition unstack (fill_value : Z) (tamanhos : list ((texto * Z) * nat))
  : matriz :=
  let index := chaves texto_compare (fun e => Some (fst (fst e))) tamanhos in
  let columns := chaves Z.compare (fun e => Some (snd (fst e))) tamanhos in
  {| m_index := index;
     m_columns := columns;
     m_values :=
       map (fun m =>
              map (fun d =>
                     match procura_tamanho tamanhos (m, d) with
                     | Some n => Z.of_nat n
                     | None => fill_value
                     end)
                  columns)
           index |}.

(** [DataFrame.applymap]. *)
Definition applymap (f : Z -> Z) (m : matriz) : matriz :=
  {| m_index := m_index m;
     m_columns := m_columns m;
     m_values := map (map f) (m_values m) |}.

Definition soma_Z (l : list Z) : Z := fold_right Z.add 0%Z l.

Section Dias.

Variable parse_data : texto -> option Z.

(** [pd.to_datetime] on one cell with the default [errors="raise"]:
    [None] where it raises. *)
Definition to_datetime_raise (c : celula_data) : option celula_data :=
  match c with
  | Carimbo t => Some (Carimbo t)
  | TextoData s =>
      match parse_data s with
      | Some t => Some (Carimbo t)
      | None => None
      end
  | NaT => Some NaT
  end.

(** The copy of the frame with DATA converted and the DIA column added;
    [None] where the conversion raises. *)
Definition com_dia (dados_filtrados : frame) : option (list linha_dia) :=
  match todos (map (fun r => to_datetime_raise (DATA r)) dados_filtrados) with
  | None => None
  | Some coluna =>
      Some (map (fun p =>
                   {| da_linha :=
                        {| MOTORISTA := MOTORISTA (fst p);
                           CENTRO_DE_CUSTO := CENTRO_DE_CUSTO (fst p);
                           DATA := snd p;
                           QUANT := QUANT (fst p);
                           TOTAL := TOTAL (fst p) |};
                      DIA := dia_da_celula (snd p) |})
                (combine dados_filtrados coluna))
  end.

(** What [com_dia] makes of one row (NaT standing in where the
    conversion raises and there is no row at all). *)
Definition linha_com_dia (r : linha) : linha_dia :=
  let c := match to_datetime_raise (DATA r) with
           | Some c => c
           | None => NaT
           end in
  {| da_linha :=
       {| MOTORISTA := MOTORISTA r;
          CENTRO_DE_CUSTO := CENTRO_DE_CUSTO r;
          DATA := c;
          QUANT := QUANT r;
          TOTAL := TOTAL r |};
     DIA := dia_da_celula c |}.

(** A DATA cell on which [pd.to_datetime] raises: text that does not
    parse. *)
Definition ilegivel (r : linha) : Prop :=
  exists s, DATA r = TextoData s /\ parse_data s = None.

(** [tabela_dias_trabalhados]; [None] where [pd.to_datetime] raises. *)
Definition tabela_dias_trabalhados (dados_filtrados : frame)
  : option (list linha_dias_trabalhados) :=
  match com_dia dados_filtrados with
  | None => None
  | Some df =>
      Some (map (fun g =>
                   {| Motorista := fst g;
                      Dias_Trabalhados := nunique (map DIA (snd g)) |})
                (groupby texto_compare chave_motorista_dia df))
  end.

(** Lines 319-333 of [grafico_heatmap_trabalho]: the matrix it returns
    beside the figure; [None] where [pd.to_datetime] raises. *)
Definition matriz_trabalho (dados_filtrados : frame) : option matriz :=
  match com_dia dados_filtrados with
  | None => None
  | Some df =>
      let tamanhos :=
        map (fun g => (fst g, List.length (snd g)))
            (groupby par_dia_compare chave_par_dia df) in
      Some (applymap (fun x => if (0 <? x)%Z then 1%Z else 0%Z)
              (unstack 0 tamanhos))
  end.

End Dias.


(* ================================================================== *)
(** * [gerar_nome_periodo] and the name of the exported file *)

(** A [datetime.date]. *)
Record date := {
  year : N;
  month : N;
  day : N
}.

(** What a dictionary lookup gives: the value, or [KeyError] with the
    key. *)
Inductive consulta (A : Type) :=
| Valor (a : A)
| KeyError (chave : N).

Arguments Valor {A} a.
Arguments KeyError {A} chave.

(** The dictionary [meses_pt], in the order it is written. *)
Definition meses_pt : list (N * texto) :=
  [ (1%N, txt "Janeiro"); (2%N, txt "Fevereiro"); (3%N, txt "Março");
    (4%N, txt "Abril"); (5%N, txt "Maio"); (6%N, txt "Junho");
    (7%N, txt "Julho"); (8%N, txt "Agosto"); (9%N, txt "Setembro");
    (10%N, txt "Outubro"); (11%N, txt "Novembro"); (12%N, txt "Dezembro") ].

(** [d[k]] on a dictionary with integer keys. *)
Fixpoint getitem (d : list (N * texto)) (k : N) : consulta texto :=
  match d with
  | [] => KeyError k
  | (k', v) :: d' => if (k' =? k)%N then Valor v else getitem d' k
  end.

(** The decimal digits of an unsigned numeral, as code points. *)
Fixpoint digitos (d : Decimal.uint) : texto :=
  match d with
  | Decimal.Nil => []
  | Decimal.D0 d' => 48%N :: digitos d'
  | Decimal.D1 d' => 49%N :: digitos d'
  | Decimal.D2 d' => 50%N :: digitos d'
  | Decimal.D3 d' => 51%N :: digitos d'
  | Decimal.D4 d' => 52%N :: digitos d'
  | Decimal.D5 d' => 53%N :: digitos d'
  | Decimal.D6 d' => 54%N :: digitos d'
  | Decimal.D7 d' => 55%N :: digitos d'
  | Decimal.D8 d' => 56%N :: digitos d'
  | Decimal.D9 d' => 57%N :: digitos d'
  end.

(** [str(n)], also what an f-string puts for [{n}], of an integer that is
    not negative. *)
Definition str_int (n : N) : texto := digitos (N.to_uint n).

Definition gerar_nome_periodo (data_ini data_fim : date) : consulta texto :=
  let dia_i := day data_ini in
  match getitem meses_pt (month data_ini) with
  | KeyError k => KeyError k
  | Valor mes_i =>
      let ano_i := year data_ini in
      let dia_f := day data_fim in
      match getitem meses_pt (month data_fim) with
      | KeyError k => KeyError k
      | Valor mes_f =>
          let ano_f := year data_fim in
          if (ano_i =? ano_f)%N then
            if texto_eqb mes_i mes_f then
              Valor (str_int dia_i ++ txt " a " ++ str_int dia_f ++ txt " de "
                     ++ mes_i ++ txt " de " ++ str_int ano_i)
            else
              Valor (str_int dia_i ++ txt " de " ++ mes_i ++ txt " a "
                     ++ str_int dia_f ++ txt " de " ++ mes_f ++ txt " de "
                     ++ str_int ano_i)
          else
            Valor (str_int dia_i ++ txt " de " ++ mes_i ++ txt " de "
                   ++ str_int ano_i ++ txt " a " ++ str_int dia_f ++ txt " de "
                   ++ mes_f ++ txt " de " ++ str_int ano_f)
      end
  end.

(** [str.replace(old, new)] where both are one character long. *)
Definition replace_char (old new : N) (s : texto) : texto :=
  map (fun c => if (c =? old)%N then new else c) s.

(** Lines 505-507: the name of the file offered for download. *)
Definition nome_arquivo_excel (nome_periodo : texto) : texto :=
  replace_char 32 95
    (txt "Bonus_Motoristas_Logarte_" ++ nome_periodo ++ txt ".xlsx").

(** The month of a [datetime.date] is one of the twelve. *)
Definition mes_valido (d : date) : Prop := (1 <= month d <= 12)%N.

(** A word: neither a space nor an underscore in it. *)
Definition sem_espaco (t : texto) : Prop :=
  Forall (fun c => c <> 32%N /\ c <> 95%N) t.

(** Words put side by side with one space between them. *)
Fixpoint juntar (palavras : list texto) : texto :=
  match palavras with
  | [] => []
  | [p] => p
  | p :: resto => p ++ 32%N :: juntar resto
  end.

(* ================================================================== *)
(** * [grafico_faturamento]: the series it plots *)

(** A row of [faturamento_por_dia] after [reset_index]. *)
Record ponto_faturamento := {
  f_DATA : Z;
  f_TOTAL : Q
}.

(** The group key of the DATA column: NaT is dropped. *)
Definition chave_data (r : linha) : option Z :=
  match DATA r with
  | Carimbo t => Some t
  | _ => None
  end.

Section Faturamento.

Variable parse_data : texto -> option Z.

(** The copy of the frame with DATA converted; [None] where the
    conversion raises. *)
Definition com_data (dados_filtrados : frame) : option frame :=
  match todos (map (fun r => to_datetime_raise parse_data (DATA r))
                   dados_filtrados) with
  | None => None
  | Some coluna =>
      Some (map (fun p =>
                   {| MOTORISTA := MOTORISTA (fst p);
                      CENTRO_DE_CUSTO := CENTRO_DE_CUSTO (fst p);
                      DATA := snd p;
                      QUANT := QUANT (fst p);
                      TOTAL := TOTAL (fst p) |})
                (combine dados_filtrados coluna))
  end.

(** Lines 274-279 of [grafico_faturamento]. *)
Definition faturamento_por_dia (dados_filtrados : frame)
  : option (list ponto_faturamento) :=
  match com_data dados_filtrados with
  | None => None
  | Some df =>
      Some (map (fun g => {| f_DATA := fst g;
                             f_TOTAL := soma (map TOTAL (snd g)) |})
                (groupby Z.compare chave_data df))
  end.

End Faturamento.

(* ================================================================== *)
(** * [carregar_arquivos] *)

Section Carregar.

(** The uploaded files and the exceptions [pd.read_excel] raises. *)
Variables (arquivo erro : Type).

(** [pd.read_excel] with the arguments of lines 72-78. *)
Variable read_excel : arquivo -> erro + frame.

(** How [carregar_arquivos] ends: with the frame, with the exception of
    a file (reported through [st.error] and raised again), or with the
    [ValueError] of line 84. *)
Inductive carga :=
| Carregado (df : frame)
| ErroAoLer (f : arquivo) (e : erro)
| NenhumDado.

(** The loop of lines 70-82, from the frames read so far. *)
Fixpoint ler_todos (files : list arquivo) (dfs : list frame)
  : (arquivo * erro) + list frame :=
  match files with
  | [] => inr dfs
  | f :: files' =>
      match read_excel f with
      | inr df => ler_todos files' (dfs ++ [df])
      | inl e => inl (f, e)
      end
  end.

(** [pd.concat(dfs, ignore_index=True)] is the rows of the frames, one
    frame after the other. *)
Definition carregar_arquivos (files : list arquivo) : carga :=
  match ler_todos files [] with
  | inl (f, e) => ErroAoLer f e
  | inr [] => NenhumDado
  | inr dfs => Carregado (List.concat dfs)
  end.

End Carregar.

(* ================================================================== *)
(** * The BÔNUS column in binary64 *)

Module F64.

Local Open Scope Z_scope.

Definition prec : Z := 53.
Definition emax : Z := 1024.

(** A float64: a signed zero, an infinity, NaN, or the finite number
    of sign [s], mantissa [m] and exponent [e], worth [m * 2^e]. *)
Definition float64 := spec_float.

(** A cell that comes from a file is a well-formed double. *)
Definition valido (x : float64) : bool := valid_binary prec emax x.

(** The product and the quotient of two doubles, rounded to the nearest
    double, ties to the even mantissa. *)
Definition mul : float64 -> float64 -> float64 := SFmul prec emax.
Definition div : float64 -> float64 -> float64 := SFdiv prec emax.

(** The double of an integer. *)
Definition of_Z (n : Z) : float64 := binary_normalize prec emax n 0 false.

(** The double that the decimal [n/d] denotes, as Python reads a
    literal: the double nearest to the quotient. *)
Definition dec (n d : Z) : float64 := div (of_Z n) (of_Z d).

(** The rational a double is worth (0 for what is not finite). *)
Definition valor (x : float64) : Q :=
  match x with
  | S754_finite s m e => inject_Z (cond_Zopp s (Zpos m)) * Qpower 2 e
  | _ => 0%Q
  end.

(** The double of the integer [n], a zero keeping the sign [s]. *)
Definition inteiro (s : bool) (n : Z) : float64 :=
  match n with
  | Z0 => S754_zero s
  | _ => of_Z n
  end.

(** The whole number nearest to a rational, ties to even. *)
Definition inteiro_proximo : Q -> Z := rint.

(** [numpy.rint] on a double: the nearest whole number, ties to even;
    a double of exponent 0 or more is whole already. *)
Definition rint (x : float64) : float64 :=
  match x with
  | S754_finite s m e =>
      if 0 <=? e then x else inteiro s (inteiro_proximo (valor x))
  | _ => x
  end.

(** What a shift record keeps of the number [X / (2 * H)]: its whole
    part, and in the two flags where the rest stands with respect to
    the half [H]. *)
Definition resto_shr (H X : Z) (mrs : shr_record) : Prop :=
  0 <= shr_m mrs
  /\ 0 <= X - shr_m mrs * (2 * H) < 2 * H
  /\ (shr_r mrs = true <-> H <= X - shr_m mrs * (2 * H))
  /\ (shr_s mrs = true
      <-> X - shr_m mrs * (2 * H) <> 0 /\ X - shr_m mrs * (2 * H) <> H).

Definition zero : float64 := of_Z 0.
Definition um : float64 := of_Z 1.
Definition cem : float64 := of_Z 100.
Definition dois_centesimos : float64 := dec 2 100.

(** [ndarray.round(2)] on one double: times [10 ** 2], [rint], divided
    by [10 ** 2]. *)
Definition round2 (x : float64) : float64 := div (rint (mul x cem)) cem.

(** The columns that lines 128-137 read, on one row. *)
Record linha := {
  CENTRO_DE_CUSTO : option texto;
  QUANT : float64;
  TOTAL : float64
}.

(** [np.select] at one position. *)
Fixpoint escolhe (conds : list bool) (escolhas : list float64)
    (default : float64) : float64 :=
  match conds, escolhas with
  | c :: conds', x :: escolhas' =>
      if c then x else escolhe conds' escolhas' default
  | _, _ => default
  end.

(** [np.select(condlist, choicelist, default)] over columns of [n] rows. *)
Definition np_select (condlist : list (list bool))
    (choicelist : list (list float64)) (default : float64) (n : nat)
  : list float64 :=
  map (fun i =>
         escolhe (map (fun c => nth i c false) condlist)
                 (map (fun x => nth i x S754_nan) choicelist)
                 default)
      (seq 0 n).

(** Lines 128-137: the BÔNUS column. *)
Definition coluna_bonus (dados_filtrados : list linha) : list float64 :=
  let conditions :=
    [ map (fun r => isin [FRETE_BRITA; AREIA] (CENTRO_DE_CUSTO r)) dados_filtrados;
      map (fun r => isin [FRETE_CIMENTO; FRETE_ADITIVO] (CENTRO_DE_CUSTO r))
          dados_filtrados ] in
  let calculos :=
    [ map (fun r => mul (QUANT r) um) dados_filtrados;
      map (fun r => mul (TOTAL r) dois_centesimos) dados_filtrados ] in
  map round2
      (np_select conditions calculos zero (List.length dados_filtrados)).

(** What lines 128-137 compute at one row. *)
Definition bonus_da_linha (r : linha) : float64 :=
  round2
    (escolhe [ isin [FRETE_BRITA; AREIA] (CENTRO_DE_CUSTO r);
               isin [FRETE_CIMENTO; FRETE_ADITIVO] (CENTRO_DE_CUSTO r) ]
             [ mul (QUANT r) um; mul (TOTAL r) dois_centesimos ]
             zero).

End F64.

(* ================================================================== *)
(** * Sample frames *)

(** No text date is parsed in the samples. *)
Definition sem_parse (s : texto) : option Z := None.

(** Days are counted from 1970-01-01: 19723 is 2024-01-01. *)
Definition linha_areia : linha :=
  {| MOTORISTA := Some (txt "JOÃO");
     CENTRO_DE_CUSTO := Some AREIA;
     DATA := Carimbo (to_datetime_date 19727);
     QUANT := Some 10;
     TOTAL := Some 500 |}.

Definition linha_cimento : linha :=
  {| MOTORISTA := Some (txt "joão");
     CENTRO_DE_CUSTO := Some FRETE_CIMENTO;
     DATA := Carimbo (to_datetime_date 19728);
     QUANT := None;
     TOTAL := Some 1000 |}.

Definition linha_sem_motorista : linha :=
  {| MOTORISTA := None;
     CENTRO_DE_CUSTO := Some AREIA;
     DATA := Carimbo (to_datetime_date 19727);
     QUANT := Some 7;
     TOTAL := Some 100 |}.

Definition linha_data_ilegivel : linha :=
  {| MOTORISTA := Some (txt " vinicius ");
     CENTRO_DE_CUSTO := Some AREIA;
     DATA := TextoData (txt "sem data");
     QUANT := Some 7;
     TOTAL := Some 100 |}.

Definition linha_marcos : linha :=
  {| MOTORISTA := Some (txt "MARCOS NASCIMENTO NASCIMENTO");
     CENTRO_DE_CUSTO := Some AREIA;
     DATA := Carimbo (to_datetime_date 19727);
     QUANT := Some 7;
     TOTAL := Some 100 |}.

(** A trip of 2024-01-06 stamped at ten in the morning. *)
Definition linha_dez_horas : linha :=
  {| MOTORISTA := Some (txt "JOÃO");
     CENTRO_DE_CUSTO := Some AREIA;
     DATA := Carimbo 1704535200000000000;
     QUANT := Some 5;
     TOTAL := Some 250 |}.

(** The two trips of 2024-01-05 and 2024-01-06. *)
Definition viagens_exemplo : frame := [linha_areia; linha_cimento].

Definition dia_5_jan : date := {| year := 2024; month := 1; day := 5 |}.
Definition dia_6_jan : date := {| year := 2024; month := 1; day := 6 |}.
Definition dia_3_mar : date := {| year := 2024; month := 3; day := 3 |}.
Definition dia_2_fev_25 : date := {| year := 2025; month := 2; day := 2 |}.

(* ================================================================== *)
(** * Rounding and sums *)

Lemma rint_comp (x y : Q) : x == y -> rint x = rint y.
Proof.
  intros E. unfold rint.
  rewrite (Qfloor_comp _ _ E).
  assert (E' : x - inject_Z (Qfloor y) == y - inject_Z (Qfloor y))
    by (rewrite E; reflexivity).
  rewrite (Qcompare_comp _ _ E' (1 # 2) (1 # 2) (Qeq_refl _)).
  reflexivity.
Qed.


#[local] Instance round2_comp : Proper (Qeq ==> Qeq) round2.
Proof.
  intros x y E. unfold round2.
  rewrite (rint_comp (x := x * 100) (y := y * 100)); [reflexivity|].
  rewrite E. reflexivity.
Qed.




Lemma centavos_comp (a b : Q) : a == b -> centavos a -> centavos b.
Proof. intros E [x Hx]. exists x. rewrite <- E. exact Hx. Qed.




Lemma soma_app (a b : list (option Q)) : soma (a ++ b) == soma a + soma b.
Proof.
  induction a as [|c a IH]; simpl.
  - ring.
  - destruct c; rewrite IH; ring.
Qed.

Lemma soma_Q_ext (A : Type) (f g : A -> Q) (l : list A) :
  (forall x, In x l -> f x == g x) ->
  soma_Q (map f l) == soma_Q (map g l).
Proof.
  induction l as [|a l IH]; simpl; intros H.
  - reflexivity.
  - rewrite (H a (or_introl eq_refl)), IH; [reflexivity|].
    intros x Hx. apply H. now right.
Qed.

Lemma soma_Q_plus (A : Type) (f g : A -> Q) (l : list A) :
  soma_Q (map (fun x => f x + g x) l) == soma_Q (map f l) + soma_Q (map g l).
Proof.
  induction l as [|a l IH]; simpl.
  - ring.
  - rewrite IH. ring.
Qed.

Lemma soma_Q_zero (A : Type) (f : A -> Q) (l : list A) :
  (forall x, In x l -> f x == 0) -> soma_Q (map f l) == 0.
Proof.
  induction l as [|a l IH]; simpl; intros H.
  - reflexivity.
  - rewrite (H a (or_introl eq_refl)), IH; [ring|].
    intros x Hx. apply H. now right.
Qed.


Lemma soma_filter_nulo (A : Type) (f : A -> option Q) (p q : A -> bool)
    (l : list A) :
  (forall r, In r l -> p r <> q r -> nulo (f r)) ->
  soma (map f (filter p l)) == soma (map f (filter q l)).
Proof.
  induction l as [|a l IH]; simpl; intros H; [reflexivity|].
  assert (IH' : soma (map f (filter p l)) == soma (map f (filter q l)))
    by (apply IH; intros r Hr; apply H; now right).
  specialize (H a (or_introl eq_refl)).
  destruct (p a) eqn:Ep, (q a) eqn:Eq; simpl.
  - destruct (f a); rewrite IH'; reflexivity.
  - assert (Hn : nulo (f a)) by (apply H; discriminate).
    unfold nulo in Hn. destruct (f a); rewrite IH'; [rewrite Hn; ring|reflexivity].
  - assert (Hn : nulo (f a)) by (apply H; discriminate).
    unfold nulo in Hn. destruct (f a); rewrite IH'; [rewrite Hn; ring|reflexivity].
  - exact IH'.
Qed.

Lemma filter_true_nulo (A : Type) (f : A -> option Q) (p : A -> bool)
    (l : list A) :
  (forall r, In r l -> p r = false -> nulo (f r)) ->
  soma (map f (filter p l)) == soma (map f l).
Proof.
  intros H.
  rewrite (@soma_filter_nulo A f p (fun _ => true) l).
  - now rewrite filter_true.
  - intros r Hr Hp. apply H; [exact Hr|]. destruct (p r); congruence.
Qed.

(* ================================================================== *)
(** * The order on keys *)

Lemma texto_eqb_eq (a b : texto) : texto_eqb a b = true <-> a = b.
Proof.
  unfold texto_eqb. destruct (list_eq_dec N.eq_dec a b); split; congruence.
Qed.

Lemma texto_eqb_refl (a : texto) : texto_eqb a a = true.
Proof. now apply texto_eqb_eq. Qed.

Lemma texto_eqb_neq (a b : texto) : texto_eqb a b = false <-> a <> b.
Proof.
  unfold texto_eqb. destruct (list_eq_dec N.eq_dec a b); split; congruence.
Qed.

Lemma texto_compare_eq (a b : texto) : texto_compare a b = Eq <-> a = b.
Proof.
  revert b. induction a as [|x a IH]; intros [|y b]; simpl;
    try (split; [discriminate|congruence]); try tauto.
  destruct (N.compare_spec x y) as [E|L|L].
  - subst. rewrite IH. split; congruence.
  - split; [discriminate|]. intros E. inversion E. lia.
  - split; [discriminate|]. intros E. inversion E. lia.
Qed.

Lemma texto_compare_antisym (a b : texto) :
  texto_compare a b = CompOpp (texto_compare b a).
Proof.
  revert b. induction a as [|x a IH]; intros [|y b]; simpl; try reflexivity.
  rewrite (N.compare_antisym y x).
  destruct (y ?= x)%N; simpl; auto.
Qed.

Lemma texto_compare_trans (a b c : texto) :
  texto_compare a b = Lt -> texto_compare b c = Lt -> texto_compare a c = Lt.
Proof.
  revert b c. induction a as [|x a IH]; intros [|y b] [|z c]; simpl;
    try discriminate; try reflexivity.
  destruct (N.compare_spec x y) as [E|L|L]; try discriminate;
    destruct (N.compare_spec y z) as [E'|L'|L']; try discriminate.
  - subst. rewrite N.compare_refl. apply IH.
  - subst. intros _ _. apply N.compare_lt_iff in L'. now rewrite L'.
  - subst. intros _ _. apply N.compare_lt_iff in L. now rewrite L.
  - intros _ _. assert (x < z)%N as Hxz by lia.
    apply N.compare_lt_iff in Hxz. now rewrite Hxz.
Qed.

Lemma par_compare_eq (a b : texto * texto) : par_compare a b = Eq <-> a = b.
Proof.
  destruct a as [a1 a2], b as [b1 b2]. unfold par_compare. simpl.
  destruct (texto_compare a1 b1) eqn:E1.
  - apply texto_compare_eq in E1. subst.
    rewrite texto_compare_eq. split; congruence.
  - split; [discriminate|]. intros E. inversion E; subst.
    rewrite (proj2 (texto_compare_eq b1 b1) eq_refl) in E1. discriminate.
  - split; [discriminate|]. intros E. inversion E; subst.
    rewrite (proj2 (texto_compare_eq b1 b1) eq_refl) in E1. discriminate.
Qed.

Lemma par_compare_antisym (a b : texto * texto) :
  par_compare a b = CompOpp (par_compare b a).
Proof.
  destruct a as [a1 a2], b as [b1 b2]. unfold par_compare. simpl.
  rewrite (texto_compare_antisym a1 b1).
  destruct (texto_compare b1 a1); simpl; auto using texto_compare_antisym.
Qed.

Lemma par_compare_trans (a b c : texto * texto) :
  par_compare a b = Lt -> par_compare b c = Lt -> par_compare a c = Lt.
Proof.
  destruct a as [a1 a2], b as [b1 b2], c as [c1 c2]. unfold par_compare. simpl.
  destruct (texto_compare a1 b1) eqn:E1; try discriminate.
  - apply texto_compare_eq in E1. subst b1.
    destruct (texto_compare a1 c1); try discriminate; auto.
    apply texto_compare_trans.
  - intros _. destruct (texto_compare b1 c1) eqn:E2; try discriminate.
    + apply texto_compare_eq in E2. subst c1. now rewrite E1.
    + intros _. now rewrite (texto_compare_trans _ _ _ E1 E2).
Qed.

Lemma par_eqb_eq (a b : texto * texto) : par_eqb a b = true <-> a = b.
Proof.
  destruct a, b. unfold par_eqb. simpl.
  rewrite andb_true_iff, !texto_eqb_eq. split; [intros []|intros E; inversion E]; subst; auto.
Qed.

(* ================================================================== *)
(** * [groupby]: keys and partition of the rows *)

Section GroupByFacts.

Variables (R K : Type).
Variable cmp : K -> K -> comparison.
Variable chave : R -> option K.

Hypothesis cmp_eq : forall a b, cmp a b = Eq <-> a = b.
Hypothesis cmp_antisym : forall a b, cmp a b = CompOpp (cmp b a).
Hypothesis cmp_trans : forall a b c, cmp a b = Lt -> cmp b c = Lt -> cmp a c = Lt.

Let menor (a b : K) : Prop := cmp a b = Lt.

Lemma mesma_eq (a b : K) : mesma cmp a b = true <-> a = b.
Proof.
  unfold mesma. rewrite <- cmp_eq. destruct (cmp a b); split; congruence.
Qed.

Lemma mesma_refl (a : K) : mesma cmp a a = true.
Proof. now apply mesma_eq. Qed.

Lemma In_insere (k x : K) (l : list K) :
  In x (insere cmp k l) <-> x = k \/ In x l.
Proof.
  induction l as [|y l IH]; simpl.
  - intuition.
  - destruct (cmp k y) eqn:E; simpl.
    + apply cmp_eq in E. subst. intuition.
    + intuition.
    + rewrite IH. intuition.
Qed.

Lemma insere_sorted (k : K) (l : list K) :
  StronglySorted menor l -> StronglySorted menor (insere cmp k l).
Proof.
  induction 1 as [|y l Hs IH Hy]; simpl.
  - constructor; constructor.
  - destruct (cmp k y) eqn:E.
    + now constructor.
    + constructor; [now constructor|].
      constructor; [exact E|].
      rewrite Forall_forall in *. intros z Hz.
      exact (cmp_trans E (Hy z Hz)).
    + constructor; [exact IH|].
      rewrite Forall_forall in *. intros z Hz.
      apply In_insere in Hz. destruct Hz as [->|Hz]; [|now apply Hy].
      unfold menor. rewrite cmp_antisym, E. reflexivity.
Qed.

Lemma sorted_NoDup (l : list K) : StronglySorted menor l -> NoDup l.
Proof.
  induction 1 as [|y l Hs IH Hy]; constructor; [|exact IH].
  intros Hin. rewrite Forall_forall in Hy. specialize (Hy y Hin).
  unfold menor in Hy. rewrite (proj2 (cmp_eq y y) eq_refl) in Hy. discriminate.
Qed.

Lemma chaves_sorted (df : list R) : StronglySorted menor (chaves cmp chave df).
Proof.
  unfold chaves.
  induction (flat_map (fun r => match chave r with Some k => [k] | None => [] end) df);
    simpl; [constructor | now apply insere_sorted].
Qed.

Lemma chaves_NoDup (df : list R) : NoDup (chaves cmp chave df).
Proof. apply sorted_NoDup, chaves_sorted. Qed.

Lemma In_chaves (df : list R) (k : K) :
  In k (chaves cmp chave df) <-> exists r, In r df /\ chave r = Some k.
Proof.
  unfold chaves.
  assert (H : forall l, In k (fold_right (insere cmp) [] l) <-> In k l).
  { induction l as [|a l IH]; simpl; [tauto|].
    rewrite In_insere, IH. intuition. }
  rewrite H, in_flat_map. split.
  - intros (r & Hr & Hk). exists r. split; [exact Hr|].
    destruct (chave r); simpl in Hk; [|tauto]. destruct Hk as [->|[]]. reflexivity.
  - intros (r & Hr & Hk). exists r. split; [exact Hr|]. rewrite Hk. now left.
Qed.

Lemma In_grupo (df : list R) (k : K) (r : R) :
  In r (grupo cmp chave df k) <-> In r df /\ chave r = Some k.
Proof.
  unfold grupo, no_grupo. rewrite filter_In.
  destruct (chave r) as [k'|].
  - rewrite mesma_eq. intuition congruence.
  - intuition congruence.
Qed.

(** Exactly one key of a duplicate-free list is the key of a row. *)
Lemma soma_Q_unica (ks : list K) (k0 : K) (v : Q) :
  NoDup ks -> In k0 ks ->
  soma_Q (map (fun k => if mesma cmp k0 k then v else 0) ks) == v.
Proof.
  induction 1 as [|k ks Hk Hnd IH]; simpl; [tauto|].
  intros [->|Hin].
  - rewrite mesma_refl, soma_Q_zero; [ring|].
    intros x Hx. destruct (mesma cmp k0 x) eqn:E; [|reflexivity].
    apply mesma_eq in E. subst. contradiction.
  - rewrite (IH Hin). destruct (mesma cmp k0 k) eqn:E; [|ring].
    apply mesma_eq in E. subst. contradiction.
Qed.

(** The groups of a duplicate-free list of keys partition the rows that
    carry one of those keys: summing group by group loses nothing. *)
Lemma soma_particao (f : R -> option Q) (ks : list K) (df : list R) :
  NoDup ks ->
  soma_Q (map (fun k => soma (map f (grupo cmp chave df k))) ks)
  == soma (map f (filter (tem_chave cmp chave ks) df)).
Proof.
  intros Hnd. induction df as [|r df IH]; simpl.
  - apply soma_Q_zero. reflexivity.
  - set (v := match f r with Some q => q | None => 0 end).
    assert (E : soma_Q (map (fun k => soma (map f (grupo cmp chave (r :: df) k))) ks)
                == soma_Q (map (fun k => if no_grupo cmp chave k r then v else 0) ks)
                   + soma_Q (map (fun k => soma (map f (grupo cmp chave df k))) ks)).
    { rewrite <- soma_Q_plus. apply soma_Q_ext. intros k _.
      unfold grupo. simpl. destruct (no_grupo cmp chave k r); simpl.
      - unfold v. destruct (f r); ring.
      - ring. }
    rewrite E, IH. clear E IH.
    assert (Hv : soma_Q (map (fun k => if no_grupo cmp chave k r then v else 0) ks)
                 == if tem_chave cmp chave ks r then v else 0).
    { unfold tem_chave, no_grupo. destruct (chave r) as [k0|].
      - destruct (existsb (mesma cmp k0) ks) eqn:Ex.
        + apply existsb_exists in Ex. destruct Ex as (k & Hk & Hm).
          apply mesma_eq in Hm. subst k.
          exact (@soma_Q_unica ks k0 v Hnd Hk).
        + apply soma_Q_zero. intros k Hk.
          destruct (mesma cmp k0 k) eqn:Hm; [|reflexivity].
          assert (existsb (mesma cmp k0) ks = true)
            by (apply existsb_exists; eauto).
          congruence.
      - apply soma_Q_zero. reflexivity. }
    rewrite Hv.
    destruct (tem_chave cmp chave ks r); simpl; unfold v; destruct (f r); ring.
Qed.

Lemma tem_chave_chaves (df : list R) (r : R) :
  In r df ->
  tem_chave cmp chave (chaves cmp chave df) r
  = match chave r with Some _ => true | None => false end.
Proof.
  intros Hr. unfold tem_chave. destruct (chave r) as [k|] eqn:E; [|reflexivity].
  apply existsb_exists. exists k. split; [|apply mesma_refl].
  apply In_chaves. eauto.
Qed.

(** Summing group by group over all the keys of the frame gives the sum
    over the frame, as long as the rows without a key add nothing. *)
Lemma soma_grupos (f : R -> option Q) (df : list R) :
  (forall r, In r df -> chave r = None -> nulo (f r)) ->
  soma_Q (map (fun k => soma (map f (grupo cmp chave df k))) (chaves cmp chave df))
  == soma (map f df).
Proof.
  intros H. rewrite soma_particao by apply chaves_NoDup.
  rewrite <- (filter_true_nulo f (tem_chave cmp chave (chaves cmp chave df)) df).
  - reflexivity.
  - intros r Hr Hf. rewrite (@tem_chave_chaves df r Hr) in Hf.
    destruct (chave r) eqn:E; [discriminate|]. now apply H.
Qed.

End GroupByFacts.

(* ================================================================== *)
(** * Sorting by a column *)

Section SortFacts.

Variable R : Type.
Variable col : R -> Q.

Lemma insere_desc_perm (x : R) (l : list R) :
  Permutation (insere_desc col x l) (x :: l).
Proof.
  induction l as [|y l IH]; simpl.
  - reflexivity.
  - destruct (Qle_bool (col y) (col x)); [reflexivity|].
    rewrite IH. apply perm_swap.
Qed.

Lemma sort_values_desc_perm (l : list R) : Permutation (sort_values_desc col l) l.
Proof.
  induction l as [|x l IH]; simpl.
  - reflexivity.
  - rewrite insere_desc_perm. now constructor.
Qed.

Lemma In_sort_values_desc (l : list R) (x : R) :
  In x (sort_values_desc col l) <-> In x l.
Proof.
  split; apply Permutation_in;
    [apply sort_values_desc_perm | symmetry; apply sort_values_desc_perm].
Qed.


End SortFacts.

(* ================================================================== *)
(** * The BÔNUS column, row by row *)

Lemma np_select_linhas (df : frame) (c1 c2 : linha -> bool)
    (x1 x2 : linha -> option Q) (d : Q) :
  np_select [map c1 df; map c2 df] [map x1 df; map x2 df] d (List.length df)
  = map (fun r => escolhe [c1 r; c2 r] [x1 r; x2 r] (Some d)) df.
Proof.
  unfold np_select. induction df as [|r df IH]; simpl.
  - reflexivity.
  - f_equal. rewrite <- seq_shift, map_map. exact IH.
Qed.

Lemma coluna_bonus_map (df : frame) : coluna_bonus df = map bonus_da_linha df.
Proof.
  unfold coluna_bonus. rewrite np_select_linhas, map_map. reflexivity.
Qed.

Lemma com_bonus_map (df : frame) :
  com_bonus df = map (fun r => {| base := r; BONUS := bonus_da_linha r |}) df.
Proof.
  unfold com_bonus. rewrite coluna_bonus_map.
  induction df as [|r df IH]; simpl; [reflexivity|]. now rewrite IH.
Qed.




Lemma BONUS_com_bonus (df : frame) (r : registro) :
  In r (com_bonus df) -> BONUS r = bonus_da_linha (base r) /\ In (base r) df.
Proof.
  rewrite com_bonus_map, in_map_iff. intros (x & <- & Hx). simpl. auto.
Qed.

(* ================================================================== *)
(** * The cleaning step *)

Section LimparFacts.

Variable parse_data : texto -> option Z.

Lemma atribuicoes (dados : frame) :
  atribui_MOTORISTA (atribui_DATA parse_data dados) = map (normaliza_linha parse_data) dados.
Proof.
  unfold atribui_MOTORISTA, atribui_DATA. rewrite map_map. reflexivity.
Qed.

(** What is left after [dropna] and the date mask. *)
Lemma limpar_casos (dados : frame) (ini fim : Z) :
  let restantes :=
    filter (mask (to_datetime_date ini) (to_datetime_date fim))
           (dropna (map (normaliza_linha parse_data) dados)) in
  limpar_e_filtrar_dados parse_data dados ini fim =
  (map (normaliza_linha parse_data) dados,
   match restantes with
   | [] => Levanta (ValueError msg_vazio)
   | _ :: _ => Retorna restantes
   end).
Proof.
  simpl. unfold limpar_e_filtrar_dados. rewrite atribuicoes.
  destruct (filter _ _); reflexivity.
Qed.

Lemma devolvidos_limpar (dados : frame) (ini fim : Z) :
  devolvidos (snd (limpar_e_filtrar_dados parse_data dados ini fim)) =
  filter (mask (to_datetime_date ini) (to_datetime_date fim))
         (dropna (map (normaliza_linha parse_data) dados)).
Proof.
  rewrite limpar_casos. simpl. destruct (filter _ _); reflexivity.
Qed.

Lemma In_devolvidos (dados : frame) (ini fim : Z) (x : linha) :
  In x (devolvidos (snd (limpar_e_filtrar_dados parse_data dados ini fim))) <->
  exists r t, In r dados /\ x = normaliza_linha parse_data r /\
              to_datetime_coerce parse_data (DATA r) = Carimbo t /\
              (to_datetime_date ini <= t <= to_datetime_date fim)%Z.
Proof.
  rewrite devolvidos_limpar, filter_In. unfold dropna.
  rewrite filter_In, in_map_iff. unfold mask. split.
  - intros [[(r & <- & Hr) _] Hm]. simpl in Hm.
    destruct (to_datetime_coerce parse_data (DATA r)) as [t| |] eqn:E;
      try discriminate.
    exists r, t. repeat split; auto; lia.
  - intros (r & t & Hr & -> & E & Ht). simpl. rewrite E. simpl.
    repeat split; eauto. lia.
Qed.


End LimparFacts.

(** C5. The date filter compares time stamps with midnight of the two
    days: a row whose date parses is handed back exactly when its time
    stamp lies between midnight of the first day and midnight of the last
    day. So a row of the last day is handed back only when it is stamped
    at midnight itself, and every later hour of that day is cut off,
    although the day is inside the range; the first day is kept whole and
    the days outside the range are removed. *)
Theorem filtro_corta_o_ultimo_dia (parse_data : texto -> option Z)
    (dados : frame) (ini fim : Z) (r : linha) (t : Z) :
  In r dados ->
  to_datetime_coerce parse_data (DATA r) = Carimbo t ->
  let saida := devolvidos (snd (limpar_e_filtrar_dados parse_data dados ini fim)) in
  (In (normaliza_linha parse_data r) saida
   <-> (86400000000000 * ini <= t <= 86400000000000 * fim)%Z)
  /\ ((t / 86400000000000 = fim)%Z ->
      (In (normaliza_linha parse_data r) saida
       <-> (ini <= fim)%Z /\ t = (86400000000000 * fim)%Z))
  /\ ((t / 86400000000000 = ini)%Z -> (ini < fim)%Z ->
      In (normaliza_linha parse_data r) saida)
  /\ ((t / 86400000000000 < ini)%Z \/ (fim < t / 86400000000000)%Z ->
      ~ In (normaliza_linha parse_data r) saida).
Proof.
  intros Hr Ht saida.
  assert (Hiff : In (normaliza_linha parse_data r) saida
                 <-> (86400000000000 * ini <= t <= 86400000000000 * fim)%Z).
  { unfold saida. rewrite In_devolvidos. unfold to_datetime_date.
    rewrite !(Z.mul_comm 86400000000000). split.
    - intros (r' & t' & _ & E & Ht' & Hin).
      assert (Carimbo t = Carimbo t') as Ett.
      { rewrite <- Ht, <- Ht'.
        change (DATA (normaliza_linha parse_data r)
                = DATA (normaliza_linha parse_data r')).
        now rewrite E. }
      inversion Ett. subst. exact Hin.
    - intros Hin. exists r, t. auto. }
  assert (Hd : (86400000000000 * (t / 86400000000000) <= t
                < 86400000000000 * (t / 86400000000000) + 86400000000000)%Z).
  { pose proof (Z.div_mod t 86400000000000) as E.
    pose proof (Z.mod_pos_bound t 86400000000000) as B. lia. }
  split; [exact Hiff|]. rewrite Hiff.
  split; [|split]; intros; lia.
Qed.

Lemma filtro_corta_o_ultimo_dia_witness :
  In linha_dez_horas [linha_areia; linha_dez_horas]
  /\ to_datetime_coerce sem_parse (DATA linha_dez_horas)
     = Carimbo 1704535200000000000
  /\ (1704535200000000000 / 86400000000000 = 19728)%Z
  /\ ~ In (normaliza_linha sem_parse linha_dez_horas)
          (devolvidos
             (snd (limpar_e_filtrar_dados sem_parse
                     [linha_areia; linha_dez_horas] 19723 19728))).
Proof.
  assert (H : In linha_dez_horas [linha_areia; linha_dez_horas])
    by (right; left; reflexivity).
  split; [exact H|]. split; [reflexivity|]. split; [reflexivity|].
  intros Hin.
  apply (proj1 (proj2 (@filtro_corta_o_ultimo_dia sem_parse
                         [linha_areia; linha_dez_horas] 19723 19728
                         linha_dez_horas 1704535200000000000 H eq_refl))
               eq_refl) in Hin.
  destruct Hin as [_ Hin]. discriminate Hin.
Defined.

(** C5, at a range that ends on 2024-01-06: of the two trips of the range
    the one stamped at ten o'clock of the last day is not handed back. *)
Example ultimo_dia_cortado :
  snd (limpar_e_filtrar_dados sem_parse [linha_areia; linha_dez_horas] 19723 19728)
  = Retorna [linha_areia].
Proof. vm_compute. reflexivity. Qed.

(** C6. The cleaning step raises exactly when no row is left after
    [dropna] and the date mask; the report then raises the same error and
    holds no table; when a row is left the step returns the rows left and
    the report holds their tables. *)
Theorem erro_sse_vazio (parse_data : texto -> option Z) (dados : frame)
    (ini fim : Z) :
  let restantes :=
    filter (mask (to_datetime_date ini) (to_datetime_date fim))
           (dropna (map (normaliza_linha parse_data) dados)) in
  ((exists e, snd (limpar_e_filtrar_dados parse_data dados ini fim) = Levanta e)
   <-> restantes = [])
  /\ (restantes = [] ->
      snd (limpar_e_filtrar_dados parse_data dados ini fim)
      = Levanta (ValueError msg_vazio)
      /\ snd (relatorio parse_data dados ini fim)
         = Levanta (ValueError msg_vazio))
  /\ (restantes <> [] ->
      snd (limpar_e_filtrar_dados parse_data dados ini fim) = Retorna restantes
      /\ snd (relatorio parse_data dados ini fim)
         = Retorna (restantes, calcular_bonus restantes)).
Proof.
  intros restantes. unfold relatorio.
  rewrite limpar_casos. fold restantes. simpl.
  destruct restantes as [|x l]; simpl.
  - split; [split; eauto|]. split; [auto|congruence].
  - split; [split; [intros [e He]; discriminate|discriminate]|].
    split; [discriminate|auto].
Qed.

Lemma erro_sse_vazio_witness :
  snd (limpar_e_filtrar_dados sem_parse [linha_areia] 19000 19001)
  = Levanta (ValueError msg_vazio)
  /\ snd (relatorio sem_parse [linha_areia] 19000 19001)
     = Levanta (ValueError msg_vazio).
Proof.
  apply (proj1 (proj2 (@erro_sse_vazio sem_parse [linha_areia] 19000 19001))).
  reflexivity.
Defined.

(** C9, at a call that raises: both rows are out of the range, yet the
    caller's frame has been rewritten. *)
Example quadro_reescrito_no_erro :
  limpar_e_filtrar_dados sem_parse [linha_data_ilegivel; linha_cimento] 19000 19001
  = ([ {| MOTORISTA := Some (txt "VINÍCIUS");
          CENTRO_DE_CUSTO := Some AREIA;
          DATA := NaT;
          QUANT := Some 7;
          TOTAL := Some 100 |};
       {| MOTORISTA := Some (txt "JOÃO");
          CENTRO_DE_CUSTO := Some FRETE_CIMENTO;
          DATA := Carimbo (to_datetime_date 19728);
          QUANT := None;
          TOTAL := Some 1000 |} ],
     Levanta (ValueError msg_vazio)).
Proof. vm_compute. reflexivity. Qed.

(** A missing driver never drops a row: with a date that parses and lies
    in the range, the row is handed back under the name NAN. *)
Lemma sem_motorista_nao_cai (parse_data : texto -> option Z) (dados : frame)
    (ini fim : Z) (r : linha) (t : Z) :
  In r dados ->
  MOTORISTA r = None ->
  to_datetime_coerce parse_data (DATA r) = Carimbo t ->
  (to_datetime_date ini <= t <= to_datetime_date fim)%Z ->
  In (normaliza_linha parse_data r)
     (devolvidos (snd (limpar_e_filtrar_dados parse_data dados ini fim)))
  /\ MOTORISTA (normaliza_linha parse_data r) = Some (txt "NAN").
Proof.
  intros Hr Hm Ht Hin. split.
  - apply In_devolvidos. exists r, t. auto.
  - simpl. rewrite Hm. reflexivity.
Qed.

(** C1, on the code: a row whose MOTORISTA cell is missing is not
    dropped. [astype(str)] has turned the missing value into the text
    [nan] before [dropna] looks at the column, so the row comes back under
    the driver name NAN and has its line in every summary table. *)
Theorem motorista_ausente_permanece :
  MOTORISTA linha_sem_motorista = None
  /\ devolvidos
       (snd (limpar_e_filtrar_dados sem_parse [linha_sem_motorista] 19723 19753))
     = [ {| MOTORISTA := Some (txt "NAN");
            CENTRO_DE_CUSTO := Some AREIA;
            DATA := Carimbo (to_datetime_date 19727);
            QUANT := Some 7;
            TOTAL := Some 100 |} ]
  /\ (exists dados tabs,
        snd (relatorio sem_parse [linha_sem_motorista] 19723 19753)
        = Retorna (dados, tabs)
        /\ map m_MOTORISTA (bonus_motorista tabs) = [txt "NAN"]
        /\ map indice (tabela tabs) = [(txt "NAN", AREIA)]
        /\ Forall (fun x => m_BONUS x == 7) (bonus_motorista tabs)).
Proof.
  split; [reflexivity|]. split; [vm_compute; reflexivity|].
  eexists. eexists. split; [vm_compute; reflexivity|].
  split; [reflexivity|]. split; [reflexivity|].
  constructor; [reflexivity|constructor].
Qed.

(* ================================================================== *)
(** * The summary tables *)





(** ** The detailed table *)

Lemma poe_poe (v v' : option Q) (r : linha_tabela) :
  poe_BONUS_TOTAL v' (poe_BONUS_TOTAL v r) = poe_BONUS_TOTAL v' r.
Proof. reflexivity. Qed.




Lemma In_bonus_motorista (df : frame) (y : linha_motorista) :
  In y (bonus_motorista (calcular_bonus df)) <->
  exists k,
    In k (chaves texto_compare chave_motorista (com_bonus df))
    /\ y = agg_motorista (k, grupo texto_compare chave_motorista (com_bonus df) k).
Proof.
  unfold calcular_bonus. simpl. unfold agrega_motorista, groupby.
  rewrite In_sort_values_desc, map_map, in_map_iff.
  split; intros (k & H1 & H2); exists k; auto.
Qed.





(** ** The rows of one driver in the detailed table *)

Lemma filter_map_motorista (g : linha_tabela -> linha_tabela) (d : texto)
    (l : list linha_tabela) :
  (forall r, t_MOTORISTA (g r) = t_MOTORISTA r) ->
  filter (do_motorista d) (map g l) = map g (filter (do_motorista d) l).
Proof.
  intros H. rewrite filter_map_swap. f_equal. apply filter_ext.
  intros r. unfold do_motorista. now rewrite H.
Qed.

Lemma NoDup_map_filter (A B : Type) (rotulo : A -> B) (manter : A -> bool)
    (linhas : list A) :
  NoDup (map rotulo linhas) -> NoDup (map rotulo (filter manter linhas)).
Proof.
  induction linhas as [|a resto IH]; simpl; intros H; [constructor|].
  inversion H as [|? ? Hn Hd]; subst.
  destruct (manter a); simpl; [|auto].
  constructor; [|auto].
  intros Hin. apply Hn. apply in_map_iff in Hin.
  destruct Hin as (x & E & Hx). apply filter_In in Hx.
  apply in_map_iff. exists x. tauto.
Qed.

Lemma sorted_filter_head (A B : Type) (lt : B -> B -> Prop) (f : A -> B)
    (p : A -> bool) (l : list A) (a : A) (rest : list A) :
  StronglySorted lt (map f l) ->
  filter p l = a :: rest ->
  Forall (fun r => lt (f a) (f r)) rest.
Proof.
  induction l as [|x l IH]; simpl; intros Hs E; [discriminate|].
  inversion Hs as [|? ? Hs' Hx]; subst.
  destruct (p x).
  - inversion E; subst. apply Forall_forall. intros r Hr.
    apply filter_In in Hr. rewrite Forall_forall in Hx.
    apply Hx, in_map, Hr.
  - now apply IH.
Qed.

Lemma so_na_primeira_filter (tab : list linha_tabela) (d : texto) :
  NoDup (map indice tab) ->
  filter (do_motorista d) (so_na_primeira tab)
  = match filter (do_motorista d) tab with
    | [] => []
    | a0 :: rest => a0 :: map (poe_BONUS_TOTAL None) rest
    end.
Proof.
  intros Hnd. unfold so_na_primeira.
  rewrite filter_map_motorista.
  2:{ intros r. destruct (primeiro_indice tab (t_MOTORISTA r)) as [i0|];
        [destruct (par_eqb (indice r) i0)|]; reflexivity. }
  assert (Hnd' : NoDup (map indice (filter (do_motorista d) tab)))
    by now apply NoDup_map_filter.
  assert (Hd : forall r, In r (filter (do_motorista d) tab) ->
                         primeiro_indice tab (t_MOTORISTA r)
                         = hd_error (map indice (filter (do_motorista d) tab))).
  { intros r Hr. apply filter_In in Hr. destruct Hr as [_ Hr].
    apply texto_eqb_eq in Hr. now rewrite Hr. }
  destruct (filter (do_motorista d) tab) as [|a0 rest]; [reflexivity|].
  simpl. rewrite (Hd a0 (or_introl eq_refl)). simpl.
  rewrite (proj2 (par_eqb_eq _ _) eq_refl). f_equal.
  apply map_ext_in. intros r Hr. rewrite (Hd r (or_intror Hr)). simpl.
  destruct (par_eqb (indice r) (indice a0)) eqn:E; [|reflexivity].
  apply par_eqb_eq in E. simpl in Hnd'. inversion Hnd' as [|? ? Hn _]; subst.
  exfalso. apply Hn. rewrite <- E. now apply in_map.
Qed.

Lemma indice_agrega_tabela (regs : list registro) :
  map indice (agrega_tabela regs) = chaves par_compare chave_par regs.
Proof.
  unfold agrega_tabela, groupby. rewrite !map_map. simpl.
  rewrite <- (map_id (chaves par_compare chave_par regs)) at 2.
  apply map_ext. now intros [d c].
Qed.

Lemma indice_mapeia_total (bm : list linha_motorista) (tab : list linha_tabela) :
  map indice (mapeia_total bm tab) = map indice tab.
Proof. unfold mapeia_total. rewrite map_map. reflexivity. Qed.

Lemma indice_so_na_primeira (tab : list linha_tabela) :
  map indice (so_na_primeira tab) = map indice tab.
Proof.
  unfold so_na_primeira. rewrite map_map. apply map_ext. intros r.
  destruct (primeiro_indice tab (t_MOTORISTA r)) as [i0|];
    [destruct (par_eqb (indice r) i0)|]; reflexivity.
Qed.

(** The index of the detailed table is the list of the distinct pairs
    (driver, cost centre) of the frame, in increasing order. *)
Lemma indice_tabela (df : frame) :
  map indice (tabela (calcular_bonus df))
  = chaves par_compare chave_par (com_bonus df).
Proof.
  unfold calcular_bonus. simpl.
  now rewrite indice_so_na_primeira, indice_mapeia_total, indice_agrega_tabela.
Qed.

Lemma filter_agrega_tabela (regs : list registro) (d : texto) :
  filter (do_motorista d) (agrega_tabela regs)
  = map (fun k => agg_tabela (k, grupo par_compare chave_par regs k))
        (filter (fun k => texto_eqb (fst k) d) (chaves par_compare chave_par regs)).
Proof.
  unfold agrega_tabela, groupby. rewrite map_map, filter_map_swap. reflexivity.
Qed.

Lemma filter_tabela (df : frame) (d : texto) :
  let bm := agrega_motorista (com_bonus df) in
  filter (do_motorista d) (tabela (calcular_bonus df))
  = match filter (fun k => texto_eqb (fst k) d)
                 (chaves par_compare chave_par (com_bonus df)) with
    | [] => []
    | k0 :: ks =>
        poe_BONUS_TOTAL (procura bm d)
          (agg_tabela (k0, grupo par_compare chave_par (com_bonus df) k0))
        :: map (fun k =>
                  poe_BONUS_TOTAL None
                    (agg_tabela (k, grupo par_compare chave_par (com_bonus df) k)))
               ks
    end.
Proof.
  intros bm. unfold calcular_bonus. simpl. fold bm.
  rewrite so_na_primeira_filter.
  2:{ rewrite indice_mapeia_total, indice_agrega_tabela.
      apply (chaves_NoDup par_compare chave_par par_compare_eq
               par_compare_antisym par_compare_trans). }
  unfold mapeia_total. rewrite filter_map_motorista by reflexivity.
  rewrite filter_agrega_tabela.
  destruct (filter _ (chaves par_compare chave_par (com_bonus df)))
    as [|k0 ks] eqn:E; [reflexivity|].
  simpl. f_equal.
  - f_equal. assert (Hk : In k0 (k0 :: ks)) by now left.
    rewrite <- E in Hk. apply filter_In in Hk. destruct Hk as [_ Hk].
    apply texto_eqb_eq in Hk. now rewrite Hk.
  - rewrite !map_map. reflexivity.
Qed.

Lemma chave_par_motorista (r : registro) (k : texto * texto) :
  chave_par r = Some k -> chave_motorista r = Some (fst k).
Proof.
  unfold chave_par, chave_motorista.
  destruct (MOTORISTA (base r)), (CENTRO_DE_CUSTO (base r)); try discriminate.
  intros E. inversion E. reflexivity.
Qed.




Lemma procura_unico (l : list linha_motorista) (y : linha_motorista) :
  (forall y', In y' l -> m_MOTORISTA y' = m_MOTORISTA y -> y' = y) ->
  In y l ->
  procura l (m_MOTORISTA y) = Some (m_BONUS y).
Proof.
  induction l as [|x l IH]; simpl; intros Hu Hy; [contradiction|].
  destruct (texto_eqb (m_MOTORISTA x) (m_MOTORISTA y)) eqn:E.
  - apply texto_eqb_eq in E. now rewrite (Hu x (or_introl eq_refl) E).
  - apply IH; [intros y' Hy'; apply Hu; now right|].
    destruct Hy as [->|Hy]; [|exact Hy].
    rewrite texto_eqb_refl in E. discriminate.
Qed.

(** The rows of one driver in the detailed table: the first holds the
    driver's bonus of the per-driver summary, the others hold NaN. *)
Lemma linhas_do_motorista (df : frame) (d : texto) :
  In d (map t_MOTORISTA (tabela (calcular_bonus df))) ->
  exists r0 resto y,
    filter (do_motorista d) (tabela (calcular_bonus df)) = r0 :: resto
    /\ In y (bonus_motorista (calcular_bonus df))
    /\ m_MOTORISTA y = d
    /\ (forall y', In y' (bonus_motorista (calcular_bonus df)) ->
                   m_MOTORISTA y' = d -> y' = y)
    /\ t_BONUS_TOTAL r0 = Some (m_BONUS y)
    /\ Forall (fun r => t_BONUS_TOTAL r = None /\ t_BONUS_TOTAL r <> Some 0) resto
    /\ Forall (fun r => par_compare (indice r0) (indice r) = Lt) resto.
Proof.
  intros Hd. apply in_map_iff in Hd. destruct Hd as (x & Ex & Hx).
  assert (Hf : In x (filter (do_motorista d) (tabela (calcular_bonus df)))).
  { apply filter_In. split; [exact Hx|]. now apply texto_eqb_eq. }
  assert (Hs : forall a rest,
             filter (do_motorista d) (tabela (calcular_bonus df)) = a :: rest ->
             Forall (fun r => par_compare (indice a) (indice r) = Lt) rest).
  { intros a rest E.
    apply (@sorted_filter_head _ _ (fun a b => par_compare a b = Lt) indice
             (do_motorista d) (tabela (calcular_bonus df)) a rest); [|exact E].
    rewrite indice_tabela.
    apply (chaves_sorted par_compare chave_par par_compare_eq
             par_compare_antisym par_compare_trans). }
  rewrite filter_tabela in Hf, Hs.
  set (regs := com_bonus df) in *.
  destruct (filter (fun k => texto_eqb (fst k) d) (chaves par_compare chave_par regs))
    as [|k0 ks] eqn:Ek; [contradiction|].
  assert (Hk0 : In k0 (chaves par_compare chave_par regs) /\ fst k0 = d).
  { assert (Hin : In k0 (k0 :: ks)) by now left.
    rewrite <- Ek in Hin. apply filter_In in Hin. destruct Hin as [Hin E].
    split; [exact Hin|]. now apply texto_eqb_eq. }
  destruct Hk0 as [Hk0 Ed].
  apply (In_chaves par_compare chave_par par_compare_eq) in Hk0.
  destruct Hk0 as (reg & Hreg & Hkey). apply chave_par_motorista in Hkey.
  rewrite Ed in Hkey.
  set (y := agg_motorista (d, grupo texto_compare chave_motorista regs d)).
  assert (Hy : In y (bonus_motorista (calcular_bonus df))).
  { apply In_bonus_motorista. exists d. split; [|reflexivity].
    apply (In_chaves texto_compare chave_motorista texto_compare_eq). eauto. }
  assert (Hu : forall y', In y' (bonus_motorista (calcular_bonus df)) ->
                          m_MOTORISTA y' = d -> y' = y).
  { intros y' Hy' E. apply In_bonus_motorista in Hy'.
    destruct Hy' as (k & _ & ->). simpl in E. subst k. reflexivity. }
  eexists. eexists. exists y.
  rewrite filter_tabela. fold regs. rewrite Ek.
  split; [reflexivity|]. split; [exact Hy|]. split; [reflexivity|].
  split; [exact Hu|]. split; [|split].
  - simpl. apply (@procura_unico (bonus_motorista (calcular_bonus df)) y);
      [exact Hu | exact Hy].
  - apply Forall_forall. intros r Hr. apply in_map_iff in Hr.
    destruct Hr as (k & <- & _). simpl. split; [reflexivity|discriminate].
  - exact (Hs _ _ eq_refl).
Qed.

(** Which drivers have rows in the detailed table: those with a row of
    the frame whose cost centre is filled. *)
Lemma motorista_na_tabela (df : frame) (d : texto) :
  In d (map t_MOTORISTA (tabela (calcular_bonus df))) <->
  exists r c, In r df /\ MOTORISTA r = Some d /\ CENTRO_DE_CUSTO r = Some c.
Proof.
  assert (E : map t_MOTORISTA (tabela (calcular_bonus df))
              = map fst (map indice (tabela (calcular_bonus df))))
    by (rewrite map_map; reflexivity).
  rewrite E, indice_tabela, in_map_iff. split.
  - intros ([d' c] & Ed & Hk). simpl in Ed. subst d'.
    apply (In_chaves par_compare chave_par par_compare_eq) in Hk.
    destruct Hk as (reg & Hreg & Hkey).
    apply BONUS_com_bonus in Hreg. destruct Hreg as [_ Hreg].
    exists (base reg), c. split; [exact Hreg|].
    unfold chave_par in Hkey.
    destruct (MOTORISTA (base reg)), (CENTRO_DE_CUSTO (base reg));
      try discriminate.
    inversion Hkey; subst. auto.
  - intros (r & c & Hr & Em & Ec). exists (d, c). split; [reflexivity|].
    apply (In_chaves par_compare chave_par par_compare_eq).
    exists {| base := r; BONUS := bonus_da_linha r |}. split.
    + rewrite com_bonus_map. apply in_map_iff. exists r. auto.
    + unfold chave_par. simpl. now rewrite Em, Ec.
Qed.

(** C4. In the detailed table every driver with rows there (every driver
    of a row of the frame whose cost centre is filled) has exactly one row
    whose BÔNUS TOTAL cell is filled: it is the first of the driver's rows,
    its index comes before the index of every other row of the driver, and
    it holds the bonus of that driver's one line in the per-driver summary;
    the BÔNUS TOTAL cell of all the other rows is NaN, which is not the
    number zero. *)
Theorem total_so_na_primeira (df : frame) (d : texto) :
  (exists r c, In r df /\ MOTORISTA r = Some d /\ CENTRO_DE_CUSTO r = Some c) ->
  exists r0 resto y,
    filter (do_motorista d) (tabela (calcular_bonus df)) = r0 :: resto
    /\ In y (bonus_motorista (calcular_bonus df))
    /\ m_MOTORISTA y = d
    /\ (forall y', In y' (bonus_motorista (calcular_bonus df)) ->
                   m_MOTORISTA y' = d -> y' = y)
    /\ t_BONUS_TOTAL r0 = Some (m_BONUS y)
    /\ Forall (fun r => t_BONUS_TOTAL r = None /\ t_BONUS_TOTAL r <> Some 0) resto
    /\ Forall (fun r => par_compare (indice r0) (indice r) = Lt) resto.
Proof.
  intros H. apply linhas_do_motorista. apply motorista_na_tabela. exact H.
Qed.

Lemma total_so_na_primeira_witness :
  (exists r c,
      In r (map (normaliza_linha sem_parse) viagens_exemplo)
      /\ MOTORISTA r = Some (txt "JOÃO") /\ CENTRO_DE_CUSTO r = Some c)
  /\ map t_BONUS_TOTAL
       (filter (do_motorista (txt "JOÃO"))
          (tabela (calcular_bonus (map (normaliza_linha sem_parse) viagens_exemplo))))
     = [Some (round2 (10 + (20 + 0))); None].
Proof.
  assert (H : exists r c,
             In r (map (normaliza_linha sem_parse) viagens_exemplo)
             /\ MOTORISTA r = Some (txt "JOÃO") /\ CENTRO_DE_CUSTO r = Some c).
  { exists (normaliza_linha sem_parse linha_areia), AREIA.
    split; [left; reflexivity|]. split; reflexivity. }
  split; [exact H|].
  destruct (@total_so_na_primeira _ _ H) as (r0 & resto & y & E & _).
  rewrite E. vm_compute in E. inversion E. subst. reflexivity.
Defined.

(* ================================================================== *)
(** * Substitution of a literal between word boundaries *)

Section SubstituicaoFacts.

Variable w : N -> bool.

Lemma prefixo_app (p b : texto) : prefixo p (p ++ b) = true.
Proof.
  induction p as [|x p IH]; simpl; [reflexivity|].
  now rewrite N.eqb_refl, IH.
Qed.

Lemma prefixo_inv (p s : texto) : prefixo p s = true -> exists b, s = p ++ b.
Proof.
  revert s. induction p as [|x p IH]; intros s H.
  - now exists s.
  - destruct s as [|y s]; simpl in H; [discriminate|].
    apply andb_true_iff in H. destruct H as [E H].
    apply N.eqb_eq in E. subst y.
    destruct (IH s H) as (b & ->). now exists b.
Qed.

Lemma ultimo_cons (ant : option N) (c : N) (a : texto) :
  ultimo ant (c :: a) = ultimo (Some c) a.
Proof. destruct a; reflexivity. Qed.

Lemma ultimo_app (ant : option N) (a b : texto) :
  ultimo ant (a ++ b) = ultimo (ultimo ant a) b.
Proof.
  revert ant. induction a as [|c a IH]; intros ant; [reflexivity|].
  change ((c :: a) ++ b) with (c :: (a ++ b)).
  now rewrite !ultimo_cons, IH.
Qed.

Lemma skipn_length_app (p b : texto) : skipn (List.length p) (p ++ b) = b.
Proof. induction p; simpl; auto. Qed.

Lemma livre_cauda (q : texto) (ant : option N) (x y : texto) :
  so_em_palavra_maior w q ant (x ++ y) ->
  so_em_palavra_maior w q (ultimo ant x) y.
Proof.
  intros H a b E. rewrite <- ultimo_app. apply H.
  rewrite E. now rewrite app_assoc.
Qed.

Lemma sub_Forall (P : N -> Prop) (pat repl : texto) :
  Forall P repl ->
  forall s k ant, Forall P s -> Forall P (sub_de w pat repl k ant s).
Proof.
  intros Hr. induction s as [|c s IH]; intros k ant Hs; [constructor|].
  inversion Hs; subst. simpl. destruct k as [|k]; [|now apply IH].
  destruct (casa w pat ant (c :: s)).
  - apply Forall_app. split; [exact Hr | now apply IH].
  - constructor; [assumption | now apply IH].
Qed.

Lemma sub_hd (pat repl : texto) (ant : option N) (s : texto) :
  repl <> [] ->
  hd_error (sub_de w pat repl 0 ant s) = hd_error s
  \/ hd_error (sub_de w pat repl 0 ant s) = hd_error repl.
Proof.
  intros Hr. destruct s as [|c s]; [now left|]. simpl.
  destruct (casa w pat ant (c :: s)); [right|now left].
  destruct repl; [contradiction|reflexivity].
Qed.

Lemma sub_nao_vazio (pat repl : texto) (ant : option N) (s : texto) :
  repl <> [] -> s <> [] -> sub_de w pat repl 0 ant s <> [].
Proof.
  intros Hr Hs. destruct s as [|c s]; [contradiction|]. simpl.
  destruct (casa w pat ant (c :: s)); [|discriminate].
  destruct repl; [contradiction|discriminate].
Qed.

Section UmPadrao.

Variables (p0 : N) (resto_pat : texto).

Let pat : texto := p0 :: resto_pat.
Let pf : N := last pat 0%N.

Hypothesis inicio_palavra : w p0 = true.
Hypothesis fim_palavra : w pf = true.

Variable repl : texto.

Lemma casa_app (ant : option N) (b : texto) :
  casa w pat ant (pat ++ b)
  = negb (e_palavra w ant) && negb (e_palavra w (hd_error b)).
Proof.
  unfold casa. rewrite prefixo_app, skipn_length_app, andb_true_r.
  change (hd_error (pat ++ b)) with (Some p0).
  change (ultimo ant pat) with (Some pf).
  unfold limite. cbn [e_palavra].
  rewrite inicio_palavra, fim_palavra, xorb_true_r. reflexivity.
Qed.

Lemma casa_inv (ant : option N) (s : texto) :
  casa w pat ant s = true ->
  exists b, s = pat ++ b
            /\ e_palavra w ant = false
            /\ e_palavra w (hd_error b) = false.
Proof.
  intros H.
  assert (Hp : prefixo pat s = true).
  { unfold casa in H. apply andb_true_iff in H. destruct H as [H _].
    apply andb_true_iff in H. tauto. }
  destruct (prefixo_inv _ _ Hp) as (b & ->). exists b.
  rewrite casa_app in H. apply andb_true_iff in H.
  rewrite !negb_true_iff in H. tauto.
Qed.

Lemma sub_pula (a s : texto) (ant : option N) :
  sub_de w pat repl (List.length a) ant (a ++ s)
  = sub_de w pat repl 0 (ultimo ant a) s.
Proof.
  revert ant. induction a as [|c a IH]; intros ant; [reflexivity|].
  simpl List.length. change ((c :: a) ++ s) with (c :: (a ++ s)).
  rewrite ultimo_cons. simpl. apply IH.
Qed.

Lemma sub_casa (ant : option N) (b : texto) :
  casa w pat ant (pat ++ b) = true ->
  sub_de w pat repl 0 ant (pat ++ b)
  = repl ++ sub_de w pat repl 0 (Some pf) b.
Proof.
  intros H. unfold pat at 3. change ((p0 :: resto_pat) ++ b) with (p0 :: (resto_pat ++ b)).
  simpl sub_de. change (p0 :: resto_pat ++ b) with (pat ++ b). rewrite H.
  f_equal. fold pat. unfold pat at 2. simpl List.length. rewrite Nat.sub_0_r.
  rewrite sub_pula. rewrite <- (ultimo_cons None). reflexivity.
Qed.

Lemma sub_nao_casa (ant : option N) (c : N) (s : texto) :
  casa w pat ant (c :: s) = false ->
  sub_de w pat repl 0 ant (c :: s) = c :: sub_de w pat repl 0 (Some c) s.
Proof. intros H. simpl. now rewrite H. Qed.

Lemma livre_cons (ant : option N) (c : N) (s : texto) :
  so_em_palavra_maior w pat ant (c :: s) <->
  casa w pat ant (c :: s) = false /\ so_em_palavra_maior w pat (Some c) s.
Proof.
  split.
  - intros H. split.
    + destruct (casa w pat ant (c :: s)) eqn:E; [|reflexivity].
      apply casa_inv in E. destruct E as (b & E & Ha & Hb).
      destruct (H [] b E) as [H1|H1]; simpl in H1; congruence.
    + exact (@livre_cauda pat ant [c] s H).
  - intros [Hc Hs] a b E. destruct a as [|x a].
    + change ([] ++ pat ++ b) with (pat ++ b) in E.
      rewrite E, casa_app in Hc. simpl.
      apply andb_false_iff in Hc. rewrite !negb_false_iff in Hc. exact Hc.
    + inversion E; subst. rewrite ultimo_cons. now apply Hs.
Qed.

Lemma livre_nil (ant : option N) : so_em_palavra_maior w pat ant [].
Proof. intros a b E. destruct a; discriminate. Qed.

(** The boolean scan decides the property. *)
Lemma ocorre_livre (ant : option N) (s : texto) :
  ocorre w pat ant s = false <-> so_em_palavra_maior w pat ant s.
Proof.
  revert ant. induction s as [|c s IH]; intros ant.
  - split; [intros _; apply livre_nil | reflexivity].
  - simpl ocorre. rewrite orb_false_iff, IH, livre_cons. reflexivity.
Qed.

(** Nothing is rewritten where the literal is only part of longer tokens. *)
Lemma sub_inalterado (ant : option N) (s : texto) :
  so_em_palavra_maior w pat ant s -> sub_de w pat repl 0 ant s = s.
Proof.
  revert ant. induction s as [|c s IH]; intros ant H; [reflexivity|].
  apply livre_cons in H. destruct H as [Hc Hs].
  rewrite sub_nao_casa by exact Hc. f_equal. now apply IH.
Qed.


(** Right after a word character no match can start: the scan copies. *)
Lemma copia1 (c : N) (s : texto) :
  w c = true -> casa w pat (Some c) s = false.
Proof.
  intros Hc. destruct (casa w pat (Some c) s) eqn:E; [|reflexivity].
  apply casa_inv in E. destruct E as (b & _ & Ha & _). simpl in Ha. congruence.
Qed.

Lemma sub_copia (u : texto) :
  Forall (fun x => w x = true) u ->
  forall c s b,
    w c = true ->
    sub_de w pat repl 0 (Some c) s = u ++ b ->
    exists s7, s = u ++ s7 /\ sub_de w pat repl 0 (ultimo (Some c) u) s7 = b.
Proof.
  induction 1 as [|x u Hx Hu IH]; intros c s b Hc E.
  - exists s. auto.
  - destruct s as [|y s]; [discriminate|].
    rewrite sub_nao_casa in E by now apply copia1.
    inversion E; subst y.
    destruct (IH x s b Hx H1) as (s7 & -> & E7).
    exists s7. split; [reflexivity|]. now rewrite ultimo_cons.
Qed.

Lemma sub_hd_copia (c : N) (s : texto) :
  w c = true ->
  hd_error (sub_de w pat repl 0 (Some c) s) = hd_error s.
Proof.
  intros Hc. destruct s as [|y s]; [reflexivity|].
  rewrite sub_nao_casa by now apply copia1. reflexivity.
Qed.

Section Alvo.

(** A second literal, made of word characters, that the replacement text
    cannot begin. *)
Variables (t0 : N) (resto_alvo : texto).

Let alvo : texto := t0 :: resto_alvo.

Hypothesis alvo_palavras : Forall (fun c => w c = true) alvo.
Hypothesis repl_palavras : Forall (fun c => w c = true) repl.
Hypothesis repl_nao_vazio : repl <> [].
Hypothesis repl_distinto : forall x y, repl ++ x <> alvo ++ y.

Lemma ultimo_palavra (ant : option N) (a : texto) :
  Forall (fun c => w c = true) a -> a <> [] ->
  e_palavra w (ultimo ant a) = true.
Proof.
  intros Ha Hn. destruct (exists_last Hn) as (l & y & ->).
  rewrite ultimo_app. simpl.
  apply Forall_app in Ha. destruct Ha as [_ Ha]. now inversion Ha.
Qed.

(** Substituting [pat] leaves no whole-token [alvo] behind, when [alvo] is
    [pat] itself or when there was none before. *)
Lemma livre_sub (n : nat) :
  forall s ant,
    (List.length s <= n)%nat ->
    alvo = pat \/ so_em_palavra_maior w alvo ant s ->
    so_em_palavra_maior w alvo ant (sub_de w pat repl 0 ant s).
Proof.
  induction n as [|n IHn]; intros s ant Hn Hyp.
  - destruct s; [|simpl in Hn; lia]. intros a b E. destruct a; discriminate.
  - destruct s as [|c s]; [intros a b E; destruct a; discriminate|].
    destruct (casa w pat ant (c :: s)) eqn:Ec.
    + destruct (casa_inv _ _ Ec) as (rest & E & Ha & Hb).
      rewrite E in Ec, Hyp |- *. rewrite sub_casa by exact Ec.
      assert (IHr : so_em_palavra_maior w alvo (Some pf)
                      (sub_de w pat repl 0 (Some pf) rest)).
      { apply IHn.
        - apply (f_equal (@List.length N)) in E. rewrite length_app in E.
          simpl in E, Hn. lia.
        - destruct Hyp as [Eq|HL]; [now left|right].
          exact (@livre_cauda alvo ant pat rest HL). }
      intros a b E2. apply app_eq_app in E2.
      destruct E2 as (l & [[E3 E4]|[E3 E4]]).
      * destruct a as [|x a].
        -- simpl in E3. subst l. exfalso. eapply repl_distinto. symmetry. exact E4.
        -- left. apply ultimo_palavra; [|discriminate].
           rewrite E3 in repl_palavras. apply Forall_app in repl_palavras. tauto.
      * subst a. rewrite ultimo_app.
        destruct l as [|x l].
        -- left. simpl ultimo at 1. apply ultimo_palavra; assumption.
        -- destruct (IHr _ _ E4) as [H|H]; [left|now right].
           rewrite !ultimo_cons in *. exact H.
    + rewrite sub_nao_casa by exact Ec.
      assert (IHs : so_em_palavra_maior w alvo (Some c)
                      (sub_de w pat repl 0 (Some c) s)).
      { apply IHn; [simpl in Hn; lia|].
        destruct Hyp as [Eq|HL]; [now left|right].
        exact (@livre_cauda alvo ant [c] s HL). }
      intros a b E2. destruct a as [|x a].
      * change ([] ++ alvo ++ b) with (t0 :: (resto_alvo ++ b)) in E2.
        inversion E2 as [[Ect Eout]]. clear E2. rewrite <- Ect in Eout.
        assert (Hc : w c = true).
        { rewrite Ect. unfold alvo in alvo_palavras.
          now inversion alvo_palavras. }
        assert (Hu : Forall (fun x => w x = true) resto_alvo).
        { unfold alvo in alvo_palavras. now inversion alvo_palavras. }
        destruct (sub_copia Hu _ _ Hc Eout) as (s7 & Es & Eb).
        assert (Hq : exists q, ultimo (Some c) resto_alvo = Some q /\ w q = true).
        { destruct resto_alvo as [|y r] eqn:Er.
          - exists c. auto.
          - exists (last (y :: r) 0%N). split; [reflexivity|].
            assert (Hl := @ultimo_palavra None (y :: r) Hu).
            apply Hl. discriminate. }
        destruct Hq as (q & Eq & Hq). rewrite Eq in Eb.
        assert (Hb : hd_error b = hd_error s7).
        { rewrite <- Eb. now apply sub_hd_copia. }
        rewrite Hb. simpl ultimo.
        assert (Ecs : c :: s = alvo ++ s7).
        { unfold alvo. simpl. now rewrite Ect, Es. }
        destruct Hyp as [Ealvo|HL].
        -- rewrite Ecs, Ealvo, casa_app in Ec.
           apply andb_false_iff in Ec. rewrite !negb_false_iff in Ec. exact Ec.
        -- exact (HL [] s7 Ecs).
      * inversion E2; subst. rewrite ultimo_cons. now apply IHs.
Qed.

End Alvo.

End UmPadrao.

End SubstituicaoFacts.

(* ================================================================== *)
(** * The two aliases *)

Lemma apelidos_casos (pat repl : texto) :
  In (pat, repl) [(VINICIUS, VINICIUS_canonico); (MARCOS_NASCIMENTO, MARCOS)] ->
  exists p0 resto,
    pat = p0 :: resto
    /\ Unicode.palavra p0 = true
    /\ Unicode.palavra (last (p0 :: resto) 0%N) = true.
Proof.
  intros [E|[E|[]]]; inversion E; subst; eexists; eexists;
    (split; [reflexivity|split; reflexivity]).
Qed.

Lemma ocorre_palavra_maior (pat repl : texto) (s : texto) :
  In (pat, repl) [(VINICIUS, VINICIUS_canonico); (MARCOS_NASCIMENTO, MARCOS)] ->
  ocorre Unicode.palavra pat None s = false <->
  so_em_palavra_maior Unicode.palavra pat None s.
Proof.
  intros H. destruct (apelidos_casos H) as (p0 & resto & -> & H0 & Hf).
  now apply ocorre_livre.
Qed.



(** C7, at names of the sheet. *)
Example apelido_exemplos :
  padroniza (txt "jose vinicius silva") = txt "JOSE VINÍCIUS SILVA"
  /\ padroniza (txt "Marcos Nascimento") = txt "MARCOS"
  /\ padroniza (txt "vinicius-marcos nascimento") = txt "VINÍCIUS-MARCOS"
  /\ padroniza (txt "marcos vinicius2") = txt "MARCOS VINICIUS2"
  /\ padroniza (txt "  joão  ") = txt "JOÃO".
Proof. repeat split; vm_compute; reflexivity. Qed.

(** Outside Latin-1: the en dash is no word character, so the alias
    before it is a whole token; [upper] follows the full case mapping,
    which can bring the alias about. *)
Example apelido_fora_do_latim :
  padroniza (txt "vinicius–silva") = txt "VINÍCIUS–SILVA"
  /\ padroniza (txt "MARCOS NASCIMENTO NASCIMENTO–X") = txt "MARCOS NASCIMENTO–X"
  /\ upper (txt "łódź straße") = txt "ŁÓDŹ STRASSE"
  /\ padroniza (txt "viniciuſ") = txt "VINÍCIUS".
Proof. repeat split; vm_compute; reflexivity. Qed.

(* ================================================================== *)
(** * Upper case and trimming are stable *)

Lemma fins_cons (c : N) (s : texto) : s <> [] -> fins (c :: s) = fins s.
Proof.
  intros Hs. unfold fins. simpl.
  destruct (rev s) eqn:E; [|reflexivity].
  apply (f_equal (@rev N)) in E. rewrite rev_involutive in E. contradiction.
Qed.

Lemma fins_app (a b : texto) : b <> [] -> fins (a ++ b) = fins b.
Proof.
  intros Hb. induction a as [|c a IH]; [reflexivity|].
  change ((c :: a) ++ b) with (c :: (a ++ b)).
  rewrite fins_cons; [exact IH|]. destruct a; [exact Hb|discriminate].
Qed.

Lemma lstrip_hd (s : texto) : e_espaco (hd_error (lstrip s)) = false.
Proof.
  induction s as [|c s IH]; [reflexivity|]. simpl.
  destruct (Unicode.isspace c) eqn:E; [exact IH|]. simpl. exact E.
Qed.

Lemma lstrip_fixo (s : texto) : e_espaco (hd_error s) = false -> lstrip s = s.
Proof. destruct s as [|c s]; [reflexivity|]. simpl. now intros ->. Qed.

Lemma lstrip_sufixo (s : texto) : exists sp, s = sp ++ lstrip s.
Proof.
  induction s as [|c s (sp & IH)]; [now exists []|]. simpl.
  destruct (Unicode.isspace c).
  - exists (c :: sp). simpl. now rewrite <- IH.
  - now exists [].
Qed.

Lemma strip_aparado (s : texto) : aparado (strip s).
Proof.
  unfold aparado, strip, rstrip, fins. rewrite rev_involutive. split.
  - assert (Hu := lstrip_hd s).
    destruct (lstrip_sufixo (rev (lstrip s))) as (sp & E).
    apply (f_equal (@rev N)) in E. rewrite rev_involutive, rev_app_distr in E.
    destruct (rev (lstrip (rev (lstrip s)))) as [|x z]; [reflexivity|].
    rewrite E in Hu. exact Hu.
  - apply lstrip_hd.
Qed.

Lemma strip_fixo (s : texto) : aparado s -> strip s = s.
Proof.
  intros [H1 H2]. unfold strip, rstrip.
  rewrite (lstrip_fixo _ H1), (lstrip_fixo _ H2). apply rev_involutive.
Qed.

Lemma Forall_lstrip (P : N -> Prop) (s : texto) :
  Forall P s -> Forall P (lstrip s).
Proof.
  induction 1 as [|c s Hc Hs IH]; simpl; [constructor|].
  destruct (Unicode.isspace c); [exact IH | now constructor].
Qed.

Lemma Forall_strip (P : N -> Prop) (s : texto) :
  Forall P s -> Forall P (strip s).
Proof.
  intros H. unfold strip, rstrip.
  apply Forall_rev, Forall_lstrip, Forall_rev, Forall_lstrip, H.
Qed.

Lemma procura_esta (c : N) (tabela : list (N * list N)) (u : list N) :
  Unicode.procura c tabela = Some u -> In (c, u) tabela.
Proof.
  induction tabela as [|[k v] resto IH]; simpl; [discriminate|].
  destruct (N.eqb_spec k c) as [->|_].
  - intros E. inversion E. now left.
  - intros E. right. now apply IH.
Qed.

Lemma maiusculas_estaveis : Unicode.maiusculas_fechadas = true.
Proof. vm_compute. reflexivity. Qed.

Lemma upper_cp_fixo (c : N) : Forall fixo_upper (Unicode.upper_cp c).
Proof.
  unfold Unicode.upper_cp at 1.
  destruct (Unicode.procura c Unicode.maiusculas) as [u|] eqn:E.
  - apply procura_esta in E.
    pose proof maiusculas_estaveis as F. unfold Unicode.maiusculas_fechadas in F.
    rewrite forallb_forall in F. specialize (F _ E). cbn [snd] in F.
    rewrite forallb_forall in F. apply Forall_forall. intros d Hd.
    specialize (F d Hd). unfold fixo_upper, Unicode.upper_cp.
    destruct (Unicode.procura d Unicode.maiusculas); [discriminate|reflexivity].
  - constructor; [|constructor]. unfold fixo_upper, Unicode.upper_cp.
    now rewrite E.
Qed.

Lemma upper_Forall (s : texto) : Forall fixo_upper (upper s).
Proof.
  unfold upper. induction s as [|c s IH]; simpl; [constructor|].
  apply Forall_app. split; [apply upper_cp_fixo | exact IH].
Qed.

Lemma upper_fixo (s : texto) : Forall fixo_upper s -> upper s = s.
Proof.
  unfold upper. induction 1 as [|c s Hc Hs IH]; simpl; [reflexivity|].
  rewrite Hc, IH. reflexivity.
Qed.

Section SubstituicaoBordas.

Variable w : N -> bool.
Variables pat repl : texto.
Hypothesis repl_nao_vazio : repl <> [].

Lemma sub_fins (s : texto) :
  forall k ant,
    sub_de w pat repl k ant s = []
    \/ fins (sub_de w pat repl k ant s) = fins s
    \/ fins (sub_de w pat repl k ant s) = fins repl.
Proof.
  induction s as [|c s IH]; intros k ant; [now left|].
  destruct s as [|y s'].
  - simpl. destruct k; [|now left].
    destruct (casa w pat ant [c]); [|right; now left].
    rewrite app_nil_r. right. now right.
  - assert (Hc : fins (c :: y :: s') = fins (y :: s'))
      by (apply fins_cons; discriminate).
    rewrite Hc.
    change (sub_de w pat repl k ant (c :: y :: s'))
      with (match k with
            | S k' => sub_de w pat repl k' (Some c) (y :: s')
            | O => if casa w pat ant (c :: y :: s')
                   then repl ++ sub_de w pat repl (List.length pat - 1) (Some c) (y :: s')
                   else c :: sub_de w pat repl 0 (Some c) (y :: s')
            end).
    destruct k as [|k']; [|apply IH].
    destruct (casa w pat ant (c :: y :: s')).
    + destruct (IH (List.length pat - 1)%nat (Some c)) as [E|[E|E]].
      * rewrite E, app_nil_r. right. now right.
      * destruct (sub_de w pat repl (List.length pat - 1) (Some c) (y :: s')) eqn:Eo.
        -- rewrite app_nil_r. right. now right.
        -- rewrite fins_app by discriminate. right. now left.
      * destruct (sub_de w pat repl (List.length pat - 1) (Some c) (y :: s')) eqn:Eo.
        -- rewrite app_nil_r. right. now right.
        -- rewrite fins_app by discriminate. right. now right.
    + assert (Hn : sub_de w pat repl 0 (Some c) (y :: s') <> [])
        by (apply sub_nao_vazio; [exact repl_nao_vazio | discriminate]).
      rewrite fins_cons by exact Hn.
      destruct (IH 0%nat (Some c)) as [E|[E|E]]; [contradiction| |]; auto.
Qed.

Lemma sub_aparado (s : texto) :
  aparado repl -> aparado s -> aparado (re_sub w pat repl s).
Proof.
  intros [R1 R2] [S1 S2]. unfold re_sub. split.
  - destruct (sub_hd w pat None s repl_nao_vazio) as [E|E]; now rewrite E.
  - destruct (sub_fins s 0 None) as [E|[E|E]]; rewrite E; auto.
Qed.

End SubstituicaoBordas.

(* ================================================================== *)
(** * A second pass of the cleaning step *)

Lemma palavras_VINICIUS : Forall (fun c => Unicode.palavra c = true) VINICIUS.
Proof. repeat constructor. Qed.

Lemma palavras_VINICIUS_canonico :
  Forall (fun c => Unicode.palavra c = true) VINICIUS_canonico.
Proof. repeat constructor. Qed.

Lemma palavras_MARCOS : Forall (fun c => Unicode.palavra c = true) MARCOS.
Proof. repeat constructor. Qed.

(** After the first substitution no whole-token VINICIUS is left, and the
    second substitution brings none back. *)
Lemma padroniza_sem_VINICIUS (s : texto) :
  so_em_palavra_maior Unicode.palavra VINICIUS None (padroniza s).
Proof.
  unfold padroniza, str_replace, re_sub.
  set (t0 := strip (upper s)).
  assert (H1 : so_em_palavra_maior Unicode.palavra VINICIUS None
                 (sub_de Unicode.palavra VINICIUS VINICIUS_canonico 0 None t0)).
  { unfold VINICIUS.
    eapply (@livre_sub Unicode.palavra) with (n := List.length t0).
    - reflexivity.
    - reflexivity.
    - exact palavras_VINICIUS.
    - exact palavras_VINICIUS_canonico.
    - discriminate.
    - intros x y E. inversion E.
    - apply Nat.le_refl.
    - left. reflexivity. }
  set (t1 := sub_de Unicode.palavra VINICIUS VINICIUS_canonico 0 None t0) in *.
  unfold MARCOS_NASCIMENTO. unfold VINICIUS in H1 |- *.
  eapply (@livre_sub Unicode.palavra) with (n := List.length t1).
  - reflexivity.
  - reflexivity.
  - exact palavras_VINICIUS.
  - exact palavras_MARCOS.
  - discriminate.
  - intros x y E. inversion E.
  - apply Nat.le_refl.
  - right. exact H1.
Qed.

Lemma padroniza_fixo_upper (s : texto) : Forall fixo_upper (padroniza s).
Proof.
  unfold padroniza, str_replace, re_sub.
  apply sub_Forall; [repeat constructor|].
  apply sub_Forall; [repeat constructor|].
  apply Forall_strip, upper_Forall.
Qed.

Lemma padroniza_aparado (s : texto) : aparado (padroniza s).
Proof.
  unfold padroniza, str_replace.
  apply sub_aparado; [discriminate | split; reflexivity |].
  apply sub_aparado; [discriminate | split; reflexivity |].
  apply strip_aparado.
Qed.

(** A canonical name that keeps no whole-token MARCOS NASCIMENTO is a
    fixed point of the canonicalisation. *)
Lemma padroniza_estavel (s : texto) :
  so_em_palavra_maior Unicode.palavra MARCOS_NASCIMENTO None (padroniza s) ->
  padroniza (padroniza s) = padroniza s.
Proof.
  intros H. unfold padroniza at 1.
  rewrite (upper_fixo (padroniza_fixo_upper s)).
  rewrite (strip_fixo (padroniza_aparado s)).
  unfold str_replace, re_sub.
  assert (E1 : sub_de Unicode.palavra VINICIUS VINICIUS_canonico 0 None
                 (padroniza s) = padroniza s).
  { exact (@sub_inalterado Unicode.palavra (hd 0%N VINICIUS) (tl VINICIUS)
             eq_refl eq_refl
             VINICIUS_canonico None (padroniza s) (padroniza_sem_VINICIUS s)). }
  rewrite E1.
  exact (@sub_inalterado Unicode.palavra
           (hd 0%N MARCOS_NASCIMENTO) (tl MARCOS_NASCIMENTO) eq_refl eq_refl
           MARCOS None (padroniza s) H).
Qed.

Lemma filter_todos (A : Type) (p : A -> bool) (l : list A) :
  (forall x, In x l -> p x = true) -> filter p l = l.
Proof.
  induction l as [|a l IH]; simpl; intros H; [reflexivity|].
  rewrite (H a (or_introl eq_refl)), IH; [reflexivity|].
  intros x Hx. apply H. now right.
Qed.

(** C9. The call rewrites the caller's frame and leaves it rewritten
    whatever it does next, also when it raises. Row by row and in place,
    the DATA cell is coerced (a text becomes its time stamp, or NaT when
    it does not parse, so that no text is left) and the driver name is
    replaced by its canonical form, which upper-casing, trimming and the
    VINICIUS substitution leave as it is. No row leaves the caller's
    frame, and the other columns are untouched. *)
Theorem entrada_reescrita (parse_data : texto -> option Z) (dados : frame)
    (ini fim : Z) (i : nat) (r : linha) :
  nth_error dados i = Some r ->
  let depois := fst (limpar_e_filtrar_dados parse_data dados ini fim) in
  List.length depois = List.length dados
  /\ fst (relatorio parse_data dados ini fim) = depois
  /\ exists x m,
       nth_error depois i = Some x
       /\ MOTORISTA x = Some m
       /\ m = str_replace MARCOS_NASCIMENTO MARCOS
                (str_replace VINICIUS VINICIUS_canonico
                   (strip (upper (astype_str (MOTORISTA r)))))
       /\ upper m = m
       /\ strip m = m
       /\ str_replace VINICIUS VINICIUS_canonico m = m
       /\ DATA x = match DATA r with
                   | Carimbo t => Carimbo t
                   | TextoData s =>
                       match parse_data s with
                       | Some t => Carimbo t
                       | None => NaT
                       end
                   | NaT => NaT
                   end
       /\ (forall s, DATA x <> TextoData s)
       /\ CENTRO_DE_CUSTO x = CENTRO_DE_CUSTO r
       /\ QUANT x = QUANT r
       /\ TOTAL x = TOTAL r.
Proof.
  intros Hi depois.
  assert (E : depois = map (normaliza_linha parse_data) dados)
    by (unfold depois; rewrite limpar_casos; reflexivity).
  split; [rewrite E; apply length_map|].
  split.
  { rewrite E. unfold relatorio. rewrite limpar_casos. cbv zeta.
    destruct (filter _ _); reflexivity. }
  exists (normaliza_linha parse_data r), (padroniza (astype_str (MOTORISTA r))).
  split; [rewrite E; now apply map_nth_error|].
  split; [reflexivity|]. split; [reflexivity|].
  split; [apply upper_fixo, padroniza_fixo_upper|].
  split; [apply strip_fixo, padroniza_aparado|].
  split.
  { exact (@sub_inalterado Unicode.palavra (hd 0%N VINICIUS) (tl VINICIUS)
             eq_refl eq_refl VINICIUS_canonico None _
             (padroniza_sem_VINICIUS (astype_str (MOTORISTA r)))). }
  split; [reflexivity|].
  split.
  { intros s. unfold normaliza_linha, to_datetime_coerce. cbn [DATA].
    destruct (DATA r) as [t|s'|]; try discriminate.
    destruct (parse_data s'); discriminate. }
  repeat split.
Qed.

Lemma entrada_reescrita_witness :
  snd (limpar_e_filtrar_dados sem_parse [linha_data_ilegivel] 19723 19753)
  = Levanta (ValueError msg_vazio)
  /\ exists x m,
       nth_error (fst (limpar_e_filtrar_dados sem_parse [linha_data_ilegivel]
                         19723 19753)) 0
       = Some x
       /\ MOTORISTA linha_data_ilegivel = Some (txt " vinicius ")
       /\ MOTORISTA x = Some m
       /\ m = txt "VINÍCIUS"
       /\ DATA linha_data_ilegivel = TextoData (txt "sem data")
       /\ DATA x = NaT.
Proof.
  split; [reflexivity|].
  destruct (@entrada_reescrita sem_parse [linha_data_ilegivel] 19723 19753
              0%nat linha_data_ilegivel eq_refl)
    as (_ & _ & x & m & Hx & Hm & Em & _ & _ & _ & Hd & _).
  exists x, m. split; [exact Hx|]. split; [reflexivity|].
  split; [exact Hm|]. split; [rewrite Em; vm_compute; reflexivity|].
  split; [reflexivity|exact Hd].
Defined.

(** C8, as amended. On what a call has returned, as long as no driver
    name in it keeps MARCOS NASCIMENTO as whole tokens, a second call with
    the same range, or with any range whose two midnights enclose every
    time stamp, returns it again and leaves it as it is; and upper-casing,
    trimming and the VINICIUS substitution change none of its names. *)
Theorem normalizacao_estavel (parse_data : texto -> option Z) (dados : frame)
    (ini fim : Z) (saida : frame) :
  snd (limpar_e_filtrar_dados parse_data dados ini fim) = Retorna saida ->
  (forall r m, In r saida -> MOTORISTA r = Some m ->
               so_em_palavra_maior Unicode.palavra MARCOS_NASCIMENTO None m) ->
  limpar_e_filtrar_dados parse_data saida ini fim = (saida, Retorna saida)
  /\ (forall ini' fim',
        (forall r t, In r saida -> DATA r = Carimbo t ->
                     (86400000000000 * ini' <= t <= 86400000000000 * fim')%Z) ->
        limpar_e_filtrar_dados parse_data saida ini' fim'
        = (saida, Retorna saida))
  /\ (forall r m, In r saida -> MOTORISTA r = Some m ->
                  upper m = m /\ strip m = m
                  /\ str_replace VINICIUS VINICIUS_canonico m = m).
Proof.
  intros Hret Hnomes.
  assert (Hdev : devolvidos (snd (limpar_e_filtrar_dados parse_data dados ini fim))
                 = saida) by now rewrite Hret.
  assert (Hne : saida <> []).
  { rewrite limpar_casos in Hret. simpl in Hret.
    destruct (filter _ _); [discriminate|].
    inversion Hret. discriminate. }
  assert (Horig : forall x, In x saida ->
                    exists r t,
                      x = normaliza_linha parse_data r
                      /\ DATA x = Carimbo t
                      /\ (86400000000000 * ini <= t <= 86400000000000 * fim)%Z).
  { intros x Hx. rewrite <- Hdev in Hx. apply In_devolvidos in Hx.
    destruct Hx as (r & t & _ & E & Et & Ht). exists r, t.
    split; [exact E|]. split; [rewrite E; exact Et|].
    unfold to_datetime_date in Ht. lia. }
  assert (Hfix : forall x, In x saida ->
                           normaliza_linha parse_data x = x
                           /\ exists t, DATA x = Carimbo t).
  { intros x Hx. destruct (Horig x Hx) as (r & t & E & Hd & _).
    split; [|now exists t].
    specialize (Hnomes x (padroniza (astype_str (MOTORISTA r))) Hx).
    rewrite E in Hnomes. specialize (Hnomes eq_refl).
    rewrite E in Hd. cbn [DATA normaliza_linha] in Hd.
    rewrite E. unfold normaliza_linha. simpl.
    rewrite (padroniza_estavel _ Hnomes), Hd. reflexivity. }
  assert (Hmap : map (normaliza_linha parse_data) saida = saida).
  { rewrite <- (map_id saida) at 2. apply map_ext_in.
    intros x Hx. apply Hfix, Hx. }
  assert (Hdrop : dropna saida = saida).
  { apply filter_todos. intros x Hx. destruct (Hfix x Hx) as [E (t & Et)].
    rewrite <- E at 1. rewrite Et. reflexivity. }
  assert (Hger : forall ini' fim',
             (forall r t, In r saida -> DATA r = Carimbo t ->
                          (86400000000000 * ini' <= t <= 86400000000000 * fim')%Z) ->
             limpar_e_filtrar_dados parse_data saida ini' fim'
             = (saida, Retorna saida)).
  { intros ini' fim' Hdatas. rewrite limpar_casos. rewrite Hmap, Hdrop.
    assert (Hmask : filter (mask (to_datetime_date ini') (to_datetime_date fim'))
                      saida = saida).
    { apply filter_todos. intros x Hx. destruct (Hfix x Hx) as [_ (t & Et)].
      unfold mask. rewrite Et. specialize (Hdatas x t Hx Et).
      unfold to_datetime_date.
      apply andb_true_iff. split; apply Z.leb_le; lia. }
    rewrite Hmask. destruct saida; [contradiction|reflexivity]. }
  split; [|split; [exact Hger|]].
  - apply Hger. intros x t Hx Et.
    destruct (Horig x Hx) as (r & t' & _ & Et' & Ht). congruence.
  - intros x m Hx Em. destruct (Horig x Hx) as (r & t & E & _ & _).
    rewrite E in Em. cbn [MOTORISTA normaliza_linha] in Em.
    inversion Em.
    split; [apply upper_fixo, padroniza_fixo_upper|].
    split; [apply strip_fixo, padroniza_aparado|].
    exact (@sub_inalterado Unicode.palavra (hd 0%N VINICIUS) (tl VINICIUS)
             eq_refl eq_refl VINICIUS_canonico None _
             (padroniza_sem_VINICIUS (astype_str (MOTORISTA r)))).
Qed.

Lemma normalizacao_estavel_witness :
  snd (limpar_e_filtrar_dados sem_parse viagens_exemplo 19723 19753)
  = Retorna (map (normaliza_linha sem_parse) viagens_exemplo)
  /\ limpar_e_filtrar_dados sem_parse
       (map (normaliza_linha sem_parse) viagens_exemplo) 19723 19753
     = (map (normaliza_linha sem_parse) viagens_exemplo,
        Retorna (map (normaliza_linha sem_parse) viagens_exemplo)).
Proof.
  assert (H : snd (limpar_e_filtrar_dados sem_parse viagens_exemplo 19723 19753)
              = Retorna (map (normaliza_linha sem_parse) viagens_exemplo))
    by reflexivity.
  split; [exact H|].
  assert (Hn : forall r m,
             In r (map (normaliza_linha sem_parse) viagens_exemplo) ->
             MOTORISTA r = Some m ->
             so_em_palavra_maior Unicode.palavra MARCOS_NASCIMENTO None m).
  { intros r m [<-|[<-|[]]] Hm; inversion Hm; subst;
      apply (@ocorre_palavra_maior MARCOS_NASCIMENTO MARCOS);
      try (right; left; reflexivity); reflexivity. }
  exact (proj1 (@normalizacao_estavel sem_parse viagens_exemplo 19723 19753
                  (map (normaliza_linha sem_parse) viagens_exemplo) H Hn)).
Defined.

(** C8, as stated, fails: MARCOS NASCIMENTO NASCIMENTO comes back from a
    first call as MARCOS NASCIMENTO, and from a second call as MARCOS. *)
Lemma idempotencia_falha : ~ normalizador_idempotente.
Proof.
  intros H.
  pose proof (H sem_parse [linha_marcos] 19723%Z 19753%Z
                (devolvidos
                   (snd (limpar_e_filtrar_dados sem_parse [linha_marcos] 19723 19753)))
                19723%Z 19753%Z eq_refl) as E.
  assert (D : forall r t,
             In r (devolvidos
                     (snd (limpar_e_filtrar_dados sem_parse [linha_marcos]
                             19723 19753))) ->
             DATA r = Carimbo t ->
             (to_datetime_date 19723 <= t <= to_datetime_date 19753)%Z).
  { intros r t [<-|[]] Hd. inversion Hd. subst.
    unfold to_datetime_date. lia. }
  specialize (E D). vm_compute in E. discriminate E.
Qed.

Example segunda_passagem_marcos :
  padroniza (txt "MARCOS NASCIMENTO NASCIMENTO") = txt "MARCOS NASCIMENTO"
  /\ padroniza (txt "MARCOS NASCIMENTO") = txt "MARCOS".
Proof. split; vm_compute; reflexivity. Qed.

(* ================================================================== *)
(** * The label of a period and the name of the exported file *)

Lemma doze_meses (k : N) :
  (1 <= k <= 12)%N ->
  (k = 1 \/ k = 2 \/ k = 3 \/ k = 4 \/ k = 5 \/ k = 6
   \/ k = 7 \/ k = 8 \/ k = 9 \/ k = 10 \/ k = 11 \/ k = 12)%N.
Proof. lia. Qed.

Lemma getitem_meses_pt (k : N) :
  (1 <= k <= 12)%N -> exists v, getitem meses_pt k = Valor v.
Proof.
  intros H. apply doze_meses in H.
  repeat (destruct H as [->|H]; [eexists; reflexivity|]).
  subst. eexists. reflexivity.
Qed.

Lemma getitem_meses_pt_fora (k : N) :
  ~ (1 <= k <= 12)%N -> getitem meses_pt k = KeyError k.
Proof.
  intros H. unfold meses_pt, getitem.
  repeat match goal with
         | |- context [(?a =? k)%N] => destruct (N.eqb_spec a k); [lia|]
         end.
  reflexivity.
Qed.

(** No two months share a name. *)
Lemma meses_pt_inj (k k' : N) (v : texto) :
  getitem meses_pt k = Valor v -> getitem meses_pt k' = Valor v -> k = k'.
Proof.
  intros H H'.
  assert (V : (1 <= k <= 12)%N).
  { destruct (N.le_gt_cases 1 k), (N.le_gt_cases k 12); try lia;
      rewrite getitem_meses_pt_fora in H by lia; discriminate. }
  assert (V' : (1 <= k' <= 12)%N).
  { destruct (N.le_gt_cases 1 k'), (N.le_gt_cases k' 12); try lia;
      rewrite getitem_meses_pt_fora in H' by lia; discriminate. }
  apply doze_meses in V. apply doze_meses in V'.
  repeat (destruct V as [->|V]); try subst k;
    vm_compute in H; inversion H; subst v; clear H;
    repeat (destruct V' as [->|V']); try subst k';
    try reflexivity; vm_compute in H'; discriminate H'.
Qed.

Lemma meses_pt_sem_espaco (k : N) (v : texto) :
  getitem meses_pt k = Valor v -> sem_espaco v.
Proof.
  intros H.
  assert (V : (1 <= k <= 12)%N).
  { destruct (N.le_gt_cases 1 k), (N.le_gt_cases k 12); try lia;
      rewrite getitem_meses_pt_fora in H by lia; discriminate. }
  apply doze_meses in V.
  repeat (destruct V as [->|V]); try subst k;
    vm_compute in H; inversion H; subst v;
    repeat constructor; discriminate.
Qed.

Lemma digitos_sem_espaco (d : Decimal.uint) : sem_espaco (digitos d).
Proof.
  induction d; simpl; constructor; try assumption; split; discriminate.
Qed.

Lemma digitos_inj (d d' : Decimal.uint) : digitos d = digitos d' -> d = d'.
Proof.
  revert d'. induction d; intros d' E; destruct d'; simpl in E;
    try discriminate; try reflexivity;
    inversion E as [E']; f_equal; now apply IHd.
Qed.

Lemma str_int_inj (n n' : N) : str_int n = str_int n' -> n = n'.
Proof.
  unfold str_int. intros E. apply DecimalN.Unsigned.to_uint_inj.
  now apply digitos_inj.
Qed.

Lemma str_int_sem_espaco (n : N) : sem_espaco (str_int n).
Proof. apply digitos_sem_espaco. Qed.

(** Where a word stops is told by the first space. *)
Lemma corte_da_palavra (t1 t2 r1 r2 : texto) :
  sem_espaco t1 -> sem_espaco t2 ->
  (r1 = [] \/ exists r, r1 = 32%N :: r) ->
  (r2 = [] \/ exists r, r2 = 32%N :: r) ->
  t1 ++ r1 = t2 ++ r2 -> t1 = t2 /\ r1 = r2.
Proof.
  intros H1. revert t2. induction H1 as [|c t1 Hc Ht1 IH]; intros t2 H2 R1 R2 E.
  - destruct H2 as [|c t2 Hc Ht2]; [auto|]. simpl in E.
    destruct R1 as [->|(r & ->)]; [discriminate|].
    inversion E. subst c. destruct Hc as [Hc _]. now contradiction Hc.
  - destruct H2 as [|c2 t2 Hc2 Ht2].
    + simpl in E. destruct R2 as [->|(r & ->)]; [discriminate|].
      inversion E. subst c. destruct Hc as [Hc _]. now contradiction Hc.
    + simpl in E. inversion E. subst c2.
      destruct (IH t2 Ht2 R1 R2 H1) as [-> ->]. auto.
Qed.

Lemma juntar_cons (p : texto) (resto : list texto) :
  juntar (p :: resto)
  = p ++ match resto with [] => [] | _ :: _ => 32%N :: juntar resto end.
Proof. destruct resto; simpl; [now rewrite app_nil_r | reflexivity]. Qed.

(** A text made of words and single spaces is made of those words only. *)
Lemma juntar_inj (l1 l2 : list texto) :
  l1 <> [] -> l2 <> [] ->
  Forall sem_espaco l1 -> Forall sem_espaco l2 ->
  juntar l1 = juntar l2 -> l1 = l2.
Proof.
  revert l2. induction l1 as [|p r1 IH]; intros l2 N1 N2 F1 F2 E;
    [contradiction|].
  destruct l2 as [|q r2]; [contradiction|].
  rewrite !juntar_cons in E.
  inversion F1 as [|? ? Hp Hr1]; inversion F2 as [|? ? Hq Hr2]; subst.
  apply corte_da_palavra in E; auto.
  - destruct E as [-> E]. f_equal.
    destruct r1 as [|x r1], r2 as [|y r2]; try discriminate; [reflexivity|].
    inversion E as [E']. apply IH; auto; discriminate.
  - destruct r1; [now left | right; eauto].
  - destruct r2; [now left | right; eauto].
Qed.

(** The words of a label, in its three forms. *)
Lemma nome_periodo_palavras (a b : date) :
  mes_valido a -> mes_valido b ->
  exists mes_i mes_f,
    getitem meses_pt (month a) = Valor mes_i
    /\ getitem meses_pt (month b) = Valor mes_f
    /\ gerar_nome_periodo a b
       = Valor (juntar
                  (if (year a =? year b)%N then
                     if (month a =? month b)%N then
                       [str_int (day a); txt "a"; str_int (day b); txt "de";
                        mes_i; txt "de"; str_int (year a)]
                     else
                       [str_int (day a); txt "de"; mes_i; txt "a";
                        str_int (day b); txt "de"; mes_f; txt "de";
                        str_int (year a)]
                   else
                     [str_int (day a); txt "de"; mes_i; txt "de";
                      str_int (year a); txt "a"; str_int (day b); txt "de";
                      mes_f; txt "de"; str_int (year b)])).
Proof.
  intros Va Vb.
  destruct (getitem_meses_pt Va) as (mi & Ei).
  destruct (getitem_meses_pt Vb) as (mf & Ef).
  exists mi, mf. split; [exact Ei|]. split; [exact Ef|].
  unfold gerar_nome_periodo. rewrite Ei, Ef.
  assert (Em : texto_eqb mi mf = (month a =? month b)%N).
  { destruct (N.eqb_spec (month a) (month b)) as [E|E].
    - apply texto_eqb_eq. rewrite E in Ei. congruence.
    - apply texto_eqb_neq. intros ->. apply E. exact (meses_pt_inj _ _ Ei Ef). }
  rewrite Em.
  destruct (year a =? year b)%N; [destruct (month a =? month b)%N|];
    f_equal; simpl juntar; repeat rewrite <- app_assoc; reflexivity.
Qed.

(** X1. For two dates [gerar_nome_periodo] never raises [KeyError]: it
    returns a label of 7, 9 or 11 words with single spaces between them,
    the form being chosen by whether the years and the month numbers are
    equal. *)
Theorem nome_periodo_forma (a b : date) :
  mes_valido a -> mes_valido b ->
  exists mes_i mes_f,
    getitem meses_pt (month a) = Valor mes_i
    /\ getitem meses_pt (month b) = Valor mes_f
    /\ gerar_nome_periodo a b
       = Valor (juntar
                  (if (year a =? year b)%N then
                     if (month a =? month b)%N then
                       [str_int (day a); txt "a"; str_int (day b); txt "de";
                        mes_i; txt "de"; str_int (year a)]
                     else
                       [str_int (day a); txt "de"; mes_i; txt "a";
                        str_int (day b); txt "de"; mes_f; txt "de";
                        str_int (year a)]
                   else
                     [str_int (day a); txt "de"; mes_i; txt "de";
                      str_int (year a); txt "a"; str_int (day b); txt "de";
                      mes_f; txt "de"; str_int (year b)])).
Proof. apply nome_periodo_palavras. Qed.

Lemma nome_periodo_forma_witness :
  mes_valido dia_5_jan /\ mes_valido dia_3_mar
  /\ gerar_nome_periodo dia_5_jan dia_3_mar
     = Valor (txt "5 de Janeiro a 3 de Março de 2024").
Proof.
  assert (Va : mes_valido dia_5_jan) by (unfold mes_valido; simpl; lia).
  assert (Vb : mes_valido dia_3_mar) by (unfold mes_valido; simpl; lia).
  split; [exact Va|]. split; [exact Vb|].
  destruct (@nome_periodo_forma dia_5_jan dia_3_mar Va Vb)
    as (mi & mf & Ei & Ef & E).
  rewrite E. vm_compute in Ei, Ef. inversion Ei. inversion Ef.
  vm_compute. reflexivity.
Defined.

Lemma palavras_sem_espaco (a b : date) (mi mf : texto) :
  sem_espaco mi -> sem_espaco mf ->
  Forall sem_espaco
    (if (year a =? year b)%N then
       if (month a =? month b)%N then
         [str_int (day a); txt "a"; str_int (day b); txt "de";
          mi; txt "de"; str_int (year a)]
       else
         [str_int (day a); txt "de"; mi; txt "a";
          str_int (day b); txt "de"; mf; txt "de";
          str_int (year a)]
     else
       [str_int (day a); txt "de"; mi; txt "de";
        str_int (year a); txt "a"; str_int (day b); txt "de";
        mf; txt "de"; str_int (year b)]).
Proof.
  intros Hi Hf.
  assert (Ha : sem_espaco (txt "a")) by (repeat constructor; discriminate).
  assert (Hde : sem_espaco (txt "de")) by (repeat constructor; discriminate).
  destruct (year a =? year b)%N; [destruct (month a =? month b)%N|];
    repeat (apply Forall_cons; [auto using str_int_sem_espaco|]);
    apply Forall_nil.
Qed.

Lemma nome_periodo_inj (a b a' b' : date) (s : texto) :
  mes_valido a -> mes_valido b -> mes_valido a' -> mes_valido b' ->
  gerar_nome_periodo a b = Valor s ->
  gerar_nome_periodo a' b' = Valor s ->
  a = a' /\ b = b'.
Proof.
  intros Va Vb Va' Vb' E E'.
  destruct (nome_periodo_palavras Va Vb) as (mi & mf & Ei & Ef & F).
  destruct (nome_periodo_palavras Va' Vb') as (mi' & mf' & Ei' & Ef' & F').
  rewrite F in E. rewrite F' in E'. rewrite <- E' in E. clear E' F F' s.
  inversion E as [J]. clear E.
  assert (Si := meses_pt_sem_espaco _ Ei).
  assert (Sf := meses_pt_sem_espaco _ Ef).
  assert (Si' := meses_pt_sem_espaco _ Ei').
  assert (Sf' := meses_pt_sem_espaco _ Ef').
  apply juntar_inj in J;
    [ | destruct (year a =? year b)%N; [destruct (month a =? month b)%N|];
        discriminate
      | destruct (year a' =? year b')%N; [destruct (month a' =? month b')%N|];
        discriminate
      | now apply palavras_sem_espaco
      | now apply palavras_sem_espaco ].
  destruct a as [ya ma da], b as [yb mb db],
           a' as [ya' ma' da'], b' as [yb' mb' db'].
  cbn [year month day] in *.
  destruct (N.eqb_spec ya yb) as [Ey|Ey];
    [destruct (N.eqb_spec ma mb) as [Em|Em]|];
    (destruct (N.eqb_spec ya' yb') as [Ey'|Ey'];
     [destruct (N.eqb_spec ma' mb') as [Em'|Em']|]);
    inversion J; subst;
    repeat match goal with
           | H : str_int _ = str_int _ |- _ => apply str_int_inj in H
           end;
    subst;
    repeat match goal with
           | H1 : getitem meses_pt ?k = Valor ?v,
             H2 : getitem meses_pt ?k' = Valor ?v |- _ =>
               lazymatch k with
               | k' => fail
               | _ => assert (k = k') by exact (meses_pt_inj _ _ H1 H2); subst
               end
           end;
    auto.
Qed.

(** X2. The label tells the period: two pairs of dates with the same
    label are the same pair. *)
Theorem nome_periodo_identifica (a b a' b' : date) (s : texto) :
  mes_valido a -> mes_valido b -> mes_valido a' -> mes_valido b' ->
  gerar_nome_periodo a b = Valor s ->
  gerar_nome_periodo a' b' = Valor s ->
  a = a' /\ b = b'.
Proof. apply nome_periodo_inj. Qed.

Lemma nome_periodo_identifica_witness :
  mes_valido dia_5_jan /\ mes_valido dia_6_jan
  /\ gerar_nome_periodo dia_5_jan dia_6_jan
     = Valor (txt "5 a 6 de Janeiro de 2024")
  /\ (dia_5_jan = dia_5_jan /\ dia_6_jan = dia_6_jan).
Proof.
  assert (Va : mes_valido dia_5_jan) by (unfold mes_valido; simpl; lia).
  assert (Vb : mes_valido dia_6_jan) by (unfold mes_valido; simpl; lia).
  assert (E : gerar_nome_periodo dia_5_jan dia_6_jan
              = Valor (txt "5 a 6 de Janeiro de 2024")) by reflexivity.
  split; [exact Va|]. split; [exact Vb|]. split; [exact E|].
  exact (@nome_periodo_identifica dia_5_jan dia_6_jan dia_5_jan dia_6_jan _
           Va Vb Va Vb E E).
Defined.

Lemma replace_char_app (old new : N) (s t : texto) :
  replace_char old new (s ++ t) = replace_char old new s ++ replace_char old new t.
Proof. apply map_app. Qed.

Lemma replace_char_volta (s : texto) :
  Forall (fun c => c <> 95%N) s ->
  replace_char 95 32 (replace_char 32 95 s) = s.
Proof.
  induction 1 as [|c s Hc Hs IH]; simpl; [reflexivity|].
  rewrite IH. f_equal.
  destruct (N.eqb_spec c 32) as [->|H32]; [reflexivity|].
  destruct (N.eqb_spec c 95); [contradiction|reflexivity].
Qed.

Lemma replace_char_sem_espaco (s : texto) :
  Forall (fun c => c <> 32%N) (replace_char 32 95 s).
Proof.
  induction s as [|c s IH]; simpl; constructor; [|exact IH].
  destruct (N.eqb_spec c 32); [discriminate|assumption].
Qed.

Lemma juntar_sem_sublinhado (ws : list texto) :
  Forall sem_espaco ws -> Forall (fun c => c <> 95%N) (juntar ws).
Proof.
  induction 1 as [|p ws Hp Hws IH]; [constructor|].
  rewrite juntar_cons. apply Forall_app. split.
  - unfold sem_espaco in Hp. rewrite Forall_forall in *. intros c Hc.
    now apply Hp.
  - destruct ws; [constructor|]. constructor; [discriminate|exact IH].
Qed.

Lemma nome_periodo_sem_sublinhado (a b : date) (s : texto) :
  mes_valido a -> mes_valido b ->
  gerar_nome_periodo a b = Valor s ->
  Forall (fun c => c <> 95%N) s.
Proof.
  intros Va Vb E.
  destruct (nome_periodo_palavras Va Vb) as (mi & mf & Ei & Ef & F).
  rewrite F in E. inversion E. apply juntar_sem_sublinhado.
  apply palavras_sem_espaco; eapply meses_pt_sem_espaco; eassumption.
Qed.

(** X3. The name of the exported file is the fixed prefix, the label with
    each space turned into an underscore, and [.xlsx]; it holds no space,
    and two periods with the same file name are the same period. *)
Theorem nome_arquivo_identifica (a b a' b' : date) (s s' : texto) :
  mes_valido a -> mes_valido b -> mes_valido a' -> mes_valido b' ->
  gerar_nome_periodo a b = Valor s ->
  gerar_nome_periodo a' b' = Valor s' ->
  nome_arquivo_excel s
  = txt "Bonus_Motoristas_Logarte_" ++ replace_char 32 95 s ++ txt ".xlsx"
  /\ Forall (fun c => c <> 32%N) (nome_arquivo_excel s)
  /\ (nome_arquivo_excel s = nome_arquivo_excel s' -> a = a' /\ b = b').
Proof.
  intros Va Vb Va' Vb' E E'.
  assert (F : forall t, nome_arquivo_excel t
                        = txt "Bonus_Motoristas_Logarte_"
                          ++ replace_char 32 95 t ++ txt ".xlsx").
  { intros t. unfold nome_arquivo_excel. now rewrite !replace_char_app. }
  split; [apply F|]. split; [apply replace_char_sem_espaco|].
  intros H. rewrite !F in H.
  apply app_inv_head, app_inv_tail in H.
  apply (f_equal (replace_char 95 32)) in H.
  rewrite (replace_char_volta (nome_periodo_sem_sublinhado Va Vb E)),
          (replace_char_volta (nome_periodo_sem_sublinhado Va' Vb' E')) in H.
  subst s'. exact (nome_periodo_inj Va Vb Va' Vb' E E').
Qed.

Lemma nome_arquivo_identifica_witness :
  mes_valido dia_5_jan /\ mes_valido dia_2_fev_25
  /\ gerar_nome_periodo dia_5_jan dia_2_fev_25
     = Valor (txt "5 de Janeiro de 2024 a 2 de Fevereiro de 2025")
  /\ nome_arquivo_excel (txt "5 de Janeiro de 2024 a 2 de Fevereiro de 2025")
     = txt "Bonus_Motoristas_Logarte_5_de_Janeiro_de_2024_a_2_de_Fevereiro_de_2025.xlsx".
Proof.
  assert (Va : mes_valido dia_5_jan) by (unfold mes_valido; simpl; lia).
  assert (Vb : mes_valido dia_2_fev_25) by (unfold mes_valido; simpl; lia).
  assert (E : gerar_nome_periodo dia_5_jan dia_2_fev_25
              = Valor (txt "5 de Janeiro de 2024 a 2 de Fevereiro de 2025"))
    by reflexivity.
  split; [exact Va|]. split; [exact Vb|]. split; [exact E|].
  rewrite (proj1 (@nome_arquivo_identifica _ _ _ _ _ _ Va Vb Va Vb E E)).
  reflexivity.
Defined.

(* ================================================================== *)
(** * Order and lines of the two summaries *)

Section SortSorted.

Variable R : Type.
Variable col : R -> Q.

Let acima (a b : R) : Prop := col b <= col a.

Lemma insere_desc_sorted (x : R) (l : list R) :
  StronglySorted acima l -> StronglySorted acima (insere_desc col x l).
Proof.
  induction 1 as [|y l Hs IH Hy]; simpl.
  - constructor; constructor.
  - destruct (Qle_bool (col y) (col x)) eqn:E.
    + apply Qle_bool_iff in E. constructor; [now constructor|].
      constructor; [exact E|].
      rewrite Forall_forall in *. intros z Hz. unfold acima in *.
      apply Qle_trans with (col y); [now apply Hy | exact E].
    + assert (L : col x < col y).
      { apply Qnot_le_lt. intros H. apply Qle_bool_iff in H. congruence. }
      constructor; [exact IH|].
      rewrite Forall_forall in *. intros z Hz.
      apply (Permutation_in _ (insere_desc_perm col x l)) in Hz.
      destruct Hz as [<-|Hz]; [now apply Qlt_le_weak | now apply Hy].
Qed.

Lemma sort_values_desc_sorted (l : list R) :
  StronglySorted acima (sort_values_desc col l).
Proof.
  induction l as [|x l IH]; simpl; [constructor | now apply insere_desc_sorted].
Qed.

End SortSorted.

Lemma NoDup_map_perm (A B : Type) (f : A -> B) (l l' : list A) :
  Permutation l l' -> NoDup (map f l') -> NoDup (map f l).
Proof.
  intros P H. apply (Permutation_NoDup (l := map f l')); [|exact H].
  apply Permutation_map. now symmetry.
Qed.

Lemma bonus_motorista_linhas (df : frame) :
  StronglySorted (fun a b => m_BONUS b <= m_BONUS a)
    (bonus_motorista (calcular_bonus df))
  /\ NoDup (map m_MOTORISTA (bonus_motorista (calcular_bonus df)))
  /\ (forall d, In d (map m_MOTORISTA (bonus_motorista (calcular_bonus df)))
                <-> exists r, In r df /\ MOTORISTA r = Some d).
Proof.
  assert (E : map m_MOTORISTA
                (map agg_motorista
                   (groupby texto_compare chave_motorista (com_bonus df)))
              = chaves texto_compare chave_motorista (com_bonus df)).
  { unfold groupby. rewrite !map_map. simpl. apply map_id. }
  split; [|split].
  - apply sort_values_desc_sorted.
  - unfold calcular_bonus, agrega_motorista. simpl.
    apply (NoDup_map_perm _ (sort_values_desc_perm m_BONUS _)).
    rewrite E.
    apply (chaves_NoDup texto_compare chave_motorista texto_compare_eq
             texto_compare_antisym texto_compare_trans).
  - intros d. unfold calcular_bonus, agrega_motorista. simpl.
    assert (P : In d (map m_MOTORISTA
                        (sort_values_desc m_BONUS
                           (map agg_motorista
                              (groupby texto_compare chave_motorista (com_bonus df)))))
                <-> In d (chaves texto_compare chave_motorista (com_bonus df))).
    { rewrite <- E. split; apply Permutation_in, Permutation_map;
        [apply sort_values_desc_perm | symmetry; apply sort_values_desc_perm]. }
    rewrite P, (In_chaves texto_compare chave_motorista texto_compare_eq).
    split.
    + intros (reg & Hreg & Hk). apply BONUS_com_bonus in Hreg.
      exists (base reg). tauto.
    + intros (r & Hr & Hm).
      exists {| base := r; BONUS := bonus_da_linha r |}. split; [|exact Hm].
      rewrite com_bonus_map. apply in_map_iff. eauto.
Qed.

(** X4. The per-driver summary comes in decreasing order of BÔNUS and
    holds one line for each driver of the frame and no other: two lines
    never share a driver. *)
Theorem bonus_motorista_ordenado (df : frame) :
  StronglySorted (fun a b => m_BONUS b <= m_BONUS a)
    (bonus_motorista (calcular_bonus df))
  /\ NoDup (map m_MOTORISTA (bonus_motorista (calcular_bonus df)))
  /\ (forall d, In d (map m_MOTORISTA (bonus_motorista (calcular_bonus df)))
                <-> exists r, In r df /\ MOTORISTA r = Some d).
Proof. exact (bonus_motorista_linhas df). Qed.

(** X5. The per-cost-centre summary comes in decreasing order of its
    bonus total and holds one line for each cost centre of the frame and
    no other; rows with no cost centre have no line. *)
Theorem resumo_centro_ordenado (df : frame) :
  StronglySorted (fun a b => c_BONUS_TOTAL b <= c_BONUS_TOTAL a)
    (resumo_centro_custo (calcular_bonus df))
  /\ NoDup (map c_CENTRO (resumo_centro_custo (calcular_bonus df)))
  /\ (forall c, In c (map c_CENTRO (resumo_centro_custo (calcular_bonus df)))
                <-> exists r, In r df /\ CENTRO_DE_CUSTO r = Some c).
Proof.
  assert (E : map c_CENTRO
                (map agg_centro
                   (groupby texto_compare chave_centro (com_bonus df)))
              = chaves texto_compare chave_centro (com_bonus df)).
  { unfold groupby. rewrite !map_map. simpl. apply map_id. }
  split; [|split].
  - apply sort_values_desc_sorted.
  - unfold calcular_bonus, agrega_centro. simpl.
    apply (NoDup_map_perm _ (sort_values_desc_perm c_BONUS_TOTAL _)).
    rewrite E.
    apply (chaves_NoDup texto_compare chave_centro texto_compare_eq
             texto_compare_antisym texto_compare_trans).
  - intros c. unfold calcular_bonus, agrega_centro. simpl.
    assert (P : In c (map c_CENTRO
                        (sort_values_desc c_BONUS_TOTAL
                           (map agg_centro
                              (groupby texto_compare chave_centro (com_bonus df)))))
                <-> In c (chaves texto_compare chave_centro (com_bonus df))).
    { rewrite <- E. split; apply Permutation_in, Permutation_map;
        [apply sort_values_desc_perm | symmetry; apply sort_values_desc_perm]. }
    rewrite P, (In_chaves texto_compare chave_centro texto_compare_eq).
    split.
    + intros (reg & Hreg & Hk). apply BONUS_com_bonus in Hreg.
      exists (base reg). tauto.
    + intros (r & Hr & Hm).
      exists {| base := r; BONUS := bonus_da_linha r |}. split; [|exact Hm].
      rewrite com_bonus_map. apply in_map_iff. eauto.
Qed.

(** X6. The detailed table holds one row for each pair of driver and cost
    centre that some row of the frame carries, and no other, in strictly
    increasing order of the pair (driver first). *)
Theorem tabela_uma_linha_por_par (df : frame) :
  StronglySorted (fun a b => par_compare a b = Lt)
    (map indice (tabela (calcular_bonus df)))
  /\ NoDup (map indice (tabela (calcular_bonus df)))
  /\ (forall d c,
        In (d, c) (map indice (tabela (calcular_bonus df)))
        <-> exists r, In r df /\ MOTORISTA r = Some d
                      /\ CENTRO_DE_CUSTO r = Some c).
Proof.
  rewrite indice_tabela. split; [|split].
  - apply (chaves_sorted par_compare chave_par par_compare_eq
             par_compare_antisym par_compare_trans).
  - apply (chaves_NoDup par_compare chave_par par_compare_eq
             par_compare_antisym par_compare_trans).
  - intros d c. rewrite (In_chaves par_compare chave_par par_compare_eq).
    split.
    + intros (reg & Hreg & Hk). apply BONUS_com_bonus in Hreg.
      exists (base reg). split; [tauto|]. unfold chave_par in Hk.
      destruct (MOTORISTA (base reg)), (CENTRO_DE_CUSTO (base reg));
        try discriminate.
      inversion Hk. auto.
    + intros (r & Hr & Hm & Hc).
      exists {| base := r; BONUS := bonus_da_linha r |}. split.
      * rewrite com_bonus_map. apply in_map_iff. eauto.
      * unfold chave_par. simpl. now rewrite Hm, Hc.
Qed.

(* ================================================================== *)
(** * Sign and size of the rounding *)

Lemma rint_perto (x : Q) :
  x - (1 # 2) <= inject_Z (rint x) /\ inject_Z (rint x) <= x + (1 # 2).
Proof.
  assert (Hl := Qfloor_le x). assert (Hu := Qlt_floor x).
  rewrite inject_Z_plus in Hu. change (inject_Z 1) with 1 in Hu.
  unfold rint.
  destruct (Qcompare (x - inject_Z (Qfloor x)) (1 # 2)) eqn:E.
  - apply Qeq_alt in E.
    destruct (Z.even (Qfloor x));
      [|rewrite inject_Z_plus; change (inject_Z 1) with 1]; lra.
  - apply Qlt_alt in E. lra.
  - apply Qgt_alt in E. rewrite inject_Z_plus. change (inject_Z 1) with 1. lra.
Qed.

(* ================================================================== *)
(** * The BÔNUS column in binary64 *)

Lemma F64_np_select_linhas (df : list F64.linha) (c1 c2 : F64.linha -> bool)
    (x1 x2 : F64.linha -> F64.float64) (d : F64.float64) :
  F64.np_select [map c1 df; map c2 df] [map x1 df; map x2 df] d (List.length df)
  = map (fun r => F64.escolhe [c1 r; c2 r] [x1 r; x2 r] d) df.
Proof.
  unfold F64.np_select. induction df as [|r df IH]; simpl.
  - reflexivity.
  - f_equal. rewrite <- seq_shift, map_map. exact IH.
Qed.

Lemma F64_coluna_bonus_map (df : list F64.linha) :
  F64.coluna_bonus df = map F64.bonus_da_linha df.
Proof.
  unfold F64.coluna_bonus. rewrite F64_np_select_linhas, map_map. reflexivity.
Qed.

Section Binary64.

Local Open Scope Z_scope.

Lemma digits_size (p : positive) : digits2_pos p = Pos.size p.
Proof. induction p; simpl; congruence. Qed.

Lemma digitos_cota (p : positive) :
  2 ^ (Zpos (digits2_pos p) - 1) <= Zpos p < 2 ^ Zpos (digits2_pos p).
Proof.
  rewrite digits_size.
  pose proof (Pos.size_gt p) as G. pose proof (Pos.size_le p) as L.
  apply Pos2Z.pos_lt_pos in G. apply Pos2Z.pos_le_pos in L.
  rewrite Pos2Z.inj_pow in G, L. change (Zpos 2) with 2 in *.
  change (Z.pos p~0) with (2 * Z.pos p) in L.
  split; [|exact G].
  assert (E : 2 ^ Zpos (Pos.size p) = 2 * 2 ^ (Zpos (Pos.size p) - 1)).
  { rewrite <- Z.pow_succ_r by lia. f_equal. lia. }
  lia.
Qed.

Lemma digitos_menor (q : positive) (n : Z) :
  0 <= n -> Zpos q < 2 ^ n -> Zpos (digits2_pos q) <= n.
Proof.
  intros Hn Hq. destruct (digitos_cota q) as [L _].
  destruct (Z.le_gt_cases (Zpos (digits2_pos q)) n) as [H|H]; [exact H|].
  exfalso.
  assert (2 ^ n <= 2 ^ (Zpos (digits2_pos q) - 1))
    by (apply Z.pow_le_mono_r; lia).
  lia.
Qed.

Lemma Zdigits2_cota (q : Z) : 0 <= q -> 0 <= Zdigits2 q /\ q < 2 ^ Zdigits2 q.
Proof.
  destruct q as [|p|p]; intros H; [|cbn [Zdigits2]|lia].
  - split; [reflexivity|reflexivity].
  - split; [lia|apply digitos_cota].
Qed.

Lemma iter_pos_nat (A : Type) (f : A -> A) (n : positive) (x : A) :
  iter_pos f n x = Nat.iter (Pos.to_nat n) f x.
Proof.
  revert x. induction n as [n IH|n IH|]; intros x; cbn [iter_pos].
  - rewrite !IH. rewrite Pos2Nat.inj_xI.
    replace (S (2 * Pos.to_nat n))%nat with (Pos.to_nat n + (Pos.to_nat n + 1))%nat by lia.
    rewrite !Nat.iter_add. reflexivity.
  - rewrite !IH. rewrite Pos2Nat.inj_xO.
    replace (2 * Pos.to_nat n)%nat with (Pos.to_nat n + Pos.to_nat n)%nat by lia.
    rewrite Nat.iter_add. reflexivity.
  - reflexivity.
Qed.

Lemma resto_shr_1 (H X : Z) (mrs : shr_record) :
  0 < H -> F64.resto_shr H X mrs -> F64.resto_shr (2 * H) X (shr_1 mrs).
Proof.
  destruct mrs as [m r s]. unfold F64.resto_shr. cbn [shr_m shr_r shr_s].
  intros HP (Hm & Hr & Er & Es).
  set (rho := X - m * (2 * H)) in *.
  assert (Hs' : orb r s = true <-> rho <> 0).
  { rewrite orb_true_iff, Er, Es. split; [lia|].
    intros N. destruct (Z.le_gt_cases H rho) as [L|G]; [now left|right]. lia. }
  destruct m as [|p|p]; [| |lia].
  - unfold shr_1. cbn [shr_m shr_r shr_s].
    replace (X - 0 * (2 * (2 * H))) with rho by (unfold rho; ring).
    rewrite Hs'. repeat split; try lia; intros; discriminate.
  - destruct p as [p|p|]; unfold shr_1; cbn [shr_m shr_r shr_s].
    + replace (X - Zpos p * (2 * (2 * H))) with (rho + 2 * H)
        by (unfold rho; rewrite (Pos2Z.inj_xI p); ring).
      rewrite Hs'. repeat split; try lia.
    + replace (X - Zpos p * (2 * (2 * H))) with rho
        by (unfold rho; rewrite (Pos2Z.inj_xO p); ring).
      rewrite Hs'. repeat split; try lia; intros; discriminate.
    + replace (X - 0 * (2 * (2 * H))) with (rho + 2 * H) by (unfold rho; ring).
      rewrite Hs'. repeat split; try lia.
Qed.

Lemma resto_iter (k : nat) (H X : Z) (mrs : shr_record) :
  0 < H -> F64.resto_shr H X mrs ->
  F64.resto_shr (H * 2 ^ Z.of_nat k) X (Nat.iter k shr_1 mrs).
Proof.
  intros HP R. induction k as [|k IH].
  - unfold Nat.iter. cbn [nat_rect Z.of_nat]. change (2 ^ 0) with 1.
    now rewrite Z.mul_1_r.
  - change (Nat.iter (S k) shr_1 mrs) with (shr_1 (Nat.iter k shr_1 mrs)).
    rewrite Nat2Z.inj_succ, Z.pow_succ_r by lia.
    replace (H * (2 * 2 ^ Z.of_nat k)) with (2 * (H * 2 ^ Z.of_nat k)) by ring.
    apply resto_shr_1; [|exact IH].
    apply Z.mul_pos_pos; [exact HP|apply Z.pow_pos_nonneg; lia].
Qed.

Lemma resto_iter_pos (p : positive) (H X : Z) (mrs : shr_record) :
  0 < H -> F64.resto_shr H X mrs ->
  F64.resto_shr (H * 2 ^ Zpos p) X (iter_pos shr_1 p mrs).
Proof.
  intros HP R. rewrite iter_pos_nat, <- (positive_nat_Z p).
  now apply resto_iter.
Qed.

(** Rounding to nearest even what the record keeps: at most half a unit
    away, and the whole part or the next. *)
Lemma arredonda_resto (H X : Z) (mrs : shr_record) :
  0 < H -> F64.resto_shr H X mrs ->
  let m1 := round_nearest_even (shr_m mrs) (loc_of_shr_record mrs) in
  shr_m mrs <= m1 <= shr_m mrs + 1
  /\ Z.abs (X - m1 * (2 * H)) <= H.
Proof.
  destruct mrs as [m r s]. unfold F64.resto_shr. cbn [shr_m shr_r shr_s].
  intros HP (Hm & Hr & Er & Es).
  set (rho := X - m * (2 * H)) in *.
  destruct r, s; cbn [loc_of_shr_record round_nearest_even].
  - assert (H <= rho) by now apply Er.
    split; [lia|].
    replace (X - (m + 1) * (2 * H)) with (rho - 2 * H) by (unfold rho; ring). lia.
  - assert (H <= rho) by now apply Er.
    assert (rho = H).
    { destruct (Z.eq_dec rho H) as [E|N]; [exact E|].
      assert (false = true) by (apply Es; lia). discriminate. }
    destruct (Z.even m).
    + split; [lia|]. fold rho. lia.
    + split; [lia|].
      replace (X - (m + 1) * (2 * H)) with (rho - 2 * H) by (unfold rho; ring). lia.
  - assert (~ H <= rho) by (intros L; apply Er in L; discriminate).
    split; [lia|]. fold rho. lia.
  - assert (~ H <= rho) by (intros L; apply Er in L; discriminate).
    split; [lia|]. fold rho. lia.
Qed.

Lemma fexp_def (x : Z) : fexp 53 1024 x = Z.max (x - 53) (-1074).
Proof. reflexivity. Qed.

(** The last step of the rounding: a mantissa of 53 bits at most is
    kept, and 2^53 becomes 2^52 with the next exponent. *)
Lemma segunda_etapa (s : bool) (m1 e1 : Z) (s' : bool) (m : positive) (e : Z) :
  0 <= m1 <= 2 ^ 53 -> -1074 <= e1 ->
  (let '(mrs, e2) := shr_fexp 53 1024 m1 e1 loc_Exact in
   match shr_m mrs with
   | Z0 => S754_zero s
   | Zpos m => if e2 <=? 1024 - 53 then S754_finite s m e2 else S754_infinity s
   | Zneg _ => S754_nan
   end) = S754_finite s' m e ->
  s' = s /\ e1 <= e /\ Zpos m * 2 ^ (e - e1) = m1 /\ Zpos m < 2 ^ 53.
Proof.
  intros Hm1 He1. unfold shr_fexp. rewrite fexp_def.
  destruct m1 as [|q|q]; [| |lia].
  - cbn [Zdigits2].
    destruct (Z.max (0 + e1 - 53) (-1074) - e1) eqn:Ek; try lia;
      unfold shr; cbn [shr_record_of_loc shr_m]; discriminate.
  - cbn [Zdigits2].
    destruct (Z.eq_dec (Zpos q) (2 ^ 53)) as [Eq|Nq].
    + change (2 ^ 53) with 9007199254740992 in Eq. inversion Eq. subst q.
      cbn [digits2_pos Pos.succ].
      replace (Z.max (54 + e1 - 53) (-1074) - e1) with 1 by lia.
      unfold shr. cbn [shr_record_of_loc iter_pos shr_1 shr_m].
      destruct (e1 + 1 <=? 1024 - 53); [|discriminate].
      intros Hfin. inversion Hfin. subst.
      split; [reflexivity|]. split; [lia|].
      replace (e1 + 1 - e1) with 1 by lia. split; reflexivity.
    + assert (Lq : Zpos q < 2 ^ 53) by lia.
      assert (Dq : Zpos (digits2_pos q) <= 53) by (apply digitos_menor; lia).
      destruct (Z.max (Zpos (digits2_pos q) + e1 - 53) (-1074) - e1) eqn:Ek2;
        try lia; unfold shr; cbn [shr_record_of_loc shr_m];
        (destruct (e1 <=? 1024 - 53); [|discriminate]);
        intros Hfin; inversion Hfin; subst;
        (split; [reflexivity|]); (split; [lia|]);
        rewrite Z.sub_diag; change (2 ^ 0) with 1; (split; [lia|exact Lq]).
Qed.

Lemma loc_de_registro (q : Z) (l : location) :
  loc_of_shr_record (shr_record_of_loc q l) = l /\ shr_m (shr_record_of_loc q l) = q.
Proof. destruct l as [|[| |]]; split; reflexivity. Qed.

(** The rounding of a mantissa [q] at the location [lz], which stand for
    the number [X / (2 * H)]: the result is at most half a unit of its
    last place away from that number. *)
Lemma arredonda_geral (s : bool) (q e0 : Z) (lz : location) (H X : Z)
    (s' : bool) (m : positive) (e : Z) :
  0 < H ->
  F64.resto_shr H X (shr_record_of_loc q lz) ->
  binary_round_aux 53 1024 s q e0 lz = S754_finite s' m e ->
  s' = s /\ e0 <= e
  /\ Z.abs (X - Zpos m * (2 * (H * 2 ^ (e - e0)))) <= H * 2 ^ (e - e0)
  /\ Zpos m < 2 ^ 53.
Proof.
  intros HP R0. unfold binary_round_aux.
  assert (Hq : 0 <= q).
  { destruct R0 as (Hq & _). now rewrite (proj2 (loc_de_registro q lz)) in Hq. }
  assert (HX : X < (q + 1) * (2 * H)).
  { destruct R0 as (_ & HX & _). rewrite (proj2 (loc_de_registro q lz)) in HX. lia. }
  destruct (@Zdigits2_cota q Hq) as [Hd0 Hd].
  unfold shr_fexp at 1. rewrite fexp_def.
  set (d := Zdigits2 q) in *.
  set (f := Z.max (d + e0 - 53) (-1074)).
  assert (Etapa1 :
    exists mrs e1 j,
      shr (shr_record_of_loc q lz) e0 (f - e0) = (mrs, e1)
      /\ 0 <= j /\ e1 = e0 + j /\ -1074 <= e1 /\ d <= j + 53
      /\ F64.resto_shr (H * 2 ^ j) X mrs).
  { unfold shr. destruct (f - e0) as [|p|p] eqn:Ek.
    - exists (shr_record_of_loc q lz), e0, 0.
      change (2 ^ 0) with 1. rewrite Z.mul_1_r.
      split; [reflexivity|]. split; [lia|]. split; [lia|]. split; [lia|].
      split; [lia|exact R0].
    - exists (iter_pos shr_1 p (shr_record_of_loc q lz)), (e0 + Zpos p), (Zpos p).
      split; [reflexivity|]. split; [lia|]. split; [lia|]. split; [lia|].
      split; [lia|now apply resto_iter_pos].
    - exists (shr_record_of_loc q lz), e0, 0.
      change (2 ^ 0) with 1. rewrite Z.mul_1_r.
      split; [reflexivity|]. split; [lia|]. split; [lia|]. split; [lia|].
      split; [lia|exact R0]. }
  destruct Etapa1 as (mrs & e1 & j & E1 & Hj & Ee1 & He1 & Hdj & R).
  rewrite E1.
  assert (P0 : 0 < 2 ^ j) by (apply Z.pow_pos_nonneg; lia).
  assert (HP1 : 0 < H * 2 ^ j) by (apply Z.mul_pos_pos; lia).
  pose proof (@arredonda_resto _ _ _ HP1 R) as A. cbv zeta in A.
  set (m1 := round_nearest_even (shr_m mrs) (loc_of_shr_record mrs)) in *.
  destruct A as (B1 & B2).
  assert (Rm : 0 <= shr_m mrs) by apply R.
  assert (RX : shr_m mrs * (2 * (H * 2 ^ j)) <= X) by (destruct R as (_ & RX & _); lia).
  assert (Hm1 : m1 <= 2 ^ 53).
  { assert (Hp : 2 ^ d <= 2 ^ (j + 53)) by (apply Z.pow_le_mono_r; lia).
    rewrite Z.pow_add_r in Hp by lia.
    assert (q + 1 <= 2 ^ j * 2 ^ 53) by lia.
    assert (shr_m mrs * (2 * (H * 2 ^ j)) < (2 ^ j * 2 ^ 53) * (2 * H)) by nia.
    assert (shr_m mrs < 2 ^ 53) by nia. lia. }
  intros Hfin. apply segunda_etapa in Hfin; [|lia|exact He1].
  destruct Hfin as (-> & Le & Em & Lm).
  split; [reflexivity|]. split; [lia|]. split; [|exact Lm].
  replace (e - e0) with (j + (e - e1)) by lia.
  rewrite Z.pow_add_r by lia.
  assert (P1 : 0 < 2 ^ (e - e1)) by (apply Z.pow_pos_nonneg; lia).
  replace (Zpos m * (2 * (H * (2 ^ j * 2 ^ (e - e1)))))
    with ((Zpos m * 2 ^ (e - e1)) * (2 * (H * 2 ^ j))) by ring.
  rewrite Em. nia.
Qed.

Lemma Qpower_2_pos (e : Z) : (0 < Qpower 2 e)%Q.
Proof. apply Qpower_0_lt. reflexivity. Qed.

Lemma inject_Z_nao_zero (z : Z) : z <> 0 -> ~ (inject_Z z == 0)%Q.
Proof. intros Hz N. unfold Qeq in N. simpl in N. lia. Qed.

Lemma cond_Zopp_mul (sx sy : bool) (a b : Z) :
  cond_Zopp sx a * cond_Zopp sy b = cond_Zopp (xorb sx sy) (a * b).
Proof. destruct sx, sy; simpl; ring. Qed.

(** From the integers to the numbers: a mantissa [m] at the exponent [e]
    that is within [H * 2^(e - e0)] of [X / (2 * H)] units of [2^e0]. *)
Lemma erro_em_Q (s : bool) (m : positive) (e e0 H X : Z) :
  0 < H -> e0 <= e ->
  Z.abs (X - Zpos m * (2 * (H * 2 ^ (e - e0)))) <= H * 2 ^ (e - e0) ->
  (Qabs (inject_Z (cond_Zopp s (Zpos m)) * Qpower 2 e
         - inject_Z (cond_Zopp s X) / inject_Z (2 * H) * Qpower 2 e0)
   <= Qpower 2 (e - 1))%Q.
Proof.
  intros HP He Hab.
  set (k := e - e0) in *.
  assert (Hk : 0 <= k) by lia.
  set (T := Qpower 2 e0).
  assert (HT : (0 < T)%Q) by apply Qpower_2_pos.
  assert (P0 : 0 < 2 ^ k) by (apply Z.pow_pos_nonneg; lia).
  assert (E1 : (Qpower 2 e == inject_Z (2 ^ k) * T)%Q).
  { replace e with (k + e0) by lia.
    rewrite Qpower_plus by discriminate.
    rewrite Zpower_Qpower by exact Hk. reflexivity. }
  assert (E2 : (Qpower 2 (e - 1) == inject_Z (2 ^ k) * T * (1 # 2))%Q).
  { replace (e - 1) with (e + -1) by lia.
    rewrite Qpower_plus by discriminate. rewrite E1. reflexivity. }
  rewrite E1, E2.
  set (h := inject_Z (2 * H)).
  assert (Hh : (0 < h)%Q).
  { unfold h. change 0%Q with (inject_Z 0). rewrite <- Zlt_Qlt. lia. }
  set (c := cond_Zopp s (Zpos m * (2 * (H * 2 ^ k)) - X)).
  assert (Ec : (inject_Z (cond_Zopp s (Zpos m)) * (inject_Z (2 ^ k) * T)
                - inject_Z (cond_Zopp s X) / h * T
                == inject_Z c / h * T)%Q).
  { unfold c. replace (2 * (H * 2 ^ k)) with ((2 * H) * 2 ^ k) by ring.
    unfold Z.sub. destruct s; cbn [cond_Zopp];
      repeat (rewrite inject_Z_opp || rewrite inject_Z_plus
              || rewrite (inject_Z_mult (Zpos m))
              || rewrite (inject_Z_mult (2 * H)));
      fold h; field; intros N; rewrite N in Hh; discriminate. }
  rewrite Ec.
  assert (Hc : - (H * 2 ^ k) <= c <= H * 2 ^ k).
  { unfold c. destruct s; cbn [cond_Zopp]; lia. }
  destruct Hc as [Hc1 Hc2].
  rewrite Zle_Qle in Hc1, Hc2.
  rewrite inject_Z_opp in Hc1. rewrite inject_Z_mult in Hc1, Hc2.
  assert (Eh : (h == 2 * inject_Z H)%Q)
    by (unfold h; rewrite inject_Z_mult; reflexivity).
  set (a := inject_Z c) in *.
  set (b := inject_Z (2 ^ k)) in *.
  set (g := inject_Z H) in *.
  assert (Hg : (0 < g)%Q) by lra.
  assert (Ha : (- (b * (1 # 2)) <= a / h /\ a / h <= b * (1 # 2))%Q).
  { split.
    - apply Qle_shift_div_l; [exact Hh|]. rewrite Eh. lra.
    - apply Qle_shift_div_r; [exact Hh|]. rewrite Eh. lra. }
  destruct Ha as [Ha1 Ha2].
  apply Qabs_Qle_condition. split.
  - setoid_replace (- (b * T * (1 # 2)))%Q with ((- (b * (1 # 2))) * T)%Q by ring.
    apply Qmult_le_compat_r; [exact Ha1|apply Qlt_le_weak, HT].
  - setoid_replace (b * T * (1 # 2))%Q with ((b * (1 # 2)) * T)%Q by ring.
    apply Qmult_le_compat_r; [exact Ha2|apply Qlt_le_weak, HT].
Qed.

Lemma resto_exato (M : positive) :
  F64.resto_shr 1 (2 * Zpos M) (shr_record_of_loc (Zpos M) loc_Exact).
Proof.
  unfold F64.resto_shr. cbn [shr_record_of_loc shr_m shr_r shr_s].
  replace (2 * Zpos M - Zpos M * (2 * 1)) with 0 by ring.
  split; [lia|]. split; [lia|]. split; split; try discriminate; lia.
Qed.

(** The product of two doubles is at most half a unit of its last place
    away from the product of what they are worth. *)
Lemma mul_erro (x y : spec_float) (s : bool) (m : positive) (e : Z) :
  SFmul 53 1024 x y = S754_finite s m e ->
  (Qabs (F64.valor (S754_finite s m e) - F64.valor x * F64.valor y) <= Qpower 2 (e - 1))%Q
  /\ Zpos m < 2 ^ 53.
Proof.
  destruct x as [sx|sx| |sx mx ex], y as [sy|sy| |sy my ey];
    try discriminate.
  unfold SFmul. intros Hf.
  apply (@arredonda_geral _ _ _ _ 1 (2 * Zpos (mx * my))) in Hf;
    [|lia|apply resto_exato].
  destruct Hf as (-> & HE & Hab & Lm). split; [|exact Lm].
  rewrite !Z.mul_1_l in Hab.
  pose proof (@erro_em_Q (xorb sx sy) m e (ex + ey) 1 (2 * Zpos (mx * my))
                ltac:(lia) HE) as Q0.
  rewrite !Z.mul_1_l in Q0. specialize (Q0 Hab).
  assert (E3 : (F64.valor (S754_finite sx mx ex) * F64.valor (S754_finite sy my ey)
                == inject_Z (cond_Zopp (xorb sx sy) (2 * Zpos (mx * my)))
                   / inject_Z (2 * 1) * Qpower 2 (ex + ey))%Q).
  { unfold F64.valor. rewrite Qpower_plus by discriminate.
    rewrite Pos2Z.inj_mul, <- cond_Zopp_mul.
    destruct sx, sy; cbn [cond_Zopp xorb];
      repeat (rewrite inject_Z_opp || rewrite inject_Z_mult);
      change (inject_Z (2 * 1)) with 2%Q; change (inject_Z 2) with 2%Q; field. }
  unfold F64.valor at 1. rewrite E3. exact Q0.
Qed.

Lemma resto_da_divisao (a b : Z) :
  0 <= a -> 0 < b ->
  F64.resto_shr b (2 * a)
    (shr_record_of_loc (fst (Z.div_eucl a b))
       (new_location b (snd (Z.div_eucl a b)))).
Proof.
  intros Ha Hb.
  pose proof (Z_div_mod a b ltac:(lia)) as D.
  destruct (Z.div_eucl a b) as [q r]. destruct D as [D Hr]. cbn [fst snd].
  assert (Hq : 0 <= q) by nia.
  assert (Erho : 2 * a - q * (2 * b) = 2 * r) by (rewrite D; ring).
  unfold F64.resto_shr. rewrite (proj2 (loc_de_registro q _)). rewrite Erho.
  split; [exact Hq|]. split; [lia|].
  unfold new_location, new_location_even, new_location_odd.
  destruct (Z.even b) eqn:Ev.
  - destruct (Z.eqb_spec r 0) as [->|Nr].
    + cbn [shr_record_of_loc shr_r shr_s]. split; split; try discriminate; lia.
    + destruct (Z.compare_spec (2 * r) b) as [E|L|G];
        cbn [shr_record_of_loc shr_r shr_s]; split; split;
        try discriminate; try lia; intros; try reflexivity.
  - assert (Ob : exists c, b = 2 * c + 1).
    { apply Zodd_ex. apply Zodd_bool_iff. rewrite Zodd_even_bool, Ev. reflexivity. }
    destruct Ob as (c & Ec).
    destruct (Z.eqb_spec r 0) as [->|Nr].
    + cbn [shr_record_of_loc shr_r shr_s]. split; split; try discriminate; lia.
    + destruct (Z.compare_spec (2 * r + 1) b) as [E|L|G];
        cbn [shr_record_of_loc shr_r shr_s]; split; split;
        try discriminate; try lia; intros; try reflexivity.
Qed.

(** The quotient of two doubles is at most half a unit of its last
    place away from the quotient of what they are worth. *)
Lemma div_erro (x y : spec_float) (s : bool) (m : positive) (e : Z) :
  SFdiv 53 1024 x y = S754_finite s m e ->
  (Qabs (F64.valor (S754_finite s m e) - F64.valor x / F64.valor y) <= Qpower 2 (e - 1))%Q.
Proof.
  destruct x as [sx|sx| |sx mx ex], y as [sy|sy| |sy my ey];
    try discriminate.
  unfold SFdiv, SFdiv_core_binary.
  set (e' := Z.min (fexp 53 1024 (Zdigits2 (Zpos mx) + ex - (Zdigits2 (Zpos my) + ey)))
                   (ex - ey)).
  set (sft := ex - ey - e').
  assert (Hs : 0 <= sft) by (unfold sft, e'; lia).
  set (m' := match sft with
             | Z0 => Zpos mx
             | Zpos _ => Z.shiftl (Zpos mx) sft
             | Zneg _ => 0
             end).
  assert (Em' : m' = Zpos mx * 2 ^ sft).
  { unfold m'. destruct sft as [|p|p] eqn:Es; [ring| |lia].
    apply Z.shiftl_mul_pow2. lia. }
  assert (Hm' : 0 <= m').
  { rewrite Em'. apply Z.mul_nonneg_nonneg; [lia|]. apply Z.pow_nonneg. lia. }
  pose proof (@resto_da_divisao m' (Zpos my) Hm' ltac:(lia)) as R.
  destruct (Z.div_eucl m' (Zpos my)) as [q r]. cbn [fst snd] in R.
  intros Hf.
  apply (@arredonda_geral _ _ _ _ (Zpos my) (2 * m')) in Hf; [|lia|exact R].
  destruct Hf as (-> & HE & Hab & _).
  pose proof (@erro_em_Q (xorb sx sy) m e e' (Zpos my) (2 * m')
                ltac:(lia) HE Hab) as Q0.
  assert (E3 : (F64.valor (S754_finite sx mx ex) / F64.valor (S754_finite sy my ey)
                == inject_Z (cond_Zopp (xorb sx sy) (2 * m'))
                   / inject_Z (2 * Zpos my) * Qpower 2 e')%Q).
  { unfold F64.valor. rewrite Em'.
    assert (Ex : (Qpower 2 ex == inject_Z (2 ^ sft) * Qpower 2 e' * Qpower 2 ey)%Q).
    { replace ex with (sft + e' + ey) by (unfold sft; lia).
      rewrite !Qpower_plus by discriminate.
      rewrite Zpower_Qpower by exact Hs. reflexivity. }
    rewrite Ex.
    assert (Py : (0 < Qpower 2 ey)%Q) by apply Qpower_2_pos.
    assert (Ny : ~ (inject_Z (Zpos my) == 0)%Q)
      by (apply inject_Z_nao_zero; discriminate).
    destruct sx, sy; cbn [cond_Zopp xorb];
      repeat (rewrite inject_Z_opp || rewrite inject_Z_mult);
      change (inject_Z 2) with 2%Q; field; repeat split; first [exact Ny | lra]. }
  unfold F64.valor at 1. rewrite E3. exact Q0.
Qed.

Lemma arredonda_canonico (s : bool) (M : positive) (E : Z) :
  Z.max (Zpos (digits2_pos M) + E - 53) (-1074) = E -> E <= 971 ->
  binary_round_aux 53 1024 s (Zpos M) E loc_Exact = S754_finite s M E.
Proof.
  intros C B.
  assert (P2 : shr_fexp 53 1024 (Zpos M) E loc_Exact
               = ({| shr_m := Zpos M; shr_r := false; shr_s := false |}, E)).
  { unfold shr_fexp. rewrite fexp_def. cbn [Zdigits2]. rewrite C, Z.sub_diag.
    reflexivity. }
  unfold binary_round_aux. rewrite P2.
  cbn [shr_m loc_of_shr_record round_nearest_even]. rewrite P2. cbn [shr_m].
  destruct (Z.leb_spec E (1024 - 53)); [reflexivity|lia].
Qed.

Lemma iter_xO (p d : positive) :
  Zpos (Pos.iter xO p d) = Zpos p * 2 ^ Zpos d
  /\ Zpos (digits2_pos (Pos.iter xO p d)) = Zpos (digits2_pos p) + Zpos d.
Proof.
  induction d as [|d IH] using Pos.peano_ind.
  - cbn [Pos.iter digits2_pos]. split; lia.
  - rewrite Pos.iter_succ. cbn [digits2_pos]. destruct IH as [I1 I2].
    rewrite Pos2Z.inj_xO, I1, Pos2Z.inj_succ, Z.pow_succ_r by lia.
    split; [ring|lia].
Qed.

(** A whole number below 2^53 is a double. *)
Lemma binary_round_exato (s : bool) (p : positive) :
  Zpos p < 2 ^ 53 ->
  exists m e,
    binary_round 53 1024 s p 0 = S754_finite s m e
    /\ (F64.valor (S754_finite s m e) == inject_Z (cond_Zopp s (Zpos p)))%Q.
Proof.
  intros Hp.
  assert (Dp : Zpos (digits2_pos p) <= 53) by (apply digitos_menor; lia).
  unfold binary_round, shl_align. rewrite fexp_def.
  destruct (Z.max (Zpos (digits2_pos p) + 0 - 53) (-1074) - 0) as [|d|d] eqn:Ed;
    [|lia|].
  - exists p, 0. split.
    + apply arredonda_canonico; lia.
    + unfold F64.valor. change (Qpower 2 0) with 1%Q. ring.
  - destruct (iter_xO p d) as [I1 I2].
    exists (Pos.iter xO p d), (Z.max (Zpos (digits2_pos p) + 0 - 53) (-1074)).
    split.
    + apply arredonda_canonico; lia.
    + unfold F64.valor.
      replace (Z.max (Zpos (digits2_pos p) + 0 - 53) (-1074)) with (- Zpos d) by lia.
      rewrite Qpower_opp.
      assert (E2 : (Qpower 2 (Zpos d) == inject_Z (2 ^ Zpos d))%Q)
        by (rewrite Zpower_Qpower by lia; reflexivity).
      rewrite E2.
      assert (N2 : ~ (inject_Z (2 ^ Zpos d) == 0)%Q).
      { apply inject_Z_nao_zero.
        pose proof (Z.pow_pos_nonneg 2 (Zpos d) ltac:(lia) ltac:(lia)). lia. }
      destruct s; cbn [cond_Zopp]; rewrite ?inject_Z_opp, I1, inject_Z_mult;
        field; exact N2.
Qed.

Lemma of_Z_exato (n : Z) :
  n <> 0 -> Z.abs n < 2 ^ 53 ->
  exists s m e,
    binary_normalize 53 1024 n 0 false = S754_finite s m e
    /\ (F64.valor (S754_finite s m e) == inject_Z n)%Q.
Proof.
  intros Hn Hb. destruct n as [|p|p]; [contradiction| |]; unfold binary_normalize.
  - destruct (@binary_round_exato false p ltac:(lia)) as (m & e & E & V).
    exists false, m, e. split; [exact E|exact V].
  - destruct (@binary_round_exato true p ltac:(lia)) as (m & e & E & V).
    exists true, m, e. split; [exact E|exact V].
Qed.

End Binary64.

(** Times 1.0 changes no double. *)
Lemma F64_mul_um (x : F64.float64) :
  F64.valido x = true -> F64.mul x F64.um = x.
Proof.
  destruct x as [s|s| |s m e]; intros V.
  - destruct s; reflexivity.
  - destruct s; reflexivity.
  - reflexivity.
  - unfold F64.valido, valid_binary, bounded, canonical_mantissa in V.
    apply andb_true_iff in V. destruct V as [C B].
    apply Z.eqb_eq in C.
    change F64.um with (S754_finite false 4503599627370496 (-52)).
    unfold F64.mul, SFmul. rewrite xorb_false_r.
    assert (D : Zdigits2 (Zpos (m * 4503599627370496))
                = (Zpos (digits2_pos m) + 52)%Z).
    { rewrite Pos.mul_comm. cbn [Pos.mul Zdigits2 digits2_pos]. lia. }
    assert (I : iter_pos shr_1 52
                  {| shr_m := Zpos (m * 4503599627370496);
                     shr_r := false; shr_s := false |}
                = {| shr_m := Zpos m; shr_r := false; shr_s := false |}).
    { rewrite Pos.mul_comm. reflexivity. }
    assert (P1 : shr_fexp F64.prec F64.emax (Zpos (m * 4503599627370496))
                   (e + -52) loc_Exact
                 = ({| shr_m := Zpos m; shr_r := false; shr_s := false |}, e)).
    { unfold shr_fexp. rewrite D.
      replace (Zpos (digits2_pos m) + 52 + (e + -52))%Z
        with (Zpos (digits2_pos m) + e)%Z by lia.
      rewrite C. replace (e - (e + -52))%Z with 52%Z by lia.
      unfold shr. cbn [shr_record_of_loc]. rewrite I. f_equal. lia. }
    assert (P2 : shr_fexp F64.prec F64.emax (Zpos m) e loc_Exact
                 = ({| shr_m := Zpos m; shr_r := false; shr_s := false |}, e)).
    { unfold shr_fexp. cbn [Zdigits2]. rewrite C, Z.sub_diag. reflexivity. }
    unfold binary_round_aux. rewrite P1.
    cbn [shr_m loc_of_shr_record round_nearest_even]. rewrite P2.
    cbn [shr_m]. fold F64.emax F64.prec. rewrite B. reflexivity.
Qed.

Lemma F64_valor_inteiro (s : bool) (m : positive) (e : Z) :
  (0 <= e)%Z ->
  F64.valor (S754_finite s m e) == inject_Z (cond_Zopp s (Zpos m) * 2 ^ e).
Proof.
  intros He. unfold F64.valor. rewrite inject_Z_mult.
  apply Qmult_comp; [reflexivity|].
  rewrite Zpower_Qpower by exact He. reflexivity.
Qed.

(** [rint] of a finite double is the double of a whole number at most a
    half away from it. *)
Lemma F64_rint_inteiro (s : bool) (m : positive) (e : Z) :
  exists n : Z,
    (F64.valor (S754_finite s m e) - (1 # 2) <= inject_Z n
     /\ inject_Z n <= F64.valor (S754_finite s m e) + (1 # 2))
    /\ ((e < 0)%Z /\ F64.rint (S754_finite s m e) = F64.inteiro s n
        \/ (0 <= e)%Z /\ F64.rint (S754_finite s m e) = S754_finite s m e
           /\ F64.valor (S754_finite s m e) == inject_Z n).
Proof.
  destruct (Z.leb_spec 0 e) as [He|He].
  - exists (cond_Zopp s (Zpos m) * 2 ^ e)%Z.
    pose proof (@F64_valor_inteiro s m e He) as V.
    split; [rewrite V; split; lra|]. right.
    split; [exact He|]. split; [|exact V].
    unfold F64.rint. destruct (Z.leb_spec 0 e); [reflexivity|lia].
  - exists (rint (F64.valor (S754_finite s m e))).
    split; [apply rint_perto|]. left. split; [exact He|].
    unfold F64.rint, F64.inteiro_proximo.
    destruct (Z.leb_spec 0 e); [lia|reflexivity].
Qed.

Lemma F64_valor_cem : F64.valor F64.cem == 100.
Proof. vm_compute. reflexivity. Qed.

Lemma Qpower_2_meio (e : Z) : (e < 0)%Z -> Qpower 2 e <= 1 # 2.
Proof.
  intros He. replace e with (- (- e))%Z by lia. rewrite Qpower_opp.
  assert (E : Qpower 2 (- e) == inject_Z (2 ^ (- e)))
    by (rewrite Zpower_Qpower by lia; reflexivity).
  rewrite E.
  assert (H2 : (2 <= 2 ^ (- e))%Z).
  { change 2%Z with (2 ^ 1)%Z at 1. apply Z.pow_le_mono_r; lia. }
  rewrite Zle_Qle in H2. change (inject_Z 2) with 2 in H2.
  set (b := inject_Z (2 ^ (- e))) in *.
  setoid_replace (/ b) with (1 / b) by (unfold Qdiv; ring).
  apply Qle_shift_div_r; lra.
Qed.

(** Rounding to two decimals, in numbers: the cents [n] are at most a
    half away from the double product [y] of the value and 100, [y] is
    at most half a unit of its last place away from 100 times the value,
    and the result is at most half a unit of its last place away from
    [n / 100]. *)
Lemma F64_round2_perto (v : F64.float64) (s : bool) (m : positive) (e : Z) :
  F64.mul v F64.cem = S754_finite s m e ->
  exists n : Z,
    (F64.valor (F64.mul v F64.cem) - (1 # 2) <= inject_Z n
     /\ inject_Z n <= F64.valor (F64.mul v F64.cem) + (1 # 2))
    /\ Qabs (F64.valor (F64.mul v F64.cem) - F64.valor v * 100) <= Qpower 2 (e - 1)
    /\ ((e < 0)%Z -> n <> 0%Z -> F64.round2 v = F64.dec n 100)
    /\ (forall sb mb eb,
          F64.round2 v = S754_finite sb mb eb ->
          Qabs (F64.valor (F64.round2 v) - inject_Z n / 100) <= Qpower 2 (eb - 1)).
Proof.
  intros Ey.
  destruct (@mul_erro v F64.cem s m e Ey) as [Hmul Lm].
  rewrite F64_valor_cem in Hmul.
  unfold F64.round2. rewrite Ey.
  destruct (F64_rint_inteiro s m e) as (n & Hn & [(He & R)|(He & R & V)]).
  - exists n. split; [exact Hn|]. split; [exact Hmul|]. rewrite R. split.
    + intros _ Hz. unfold F64.inteiro, F64.dec, F64.cem.
      destruct n; [contradiction| |]; reflexivity.
    + intros sb mb eb Eb.
      destruct (Z.eq_dec n 0) as [->|Nz]; [discriminate Eb|].
      assert (Bn : (Z.abs n < 2 ^ 53)%Z).
      { assert (Hp := Qpower_2_meio He).
        assert (P0 := Qpower_0_lt 2 e ltac:(reflexivity)).
        assert (Lm' : (Zpos m <= 2 ^ 53 - 1)%Z) by lia.
        rewrite Zle_Qle in Lm'.
        assert (Pm : 0 <= inject_Z (Zpos m))
          by (change 0 with (inject_Z 0); rewrite <- Zle_Qle; lia).
        assert (Hv : - (inject_Z (Zpos m) * (1 # 2)) <= F64.valor (S754_finite s m e)
                     /\ F64.valor (S754_finite s m e) <= inject_Z (Zpos m) * (1 # 2)).
        { unfold F64.valor. destruct s; cbn [cond_Zopp];
            rewrite ?inject_Z_opp; split; nra. }
        change (inject_Z (2 ^ 53 - 1)) with 9007199254740991 in Lm'.
        assert (Hq : - inject_Z (2 ^ 52) <= inject_Z n <= inject_Z (2 ^ 52)).
        { change (inject_Z (2 ^ 52)) with 4503599627370496. lra. }
        destruct Hq as [Hq1 Hq2]. rewrite <- inject_Z_opp in Hq1.
        rewrite <- Zle_Qle in Hq1, Hq2.
        change (2 ^ 52)%Z with 4503599627370496%Z in *.
        change (2 ^ 53)%Z with 9007199254740992%Z. lia. }
      destruct (@of_Z_exato n Nz Bn) as (sn & mn & en & En & Vn).
      assert (Ei : F64.inteiro s n = S754_finite sn mn en).
      { unfold F64.inteiro, F64.of_Z. destruct n; [contradiction| |]; exact En. }
      rewrite Ei in Eb |- *.
      pose proof (@div_erro _ _ _ _ _ Eb) as D.
      rewrite Vn, F64_valor_cem in D.
      rewrite Eb. exact D.
  - exists n. split; [exact Hn|]. split; [exact Hmul|]. rewrite R. split.
    + intros Hneg. lia.
    + intros sb mb eb Eb.
      pose proof (@div_erro _ _ _ _ _ Eb) as D.
      rewrite V, F64_valor_cem in D. rewrite Eb. exact D.
Qed.

Lemma F64_valor_dois_centesimos :
  Qabs (F64.valor F64.dois_centesimos - (2 # 100)) <= 1 # 2305843009213693952.
Proof. vm_compute. discriminate. Qed.

(** C2. In the BÔNUS column the cell of every row is computed from that
    row alone, in binary64: for FRETE BRITA and AREIA it is the quantity
    times 1.0, which is the quantity itself, rounded; for FRETE CIMENTO
    and FRETE ADITIVO it is the total times the double 0.02, rounded; for
    any other cost centre, a missing one included, it is 0.0. Rounding to
    two decimals takes the double product [y] of the value and 100 to the
    whole number [n] nearest to it, ties to even, and yields the double
    nearest to [n / 100]: each step is at most half a unit of the last
    place, or half a cent, away from the exact number. What is not finite
    (NaN for an empty cell) stays as it is. *)
Theorem bonus_por_registro_f64 (df : list F64.linha) (i : nat) (r : F64.linha) :
  nth_error df i = Some r ->
  nth_error (F64.coluna_bonus df) i = Some (F64.bonus_da_linha r)
  /\ (F64.CENTRO_DE_CUSTO r = Some FRETE_BRITA
      \/ F64.CENTRO_DE_CUSTO r = Some AREIA ->
      F64.bonus_da_linha r = F64.round2 (F64.mul (F64.QUANT r) F64.um)
      /\ (F64.valido (F64.QUANT r) = true ->
          F64.bonus_da_linha r = F64.round2 (F64.QUANT r)))
  /\ (F64.CENTRO_DE_CUSTO r = Some FRETE_CIMENTO
      \/ F64.CENTRO_DE_CUSTO r = Some FRETE_ADITIVO ->
      F64.bonus_da_linha r
      = F64.round2 (F64.mul (F64.TOTAL r) F64.dois_centesimos)
      /\ (forall s m e,
            F64.mul (F64.TOTAL r) F64.dois_centesimos = S754_finite s m e ->
            Qabs (F64.valor (F64.mul (F64.TOTAL r) F64.dois_centesimos)
                  - F64.valor (F64.TOTAL r) * F64.valor F64.dois_centesimos)
            <= Qpower 2 (e - 1)))
  /\ ((forall c, In c [FRETE_BRITA; AREIA; FRETE_CIMENTO; FRETE_ADITIVO] ->
                 F64.CENTRO_DE_CUSTO r <> Some c) ->
      F64.bonus_da_linha r = F64.zero)
  /\ Qabs (F64.valor F64.dois_centesimos - (2 # 100)) <= 1 # 2305843009213693952
  /\ (forall v s m e,
        F64.mul v F64.cem = S754_finite s m e ->
        exists n : Z,
          (F64.valor (F64.mul v F64.cem) - (1 # 2) <= inject_Z n
           /\ inject_Z n <= F64.valor (F64.mul v F64.cem) + (1 # 2))
          /\ Qabs (F64.valor (F64.mul v F64.cem) - F64.valor v * 100)
             <= Qpower 2 (e - 1)
          /\ ((e < 0)%Z -> n <> 0%Z -> F64.round2 v = F64.dec n 100)
          /\ (forall sb mb eb,
                F64.round2 v = S754_finite sb mb eb ->
                Qabs (F64.valor (F64.round2 v) - inject_Z n / 100)
                <= Qpower 2 (eb - 1)))
  /\ (forall v,
        (forall s m e, F64.mul v F64.cem <> S754_finite s m e) ->
        F64.round2 v = F64.div (F64.mul v F64.cem) F64.cem).
Proof.
  intros Hi.
  split; [rewrite F64_coluna_bonus_map; now apply map_nth_error|].
  split; [|split; [|split; [|split; [|split]]]].
  - unfold F64.bonus_da_linha.
    intros H.
    assert (E : F64.escolhe
                  [isin [FRETE_BRITA; AREIA] (F64.CENTRO_DE_CUSTO r);
                   isin [FRETE_CIMENTO; FRETE_ADITIVO] (F64.CENTRO_DE_CUSTO r)]
                  [F64.mul (F64.QUANT r) F64.um;
                   F64.mul (F64.TOTAL r) F64.dois_centesimos] F64.zero
                = F64.mul (F64.QUANT r) F64.um)
      by (destruct H as [E|E]; rewrite E; reflexivity).
    rewrite E. split; [reflexivity|].
    intros V. now rewrite F64_mul_um.
  - intros H. split.
    + unfold F64.bonus_da_linha. destruct H as [E|E]; rewrite E; reflexivity.
    + intros s m e E. rewrite E.
      exact (proj1 (@mul_erro _ _ _ _ _ E)).
  - intros H. unfold F64.bonus_da_linha.
    assert (E : F64.escolhe
                  [isin [FRETE_BRITA; AREIA] (F64.CENTRO_DE_CUSTO r);
                   isin [FRETE_CIMENTO; FRETE_ADITIVO] (F64.CENTRO_DE_CUSTO r)]
                  [F64.mul (F64.QUANT r) F64.um;
                   F64.mul (F64.TOTAL r) F64.dois_centesimos] F64.zero
                = F64.zero).
    { destruct (F64.CENTRO_DE_CUSTO r) as [c|]; [|reflexivity].
      assert (N1 : forall x,
                 In x [FRETE_BRITA; AREIA; FRETE_CIMENTO; FRETE_ADITIVO] ->
                 texto_eqb c x = false).
      { intros x Hx. apply texto_eqb_neq. intros ->. exact (H x Hx eq_refl). }
      unfold isin. simpl.
      rewrite !N1 by (simpl; tauto). reflexivity. }
    rewrite E. reflexivity.
  - exact F64_valor_dois_centesimos.
  - intros v s m e E. exact (@F64_round2_perto v s m e E).
  - intros v H. unfold F64.round2.
    destruct (F64.mul v F64.cem) as [s|s| |s m e] eqn:E; try reflexivity.
    exfalso. exact (H s m e eq_refl).
Qed.

Lemma bonus_por_registro_f64_witness :
  nth_error (F64.coluna_bonus
               [ {| F64.CENTRO_DE_CUSTO := Some FRETE_CIMENTO;
                    F64.QUANT := S754_nan;
                    F64.TOTAL := F64.dec 1425 100 |} ]) 0
  = Some (F64.dec 29 100).
Proof.
  rewrite (proj1 (@bonus_por_registro_f64
                    [ {| F64.CENTRO_DE_CUSTO := Some FRETE_CIMENTO;
                         F64.QUANT := S754_nan;
                         F64.TOTAL := F64.dec 1425 100 |} ]
                    0%nat _ eq_refl)).
  vm_compute. reflexivity.
Defined.

(** C2 on some cells: 2% of 14.25 is the double 0.28500000000000003 and
    pays 0.29; the quantities 0.015 and 0.125 pay 0.02 and 0.12; a
    missing quantity pays NaN; another cost centre pays 0.0. *)
Example bonus_f64_exemplos :
  F64.bonus_da_linha {| F64.CENTRO_DE_CUSTO := Some FRETE_CIMENTO;
                        F64.QUANT := S754_nan;
                        F64.TOTAL := F64.dec 1425 100 |}
  = F64.dec 29 100
  /\ F64.bonus_da_linha {| F64.CENTRO_DE_CUSTO := Some AREIA;
                           F64.QUANT := F64.dec 15 1000;
                           F64.TOTAL := F64.of_Z 10 |}
     = F64.dec 2 100
  /\ F64.bonus_da_linha {| F64.CENTRO_DE_CUSTO := Some FRETE_BRITA;
                           F64.QUANT := F64.dec 125 1000;
                           F64.TOTAL := F64.of_Z 10 |}
     = F64.dec 12 100
  /\ F64.bonus_da_linha {| F64.CENTRO_DE_CUSTO := Some FRETE_BRITA;
                           F64.QUANT := S754_nan;
                           F64.TOTAL := F64.of_Z 10 |}
     = S754_nan
  /\ F64.bonus_da_linha {| F64.CENTRO_DE_CUSTO := Some (txt "FRETE AREIA");
                           F64.QUANT := F64.of_Z 30;
                           F64.TOTAL := F64.of_Z 10 |}
     = S754_zero false
  /\ F64.bonus_da_linha {| F64.CENTRO_DE_CUSTO := None;
                           F64.QUANT := F64.of_Z 30;
                           F64.TOTAL := F64.of_Z 10 |}
     = S754_zero false.
Proof. repeat split; vm_compute; reflexivity. Qed.









(* ================================================================== *)
(** * More on the cleaning step *)

(** X9. Every row the cleaning step hands back has a driver name that
    upper-casing, trimming and the VINICIUS substitution leave as it is,
    and a timestamp inside the range. *)
Theorem devolvidos_padronizados (parse_data : texto -> option Z)
    (dados : frame) (ini fim : Z) (x : linha) :
  In x (devolvidos (snd (limpar_e_filtrar_dados parse_data dados ini fim))) ->
  exists m t,
    MOTORISTA x = Some m
    /\ upper m = m
    /\ strip m = m
    /\ str_replace VINICIUS VINICIUS_canonico m = m
    /\ DATA x = Carimbo t
    /\ (to_datetime_date ini <= t <= to_datetime_date fim)%Z.
Proof.
  intros Hx. apply In_devolvidos in Hx.
  destruct Hx as (r & t & _ & -> & Et & Ht).
  exists (padroniza (astype_str (MOTORISTA r))), t.
  split; [reflexivity|].
  split; [apply upper_fixo, padroniza_fixo_upper|].
  split; [apply strip_fixo, padroniza_aparado|].
  split; [|split; [exact Et|exact Ht]].
  exact (@sub_inalterado Unicode.palavra (hd 0%N VINICIUS) (tl VINICIUS)
           eq_refl eq_refl VINICIUS_canonico None _
           (padroniza_sem_VINICIUS (astype_str (MOTORISTA r)))).
Qed.

Lemma devolvidos_padronizados_witness :
  In (normaliza_linha sem_parse linha_cimento)
     (devolvidos (snd (limpar_e_filtrar_dados sem_parse viagens_exemplo 19723 19753)))
  /\ exists m t,
       MOTORISTA (normaliza_linha sem_parse linha_cimento) = Some m
       /\ upper m = m
       /\ strip m = m
       /\ str_replace VINICIUS VINICIUS_canonico m = m
       /\ DATA (normaliza_linha sem_parse linha_cimento) = Carimbo t
       /\ (to_datetime_date 19723 <= t <= to_datetime_date 19753)%Z.
Proof.
  assert (H : In (normaliza_linha sem_parse linha_cimento)
                (devolvidos
                   (snd (limpar_e_filtrar_dados sem_parse viagens_exemplo
                           19723 19753))))
    by (right; left; reflexivity).
  split; [exact H|]. exact (@devolvidos_padronizados _ _ _ _ _ H).
Defined.

Lemma limpar_retorna_nao_vazio (parse_data : texto -> option Z)
    (dados : frame) (ini fim : Z) (saida : frame) :
  snd (limpar_e_filtrar_dados parse_data dados ini fim) = Retorna saida ->
  saida <> [].
Proof.
  rewrite limpar_casos. simpl.
  destruct (filter _ _); [discriminate|]. intros E. inversion E. discriminate.
Qed.

Lemma mask_mais_largo (a b a' b' : Z) (r : linha) :
  (a' <= a)%Z -> (b <= b')%Z -> mask a b r = true -> mask a' b' r = true.
Proof.
  unfold mask. intros Ha Hb. destruct (DATA r); try discriminate.
  rewrite !andb_true_iff, !Z.leb_le. lia.
Qed.

(** X10. Narrowing the range only filters: what a call hands back for a
    range is what the call for any wider range hands back, filtered by
    the narrow range; so a wider range loses no row, and does not raise
    where the narrow one returns. *)
Theorem intervalo_mais_largo (parse_data : texto -> option Z) (dados : frame)
    (ini fim ini' fim' : Z) :
  (ini' <= ini)%Z -> (fim <= fim')%Z ->
  devolvidos (snd (limpar_e_filtrar_dados parse_data dados ini fim))
  = filter (mask (to_datetime_date ini) (to_datetime_date fim))
      (devolvidos (snd (limpar_e_filtrar_dados parse_data dados ini' fim')))
  /\ incl (devolvidos (snd (limpar_e_filtrar_dados parse_data dados ini fim)))
          (devolvidos (snd (limpar_e_filtrar_dados parse_data dados ini' fim')))
  /\ (forall saida,
        snd (limpar_e_filtrar_dados parse_data dados ini fim) = Retorna saida ->
        exists saida',
          snd (limpar_e_filtrar_dados parse_data dados ini' fim')
          = Retorna saida').
Proof.
  intros Hi Hf.
  assert (E : devolvidos (snd (limpar_e_filtrar_dados parse_data dados ini fim))
              = filter (mask (to_datetime_date ini) (to_datetime_date fim))
                  (devolvidos
                     (snd (limpar_e_filtrar_dados parse_data dados ini' fim')))).
  { rewrite !devolvidos_limpar.
    induction (dropna (map (normaliza_linha parse_data) dados)) as [|r l IH];
      [reflexivity|].
    simpl.
    destruct (mask (to_datetime_date ini) (to_datetime_date fim) r) eqn:M.
    - assert (M' : mask (to_datetime_date ini') (to_datetime_date fim') r = true).
      { apply (@mask_mais_largo (to_datetime_date ini) (to_datetime_date fim));
          [unfold to_datetime_date; lia | unfold to_datetime_date; lia | exact M]. }
      rewrite M'. simpl. rewrite M. now rewrite IH.
    - destruct (mask (to_datetime_date ini') (to_datetime_date fim') r);
        simpl; [rewrite M|]; exact IH. }
  assert (I : incl (devolvidos (snd (limpar_e_filtrar_dados parse_data dados ini fim)))
                   (devolvidos
                      (snd (limpar_e_filtrar_dados parse_data dados ini' fim')))).
  { rewrite E. intros x Hx. apply filter_In in Hx. tauto. }
  split; [exact E|]. split; [exact I|].
  intros saida Hs.
  assert (Hn := limpar_retorna_nao_vazio _ _ _ _ Hs).
  rewrite Hs in I. simpl in I.
  destruct (snd (limpar_e_filtrar_dados parse_data dados ini' fim'))
    as [saida'|e]; [eauto|].
  exfalso. destruct saida as [|x s]; [contradiction|].
  exact (I x (or_introl eq_refl)).
Qed.

Lemma intervalo_mais_largo_witness :
  (19723 <= 19727)%Z /\ (19727 <= 19753)%Z
  /\ incl (devolvidos
             (snd (limpar_e_filtrar_dados sem_parse viagens_exemplo 19727 19727)))
          (devolvidos
             (snd (limpar_e_filtrar_dados sem_parse viagens_exemplo 19723 19753))).
Proof.
  assert (H1 : (19723 <= 19727)%Z) by lia.
  assert (H2 : (19727 <= 19753)%Z) by lia.
  split; [exact H1|]. split; [exact H2|].
  exact (proj1 (proj2 (@intervalo_mais_largo sem_parse viagens_exemplo
                         19727 19727 19723 19753 H1 H2))).
Defined.

(* ================================================================== *)
(** * The range suggested by the script *)

Lemma serie_min_menor (t : Z) (l : list Z) :
  (serie_min t l <= t)%Z /\ Forall (fun x => (serie_min t l <= x)%Z) l.
Proof.
  unfold serie_min. revert t. induction l as [|y l IH]; intros t; simpl.
  - split; [lia|constructor].
  - destruct (IH (Z.min t y)) as [H1 H2]. split; [lia|].
    constructor; [lia|exact H2].
Qed.

Lemma serie_max_maior (t : Z) (l : list Z) :
  (t <= serie_max t l)%Z /\ Forall (fun x => (x <= serie_max t l)%Z) l.
Proof.
  unfold serie_max. revert t. induction l as [|y l IH]; intros t; simpl.
  - split; [lia|constructor].
  - destruct (IH (Z.max t y)) as [H1 H2]. split; [lia|].
    constructor; [lia|exact H2].
Qed.

Lemma serie_max_esta (t : Z) (l : list Z) : In (serie_max t l) (t :: l).
Proof.
  unfold serie_max. revert t. induction l as [|y l IH]; intros t; simpl.
  - now left.
  - destruct (IH (Z.max t y)) as [E|H]; [|right; now right].
    rewrite <- E. destruct (Z.max_spec t y) as [[_ ->]|[_ ->]]; auto.
Qed.

Lemma dt_date_to_datetime (d : Z) : dt_date (to_datetime_date d) = d.
Proof. unfold dt_date, to_datetime_date. apply Z.div_mul. discriminate. Qed.

Lemma to_datetime_dt_date (t : Z) : (to_datetime_date (dt_date t) <= t)%Z.
Proof.
  unfold dt_date, to_datetime_date. rewrite Z.mul_comm.
  apply Z.mul_div_le. reflexivity.
Qed.

Lemma dt_date_mono (a b : Z) : (a <= b)%Z -> (dt_date a <= dt_date b)%Z.
Proof. unfold dt_date. intros H. apply Z.div_le_mono; [reflexivity|exact H]. Qed.

Lemma In_carimbos (A : Type) (f : A -> celula_data) (l : list A) (t : Z) :
  In t (carimbos (map f l)) <-> exists r, In r l /\ f r = Carimbo t.
Proof.
  unfold carimbos. rewrite in_flat_map. split.
  - intros (c & Hc & Ht). apply in_map_iff in Hc. destruct Hc as (r & <- & Hr).
    exists r. split; [exact Hr|].
    destruct (f r); simpl in Ht; try contradiction.
    destruct Ht as [->|[]]. reflexivity.
  - intros (r & Hr & E). exists (f r). split; [now apply in_map|].
    rewrite E. now left.
Qed.

Lemma devolvido_sse (parse_data : texto -> option Z) (dados : frame)
    (ini fim : Z) (r : linha) (t : Z) :
  In r dados ->
  to_datetime_coerce parse_data (DATA r) = Carimbo t ->
  In (normaliza_linha parse_data r)
     (devolvidos (snd (limpar_e_filtrar_dados parse_data dados ini fim)))
  <-> (to_datetime_date ini <= t <= to_datetime_date fim)%Z.
Proof.
  intros Hr Ht. rewrite In_devolvidos. split.
  - intros (r' & t' & _ & E & Ht' & Hin).
    assert (Carimbo t = Carimbo t') as Ett.
    { rewrite <- Ht, <- Ht'.
      change (DATA (normaliza_linha parse_data r)
              = DATA (normaliza_linha parse_data r')).
      now rewrite E. }
    inversion Ett. subst. exact Hin.
  - intros Hin. exists r, t. auto.
Qed.

Lemma intervalo_sugerido_casos (parse_data : texto -> option Z) (hoje : Z)
    (dados : frame) :
  (carimbos (map (fun r => to_datetime_coerce parse_data (DATA r)) dados) = []
   /\ intervalo_sugerido parse_data hoje dados = (hoje, hoje))
  \/ (exists tmin tmax,
        intervalo_sugerido parse_data hoje dados = (dt_date tmin, dt_date tmax)
        /\ (tmin <= tmax)%Z
        /\ In tmax (carimbos (map (fun r => to_datetime_coerce parse_data (DATA r))
                                  dados))
        /\ forall t,
             In t (carimbos (map (fun r => to_datetime_coerce parse_data (DATA r))
                                 dados)) ->
             (tmin <= t <= tmax)%Z).
Proof.
  unfold intervalo_sugerido.
  destruct (carimbos (map (fun r => to_datetime_coerce parse_data (DATA r)) dados))
    as [|t0 l]; [left; auto|right].
  exists (serie_min t0 l), (serie_max t0 l).
  destruct (serie_min_menor t0 l) as [A1 A2].
  destruct (serie_max_maior t0 l) as [B1 B2].
  rewrite Forall_forall in A2, B2.
  split; [reflexivity|]. split; [lia|]. split; [apply serie_max_esta|].
  intros t [<-|Ht]; [lia|]. split; [now apply A2 | now apply B2].
Qed.

(** X11. The range the script suggests is always in order, so the check
    of lines 433-435 lets it through; its first day drops no row: with the
    suggested range a row whose date parses is handed back exactly when
    its timestamp is not after midnight of the last suggested day. *)
Theorem intervalo_sugerido_em_ordem (parse_data : texto -> option Z)
    (hoje : Z) (dados : frame) (r : linha) (t : Z) :
  In r dados ->
  to_datetime_coerce parse_data (DATA r) = Carimbo t ->
  let ini := fst (intervalo_sugerido parse_data hoje dados) in
  let fim := snd (intervalo_sugerido parse_data hoje dados) in
  intervalo_aceito ini fim = true
  /\ (In (normaliza_linha parse_data r)
         (devolvidos (snd (limpar_e_filtrar_dados parse_data dados ini fim)))
      <-> (t <= to_datetime_date fim)%Z).
Proof.
  intros Hr Ht ini fim.
  assert (Hin : In t (carimbos (map (fun r => to_datetime_coerce parse_data (DATA r))
                                    dados)))
    by (apply In_carimbos; eauto).
  destruct (intervalo_sugerido_casos parse_data hoje dados)
    as [[E _]|(tmin & tmax & E & Hmm & _ & Hall)].
  - rewrite E in Hin. contradiction.
  - unfold ini, fim. rewrite E. simpl. split.
    + unfold intervalo_aceito. apply negb_true_iff, Z.ltb_ge.
      now apply dt_date_mono.
    + rewrite (devolvido_sse _ _ _ _ _ Hr Ht).
      assert (L := to_datetime_dt_date tmin). specialize (Hall t Hin). lia.
Qed.

Lemma intervalo_sugerido_em_ordem_witness :
  In linha_areia viagens_exemplo
  /\ to_datetime_coerce sem_parse (DATA linha_areia)
     = Carimbo (to_datetime_date 19727)
  /\ intervalo_sugerido sem_parse 20000 viagens_exemplo = (19727, 19728)%Z
  /\ In (normaliza_linha sem_parse linha_areia)
        (devolvidos
           (snd (limpar_e_filtrar_dados sem_parse viagens_exemplo
                   (fst (intervalo_sugerido sem_parse 20000 viagens_exemplo))
                   (snd (intervalo_sugerido sem_parse 20000 viagens_exemplo))))).
Proof.
  assert (H1 : In linha_areia viagens_exemplo) by (left; reflexivity).
  assert (H2 : to_datetime_coerce sem_parse (DATA linha_areia)
               = Carimbo (to_datetime_date 19727)) by reflexivity.
  split; [exact H1|]. split; [exact H2|]. split; [reflexivity|].
  apply (proj2 (@intervalo_sugerido_em_ordem sem_parse 20000 viagens_exemplo
                  linha_areia _ H1 H2)).
  vm_compute. discriminate.
Defined.

(** X12. When every date that parses is a plain date (midnight), the
    suggested range keeps all of them: the cleaning step hands back every
    row whose date parses, and raises only if there is none. *)
Theorem intervalo_sugerido_datas_puras (parse_data : texto -> option Z)
    (hoje : Z) (dados : frame) :
  (forall r t, In r dados ->
               to_datetime_coerce parse_data (DATA r) = Carimbo t ->
               exists d, t = to_datetime_date d) ->
  devolvidos
    (snd (limpar_e_filtrar_dados parse_data dados
            (fst (intervalo_sugerido parse_data hoje dados))
            (snd (intervalo_sugerido parse_data hoje dados))))
  = dropna (map (normaliza_linha parse_data) dados).
Proof.
  intros Hpuras. rewrite devolvidos_limpar. apply filter_todos.
  intros x Hx. unfold dropna in Hx. apply filter_In in Hx.
  destruct Hx as [Hx Hv]. apply in_map_iff in Hx. destruct Hx as (r & <- & Hr).
  unfold mask. simpl in *.
  destruct (to_datetime_coerce parse_data (DATA r)) as [t|s|] eqn:Et;
    [ | exfalso; unfold to_datetime_coerce in Et;
        destruct (DATA r) as [t'|s'|]; [|destruct (parse_data s')|];
        discriminate
      | discriminate ].
  assert (Hin : In t (carimbos (map (fun r => to_datetime_coerce parse_data (DATA r))
                                    dados)))
    by (apply In_carimbos; eauto).
  destruct (intervalo_sugerido_casos parse_data hoje dados)
    as [[E _]|(tmin & tmax & E & Hmm & Hmax & Hall)].
  - rewrite E in Hin. contradiction.
  - rewrite E. simpl.
    apply In_carimbos in Hmax. destruct Hmax as (rm & Hrm & Em).
    destruct (Hpuras _ _ Hrm Em) as (dm & ->).
    rewrite dt_date_to_datetime.
    assert (L := to_datetime_dt_date tmin). specialize (Hall t Hin).
    apply andb_true_iff. rewrite !Z.leb_le. lia.
Qed.

Lemma intervalo_sugerido_datas_puras_witness :
  (forall r t, In r viagens_exemplo ->
               to_datetime_coerce sem_parse (DATA r) = Carimbo t ->
               exists d, t = to_datetime_date d)
  /\ devolvidos
       (snd (limpar_e_filtrar_dados sem_parse viagens_exemplo
               (fst (intervalo_sugerido sem_parse 20000 viagens_exemplo))
               (snd (intervalo_sugerido sem_parse 20000 viagens_exemplo))))
     = map (normaliza_linha sem_parse) viagens_exemplo.
Proof.
  assert (H : forall r t, In r viagens_exemplo ->
                          to_datetime_coerce sem_parse (DATA r) = Carimbo t ->
                          exists d, t = to_datetime_date d).
  { intros r t [<-|[<-|[]]] E; inversion E;
      [exists 19727%Z | exists 19728%Z]; reflexivity. }
  split; [exact H|].
  rewrite (@intervalo_sugerido_datas_puras sem_parse 20000 viagens_exemplo H).
  reflexivity.
Defined.

(** X13. With no date that parses the script suggests today for both
    ends, and the cleaning step raises the empty-range error whatever the
    range. *)
Theorem sem_datas_validas (parse_data : texto -> option Z) (hoje : Z)
    (dados : frame) (ini fim : Z) :
  (forall r, In r dados -> to_datetime_coerce parse_data (DATA r) = NaT) ->
  intervalo_sugerido parse_data hoje dados = (hoje, hoje)
  /\ snd (limpar_e_filtrar_dados parse_data dados ini fim)
     = Levanta (ValueError msg_vazio).
Proof.
  intros H.
  assert (C : carimbos (map (fun r => to_datetime_coerce parse_data (DATA r)) dados)
              = []).
  { destruct (carimbos _) as [|t l] eqn:E; [reflexivity|].
    assert (Hin : In t (t :: l)) by now left.
    rewrite <- E in Hin. apply In_carimbos in Hin.
    destruct Hin as (r & Hr & Et). rewrite (H _ Hr) in Et. discriminate. }
  split.
  - unfold intervalo_sugerido. now rewrite C.
  - rewrite limpar_casos. simpl.
    assert (D : dropna (map (normaliza_linha parse_data) dados) = []).
    { destruct (dropna _) as [|x l] eqn:E; [reflexivity|].
      assert (Hin : In x (x :: l)) by now left.
      rewrite <- E in Hin. unfold dropna in Hin. apply filter_In in Hin.
      destruct Hin as [Hin Hv]. apply in_map_iff in Hin.
      destruct Hin as (r & <- & Hr). simpl in Hv. rewrite (H _ Hr) in Hv.
      simpl in Hv. discriminate. }
    rewrite D. reflexivity.
Qed.

Lemma sem_datas_validas_witness :
  (forall r, In r [linha_data_ilegivel] ->
             to_datetime_coerce sem_parse (DATA r) = NaT)
  /\ intervalo_sugerido sem_parse 20000 [linha_data_ilegivel] = (20000, 20000)%Z.
Proof.
  assert (H : forall r, In r [linha_data_ilegivel] ->
                        to_datetime_coerce sem_parse (DATA r) = NaT).
  { intros r [<-|[]]. reflexivity. }
  split; [exact H|].
  exact (proj1 (@sem_datas_validas sem_parse 20000 [linha_data_ilegivel]
                  0%Z 0%Z H)).
Defined.

(* ================================================================== *)
(** * Days worked *)

Lemma Z_compare_eq (a b : Z) : (a ?= b)%Z = Eq <-> a = b.
Proof. apply Z.compare_eq_iff. Qed.

Lemma Z_compare_antisym (a b : Z) : (a ?= b)%Z = CompOpp (b ?= a)%Z.
Proof. apply Z.compare_antisym. Qed.

Lemma Z_compare_trans (a b c : Z) :
  (a ?= b)%Z = Lt -> (b ?= c)%Z = Lt -> (a ?= c)%Z = Lt.
Proof. rewrite !Z.compare_lt_iff. lia. Qed.

Lemma par_dia_compare_eq (a b : texto * Z) : par_dia_compare a b = Eq <-> a = b.
Proof.
  destruct a as [a1 a2], b as [b1 b2]. unfold par_dia_compare. simpl.
  destruct (texto_compare a1 b1) eqn:E1.
  - apply texto_compare_eq in E1. subst.
    rewrite Z.compare_eq_iff. split; congruence.
  - split; [discriminate|]. intros E. inversion E; subst.
    rewrite (proj2 (texto_compare_eq b1 b1) eq_refl) in E1. discriminate.
  - split; [discriminate|]. intros E. inversion E; subst.
    rewrite (proj2 (texto_compare_eq b1 b1) eq_refl) in E1. discriminate.
Qed.

Lemma par_dia_compare_antisym (a b : texto * Z) :
  par_dia_compare a b = CompOpp (par_dia_compare b a).
Proof.
  destruct a as [a1 a2], b as [b1 b2]. unfold par_dia_compare. simpl.
  rewrite (texto_compare_antisym a1 b1).
  destruct (texto_compare b1 a1); simpl; auto using Z.compare_antisym.
Qed.

Lemma par_dia_compare_trans (a b c : texto * Z) :
  par_dia_compare a b = Lt -> par_dia_compare b c = Lt ->
  par_dia_compare a c = Lt.
Proof.
  destruct a as [a1 a2], b as [b1 b2], c as [c1 c2].
  unfold par_dia_compare. simpl.
  destruct (texto_compare a1 b1) eqn:E1; try discriminate.
  - apply texto_compare_eq in E1. subst b1.
    destruct (texto_compare a1 c1); try discriminate; auto.
    apply Z_compare_trans.
  - intros _. destruct (texto_compare b1 c1) eqn:E2; try discriminate.
    + apply texto_compare_eq in E2. subst c1. now rewrite E1.
    + intros _. now rewrite (texto_compare_trans _ _ _ E1 E2).
Qed.

Section DiasFacts.

Variable parse_data : texto -> option Z.

Lemma to_datetime_raise_None (r : linha) :
  to_datetime_raise parse_data (DATA r) = None <-> ilegivel parse_data r.
Proof.
  unfold ilegivel, to_datetime_raise. destruct (DATA r) as [t|s|].
  - split; [discriminate|]. intros (s & E & _). discriminate.
  - destruct (parse_data s) eqn:E; split; try discriminate; eauto.
    intros (s' & E' & N). inversion E'. subst. congruence.
  - split; [discriminate|]. intros (s & E & _). discriminate.
Qed.

Lemma com_dia_casos (df : frame) :
  (com_dia parse_data df = None /\ exists r, In r df /\ ilegivel parse_data r)
  \/ (com_dia parse_data df = Some (map (linha_com_dia parse_data) df)
      /\ forall r, In r df -> ~ ilegivel parse_data r).
Proof.
  unfold com_dia. induction df as [|r df IH]; simpl.
  - right. split; [reflexivity|]. intros r [].
  - destruct (to_datetime_raise parse_data (DATA r)) as [c|] eqn:Ec.
    + destruct IH as [[E (r' & Hr' & Hi)]|[E Hn]].
      * left. destruct (todos _); [discriminate|]. split; [reflexivity|].
        exists r'. auto.
      * right. destruct (todos _) as [col|]; [|discriminate].
        inversion E as [E']. split.
        -- simpl. unfold linha_com_dia at 1. rewrite Ec. rewrite E'. reflexivity.
        -- intros x [<-|Hx]; [|now apply Hn].
           rewrite <- to_datetime_raise_None. congruence.
    + left. split; [reflexivity|]. exists r. split; [now left|].
      now apply to_datetime_raise_None.
Qed.

End DiasFacts.

Lemma limpar_sem_ilegivel (parse_data : texto -> option Z) (dados : frame)
    (ini fim : Z) (x : linha) :
  In x (devolvidos (snd (limpar_e_filtrar_dados parse_data dados ini fim))) ->
  exists t,
    DATA x = Carimbo t
    /\ (to_datetime_date ini <= t <= to_datetime_date fim)%Z
    /\ linha_com_dia parse_data x
       = {| da_linha := x; DIA := Some (dt_date t) |}.
Proof.
  intros Hx. apply In_devolvidos in Hx.
  destruct Hx as (r & t & _ & -> & Et & Ht). exists t.
  split; [exact Et|]. split; [exact Ht|].
  unfold linha_com_dia, normaliza_linha. simpl. rewrite Et. reflexivity.
Qed.

Lemma dias_trabalhados_erro_aux (parse_data : texto -> option Z) (df : frame) :
  (tabela_dias_trabalhados parse_data df = None
   <-> exists r, In r df /\ ilegivel parse_data r)
  /\ (matriz_trabalho parse_data df = None
      <-> exists r, In r df /\ ilegivel parse_data r)
  /\ (forall dados ini fim,
        snd (limpar_e_filtrar_dados parse_data dados ini fim) = Retorna df ->
        tabela_dias_trabalhados parse_data df <> None
        /\ matriz_trabalho parse_data df <> None).
Proof.
  assert (A : tabela_dias_trabalhados parse_data df = None
              <-> exists r, In r df /\ ilegivel parse_data r).
  { unfold tabela_dias_trabalhados.
    destruct (com_dia_casos parse_data df) as [[E H]|[E H]]; rewrite E.
    - tauto.
    - split; [discriminate|]. intros (r & Hr & Hi). exfalso. exact (H r Hr Hi). }
  assert (B : matriz_trabalho parse_data df = None
              <-> exists r, In r df /\ ilegivel parse_data r).
  { unfold matriz_trabalho.
    destruct (com_dia_casos parse_data df) as [[E H]|[E H]]; rewrite E.
    - tauto.
    - split; [discriminate|]. intros (r & Hr & Hi). exfalso. exact (H r Hr Hi). }
  split; [exact A|]. split; [exact B|].
  intros dados ini fim Hret.
  assert (N : ~ exists r, In r df /\ ilegivel parse_data r).
  { intros (r & Hr & (s & Es & _)).
    assert (Hd : devolvidos (snd (limpar_e_filtrar_dados parse_data dados ini fim))
                 = df) by now rewrite Hret.
    rewrite <- Hd in Hr. apply limpar_sem_ilegivel in Hr.
    destruct Hr as (t & Et & _). congruence. }
  rewrite A, B. tauto.
Qed.

(** X14. [tabela_dias_trabalhados] and the matrix of the heat map raise
    exactly when some DATA cell is a text that does not parse; on what the
    cleaning step returns they never raise. *)
Theorem dias_trabalhados_erro (parse_data : texto -> option Z) (df : frame) :
  (tabela_dias_trabalhados parse_data df = None
   <-> exists r, In r df /\ ilegivel parse_data r)
  /\ (matriz_trabalho parse_data df = None
      <-> exists r, In r df /\ ilegivel parse_data r)
  /\ (forall dados ini fim,
        snd (limpar_e_filtrar_dados parse_data dados ini fim) = Retorna df ->
        tabela_dias_trabalhados parse_data df <> None
        /\ matriz_trabalho parse_data df <> None).
Proof. exact (dias_trabalhados_erro_aux parse_data df). Qed.

Lemma nunique_menor (col : list (option Z)) :
  (nunique col <= List.length col)%nat.
Proof.
  unfold nunique.
  apply Nat.le_trans with (List.length (presentes col)).
  - apply NoDup_incl_length; [apply NoDup_nodup|].
    intros x Hx. now apply nodup_In in Hx.
  - unfold presentes. induction col as [|c col IH]; simpl; [lia|].
    destruct c; simpl; lia.
Qed.

Lemma In_presentes (col : list (option Z)) (d : Z) :
  In d (presentes col) <-> In (Some d) col.
Proof.
  unfold presentes. rewrite in_flat_map. split.
  - intros ([x|] & Hx & Hd); simpl in Hd; [|contradiction].
    destruct Hd as [->|[]]. exact Hx.
  - intros H. exists (Some d). split; [exact H|now left].
Qed.

Lemma nunique_positivo (col : list (option Z)) :
  (1 <= nunique col)%nat <-> exists d, In (Some d) col.
Proof.
  unfold nunique. split.
  - destruct (nodup Z.eq_dec (presentes col)) as [|d l] eqn:E; simpl; [lia|].
    intros _. exists d. apply In_presentes.
    apply (nodup_In Z.eq_dec). rewrite E. now left.
  - intros (d & Hd). apply In_presentes in Hd.
    apply (nodup_In Z.eq_dec) in Hd.
    destruct (nodup Z.eq_dec (presentes col)); [contradiction|simpl; lia].
Qed.

Lemma grupo_com_dia (parse_data : texto -> option Z) (df : frame) (m : texto) :
  grupo texto_compare chave_motorista_dia (map (linha_com_dia parse_data) df) m
  = map (linha_com_dia parse_data) (grupo texto_compare MOTORISTA df m).
Proof. unfold grupo. now rewrite filter_map_swap. Qed.

Lemma chaves_com_dia (parse_data : texto -> option Z) (df : frame) :
  chaves texto_compare chave_motorista_dia (map (linha_com_dia parse_data) df)
  = chaves texto_compare MOTORISTA df.
Proof.
  unfold chaves. f_equal. rewrite !flat_map_concat_map, map_map. reflexivity.
Qed.

Lemma tabela_dias_linhas (parse_data : texto -> option Z) (df : frame)
    (tab : list linha_dias_trabalhados) :
  tabela_dias_trabalhados parse_data df = Some tab ->
  tab = map (fun m =>
               {| Motorista := m;
                  Dias_Trabalhados :=
                    nunique (map (fun r => DIA (linha_com_dia parse_data r))
                                 (grupo texto_compare MOTORISTA df m)) |})
            (chaves texto_compare MOTORISTA df).
Proof.
  unfold tabela_dias_trabalhados.
  destruct (com_dia_casos parse_data df) as [[E _]|[E _]]; rewrite E;
    [discriminate|].
  intros H. inversion H. unfold groupby. rewrite map_map, chaves_com_dia.
  apply map_ext. intros m. simpl. now rewrite grupo_com_dia, map_map.
Qed.

Lemma dias_trabalhados_linhas_aux (parse_data : texto -> option Z) (df : frame)
    (tab : list linha_dias_trabalhados) :
  tabela_dias_trabalhados parse_data df = Some tab ->
  StronglySorted (fun a b => texto_compare a b = Lt) (map Motorista tab)
  /\ (forall m, In m (map Motorista tab)
                <-> exists r, In r df /\ MOTORISTA r = Some m)
  /\ (forall x, In x tab ->
        (Dias_Trabalhados x
         <= List.length (grupo texto_compare MOTORISTA df (Motorista x)))%nat
        /\ ((1 <= Dias_Trabalhados x)%nat
            <-> exists r t, In r df /\ MOTORISTA r = Some (Motorista x)
                            /\ DATA (da_linha (linha_com_dia parse_data r))
                               = Carimbo t)).
Proof.
  intros H. apply tabela_dias_linhas in H.
  assert (E : map Motorista tab = chaves texto_compare MOTORISTA df).
  { rewrite H, map_map. simpl. apply map_id. }
  split; [|split].
  - rewrite E. apply (chaves_sorted texto_compare MOTORISTA texto_compare_eq
                        texto_compare_antisym texto_compare_trans).
  - intros m. rewrite E. apply (In_chaves texto_compare MOTORISTA texto_compare_eq).
  - intros x Hx. rewrite H in Hx. apply in_map_iff in Hx.
    destruct Hx as (m & <- & _). simpl. split.
    + etransitivity; [apply nunique_menor|]. now rewrite length_map.
    + rewrite nunique_positivo. split.
      * intros (d & Hd). apply in_map_iff in Hd. destruct Hd as (r & Ed & Hr).
        apply (In_grupo texto_compare MOTORISTA texto_compare_eq) in Hr.
        destruct Hr as [Hr Hm].
        assert (Hc : exists t, DATA (da_linha (linha_com_dia parse_data r))
                               = Carimbo t).
        { unfold linha_com_dia in Ed |- *. simpl in Ed |- *.
          destruct (match to_datetime_raise parse_data (DATA r) with
                    | Some c => c | None => NaT end) as [t| |];
            try discriminate.
          now exists t. }
        destruct Hc as (t & Et). exists r, t. auto.
      * intros (r & t & Hr & Hm & Et). exists (dt_date t).
        apply in_map_iff. exists r. split.
        -- unfold linha_com_dia in *. simpl in *. now rewrite Et.
        -- apply (In_grupo texto_compare MOTORISTA texto_compare_eq). auto.
Qed.

(** X15. The table of days worked has one row for each driver of the
    frame and no other, in strictly increasing order of the name; a
    driver's days are at most the driver's rows, and at least one exactly
    when one of those rows has a date. *)
Theorem dias_trabalhados_linhas (parse_data : texto -> option Z) (df : frame)
    (tab : list linha_dias_trabalhados) :
  tabela_dias_trabalhados parse_data df = Some tab ->
  StronglySorted (fun a b => texto_compare a b = Lt) (map Motorista tab)
  /\ (forall m, In m (map Motorista tab)
                <-> exists r, In r df /\ MOTORISTA r = Some m)
  /\ (forall x, In x tab ->
        (Dias_Trabalhados x
         <= List.length (grupo texto_compare MOTORISTA df (Motorista x)))%nat
        /\ ((1 <= Dias_Trabalhados x)%nat
            <-> exists r t, In r df /\ MOTORISTA r = Some (Motorista x)
                            /\ DATA (da_linha (linha_com_dia parse_data r))
                               = Carimbo t)).
Proof. exact (@dias_trabalhados_linhas_aux parse_data df tab). Qed.

Lemma dias_trabalhados_linhas_witness :
  tabela_dias_trabalhados sem_parse (map (normaliza_linha sem_parse) viagens_exemplo)
  = Some [ {| Motorista := txt "JOÃO"; Dias_Trabalhados := 2 |} ]
  /\ forall m,
       In m [txt "JOÃO"]
       <-> exists r, In r (map (normaliza_linha sem_parse) viagens_exemplo)
                     /\ MOTORISTA r = Some m.
Proof.
  assert (H : tabela_dias_trabalhados sem_parse
                (map (normaliza_linha sem_parse) viagens_exemplo)
              = Some [ {| Motorista := txt "JOÃO"; Dias_Trabalhados := 2 |} ])
    by reflexivity.
  split; [exact H|].
  exact (proj1 (proj2 (@dias_trabalhados_linhas sem_parse _ _ H))).
Defined.

Lemma NoDup_no_intervalo (l : list Z) (a b : Z) :
  NoDup l -> (forall x, In x l -> (a <= x <= b)%Z) ->
  (List.length l <= Z.to_nat (b - a + 1))%nat.
Proof.
  intros Hn Hr.
  rewrite <- (length_seq (Z.to_nat (b - a + 1)) 0).
  rewrite <- (length_map (fun i => (a + Z.of_nat i)%Z)).
  apply NoDup_incl_length; [exact Hn|].
  intros x Hx. specialize (Hr x Hx). apply in_map_iff.
  exists (Z.to_nat (x - a)). split; [lia|]. apply in_seq. lia.
Qed.

(** X16. On what the cleaning step returns, the table of days worked has
    the drivers of the per-driver summary, and each of them has worked at
    least one day and at most as many days as the range holds. *)
Theorem dias_no_periodo (parse_data : texto -> option Z) (dados : frame)
    (ini fim : Z) (df : frame) :
  snd (limpar_e_filtrar_dados parse_data dados ini fim) = Retorna df ->
  exists tab,
    tabela_dias_trabalhados parse_data df = Some tab
    /\ (forall x, In x tab ->
          (1 <= Dias_Trabalhados x)%nat
          /\ (Z.of_nat (Dias_Trabalhados x) <= fim - ini + 1)%Z)
    /\ (forall m, In m (map Motorista tab)
                  <-> In m (map m_MOTORISTA (bonus_motorista (calcular_bonus df)))).
Proof.
  intros Hret.
  assert (Hd : devolvidos (snd (limpar_e_filtrar_dados parse_data dados ini fim))
               = df) by now rewrite Hret.
  destruct (tabela_dias_trabalhados parse_data df) as [tab|] eqn:Et.
  2:{ exfalso.
      exact (proj1 (proj2 (proj2 (dias_trabalhados_erro_aux parse_data df))
                      dados ini fim Hret) Et). }
  exists tab. split; [reflexivity|].
  assert (Hl := tabela_dias_linhas _ _ Et).
  assert (Hdia : forall m c,
             In c (map (fun r => DIA (linha_com_dia parse_data r))
                       (grupo texto_compare MOTORISTA df m)) ->
             exists d, c = Some d /\ (ini <= d <= fim)%Z).
  { intros m c Hc. apply in_map_iff in Hc. destruct Hc as (r & <- & Hr).
    unfold grupo in Hr. apply filter_In in Hr. destruct Hr as [Hr _].
    rewrite <- Hd in Hr. apply limpar_sem_ilegivel in Hr.
    destruct Hr as (t & _ & Ht & ->). simpl. exists (dt_date t).
    split; [reflexivity|].
    destruct Ht as [H1 H2]. apply dt_date_mono in H1, H2.
    rewrite dt_date_to_datetime in H1, H2. lia. }
  split.
  - intros x Hx. rewrite Hl in Hx. apply in_map_iff in Hx.
    destruct Hx as (m & <- & Hm). cbn [Dias_Trabalhados Motorista].
    assert (P : (1 <= nunique (map (fun r => DIA (linha_com_dia parse_data r))
                                  (grupo texto_compare MOTORISTA df m)))%nat).
    { apply nunique_positivo.
      apply (In_chaves texto_compare MOTORISTA texto_compare_eq) in Hm.
      destruct Hm as (r & Hr & Em).
      assert (Hg : In r (grupo texto_compare MOTORISTA df m))
        by (apply (In_grupo texto_compare MOTORISTA texto_compare_eq); auto).
      destruct (Hdia m (DIA (linha_com_dia parse_data r))) as (d & Ed & _).
      { apply in_map_iff. eauto. }
      exists d. rewrite <- Ed. apply in_map_iff. eauto. }
    split; [exact P|].
    assert (U : (nunique (map (fun r => DIA (linha_com_dia parse_data r))
                              (grupo texto_compare MOTORISTA df m))
                 <= Z.to_nat (fim - ini + 1))%nat).
    { unfold nunique. apply NoDup_no_intervalo; [apply NoDup_nodup|].
      intros d Hdd. apply nodup_In, In_presentes in Hdd.
      destruct (Hdia m _ Hdd) as (d' & E' & Hr). inversion E'. subst. exact Hr. }
    lia.
  - intros m.
    rewrite (proj1 (proj2 (dias_trabalhados_linhas_aux _ _ Et))).
    rewrite (proj2 (proj2 (bonus_motorista_linhas df))). reflexivity.
Qed.

Lemma dias_no_periodo_witness :
  snd (limpar_e_filtrar_dados sem_parse viagens_exemplo 19723 19753)
  = Retorna (map (normaliza_linha sem_parse) viagens_exemplo)
  /\ exists tab,
       tabela_dias_trabalhados sem_parse
         (map (normaliza_linha sem_parse) viagens_exemplo) = Some tab
       /\ (forall x, In x tab ->
             (1 <= Dias_Trabalhados x)%nat
             /\ (Z.of_nat (Dias_Trabalhados x) <= 19753 - 19723 + 1)%Z)
       /\ (forall m,
             In m (map Motorista tab)
             <-> In m (map m_MOTORISTA
                         (bonus_motorista
                            (calcular_bonus
                               (map (normaliza_linha sem_parse) viagens_exemplo))))).
Proof.
  assert (H : snd (limpar_e_filtrar_dados sem_parse viagens_exemplo 19723 19753)
              = Retorna (map (normaliza_linha sem_parse) viagens_exemplo))
    by reflexivity.
  split; [exact H|].
  exact (@dias_no_periodo sem_parse viagens_exemplo 19723 19753 _ H).
Defined.

(* ================================================================== *)
(** * The matrix of the heat map *)

Lemma chaves_de_imagem (R S K : Type) (cmp : K -> K -> comparison)
    (rotulo : S -> option K) (campo : R -> S) (linhas : list R) :
  chaves cmp (fun e => rotulo (campo e)) linhas
  = chaves cmp rotulo (map campo linhas).
Proof.
  unfold chaves. f_equal. rewrite !flat_map_concat_map, map_map. reflexivity.
Qed.

Lemma procura_tamanho_pares (tam : texto * Z -> nat) (pares : list (texto * Z))
    (k : texto * Z) :
  procura_tamanho (map (fun p => (p, tam p)) pares) k
  = if existsb (fun p => mesma par_dia_compare p k) pares
    then Some (tam k) else None.
Proof.
  induction pares as [|p pares IH]; simpl; [reflexivity|].
  destruct (mesma par_dia_compare p k) eqn:E; simpl; [|exact IH].
  apply (mesma_eq par_dia_compare par_dia_compare_eq) in E. now subst.
Qed.

Lemma existsb_mesma_par (pares : list (texto * Z)) (k : texto * Z) :
  existsb (fun p => mesma par_dia_compare p k) pares = true <-> In k pares.
Proof.
  rewrite existsb_exists. split.
  - intros (p & Hp & E).
    apply (mesma_eq par_dia_compare par_dia_compare_eq) in E. now subst.
  - intros H. exists k. split; [exact H|].
    apply (mesma_refl par_dia_compare par_dia_compare_eq).
Qed.

Lemma In_pares (parse_data : texto -> option Z) (df : frame) (m : texto) (d : Z) :
  In (m, d) (chaves par_dia_compare chave_par_dia
               (map (linha_com_dia parse_data) df))
  <-> exists r, In r df /\ MOTORISTA r = Some m
                /\ DIA (linha_com_dia parse_data r) = Some d.
Proof.
  rewrite (In_chaves par_dia_compare chave_par_dia par_dia_compare_eq). split.
  - intros (x & Hx & Ek). apply in_map_iff in Hx. destruct Hx as (r & <- & Hr).
    exists r. split; [exact Hr|]. unfold chave_par_dia in Ek.
    change (MOTORISTA (da_linha (linha_com_dia parse_data r)))
      with (MOTORISTA r) in Ek.
    destruct (MOTORISTA r) as [m'|]; [|discriminate].
    destruct (DIA (linha_com_dia parse_data r)) as [d'|]; [|discriminate].
    inversion Ek. subst. split; reflexivity.
  - intros (r & Hr & Em & Ed). exists (linha_com_dia parse_data r).
    split; [now apply in_map|]. unfold chave_par_dia.
    change (MOTORISTA (da_linha (linha_com_dia parse_data r)))
      with (MOTORISTA r).
    now rewrite Em, Ed.
Qed.

Lemma soma_Z_indicadora (marca : Z -> bool) (dias : list Z) :
  soma_Z (map (fun d => if marca d then 1%Z else 0%Z) dias)
  = Z.of_nat (List.length (filter marca dias)).
Proof.
  unfold soma_Z. induction dias as [|d dias IH]; [reflexivity|].
  cbn [map fold_right filter]. rewrite IH.
  destruct (marca d); cbn [List.length]; lia.
Qed.

Lemma Forall2_na_imagem (A B : Type) (P : A -> B -> Prop) (g : A -> B)
    (rotulos : list A) :
  (forall a, In a rotulos -> P a (g a)) -> Forall2 P rotulos (map g rotulos).
Proof.
  induction rotulos as [|a rotulos IH]; intros H; simpl; constructor.
  - apply H. now left.
  - apply IH. intros b Hb. apply H. now right.
Qed.

Lemma matriz_trabalho_forma (parse_data : texto -> option Z) (df : frame)
    (M : matriz) :
  matriz_trabalho parse_data df = Some M ->
  let pares := chaves par_dia_compare chave_par_dia
                 (map (linha_com_dia parse_data) df) in
  m_index M = chaves texto_compare (fun p => Some (fst p)) pares
  /\ m_columns M = chaves Z.compare (fun p => Some (snd p)) pares
  /\ m_values M
     = map (fun m =>
              map (fun d =>
                     if existsb (fun p => mesma par_dia_compare p (m, d)) pares
                     then 1%Z else 0%Z)
                  (m_columns M))
           (m_index M).
Proof.
  intros H pares. revert H. unfold matriz_trabalho.
  destruct (com_dia_casos parse_data df) as [[E _]|[E _]]; rewrite E;
    [discriminate|].
  intros H. inversion H as [HM]. clear H HM.
  unfold groupby. rewrite map_map. cbn [fst snd].
  fold pares.
  set (tamanhos := map (fun k => (k, List.length
                                       (grupo par_dia_compare chave_par_dia
                                          (map (linha_com_dia parse_data) df) k)))
                       pares).
  assert (Ei : chaves texto_compare (fun e : texto * Z * nat => Some (fst (fst e)))
                 tamanhos
               = chaves texto_compare (fun p => Some (fst p)) pares).
  { rewrite (chaves_de_imagem texto_compare (fun p : texto * Z => Some (fst p))
               (fun e : texto * Z * nat => fst e) tamanhos).
    unfold tamanhos. rewrite map_map. cbn [fst]. now rewrite map_id. }
  assert (Ec : chaves Z.compare (fun e : texto * Z * nat => Some (snd (fst e)))
                 tamanhos
               = chaves Z.compare (fun p => Some (snd p)) pares).
  { rewrite (chaves_de_imagem Z.compare (fun p : texto * Z => Some (snd p))
               (fun e : texto * Z * nat => fst e) tamanhos).
    unfold tamanhos. rewrite map_map. cbn [fst]. now rewrite map_id. }
  unfold applymap, unstack. cbn [m_index m_columns m_values].
  split; [exact Ei|]. split; [exact Ec|].
  rewrite map_map. apply map_ext_in. intros m Hm.
  rewrite map_map. apply map_ext_in. intros d Hd.
  unfold tamanhos. rewrite procura_tamanho_pares.
  destruct (existsb (fun p => mesma par_dia_compare p (m, d)) pares) eqn:Ex;
    [|reflexivity].
  apply existsb_mesma_par in Ex.
  destruct (grupo par_dia_compare chave_par_dia
              (map (linha_com_dia parse_data) df) (m, d)) as [|x g] eqn:Eg.
  - exfalso.
    apply (In_chaves par_dia_compare chave_par_dia par_dia_compare_eq) in Ex.
    destruct Ex as (x & Hx & Ek).
    assert (Hg : In x (grupo par_dia_compare chave_par_dia
                         (map (linha_com_dia parse_data) df) (m, d)))
      by (apply (In_grupo par_dia_compare chave_par_dia par_dia_compare_eq); auto).
    rewrite Eg in Hg. exact Hg.
  - cbn [List.length]. destruct (0 <? Z.of_nat (S (List.length g)))%Z eqn:Ez;
      [reflexivity|]. apply Z.ltb_ge in Ez. lia.
Qed.

Lemma dias_da_linha_da_matriz (parse_data : texto -> option Z) (df : frame)
    (m : texto) :
  let pares := chaves par_dia_compare chave_par_dia
                 (map (linha_com_dia parse_data) df) in
  List.length
    (filter (fun d => existsb (fun p => mesma par_dia_compare p (m, d)) pares)
            (chaves Z.compare (fun p => Some (snd p)) pares))
  = nunique (map (fun r => DIA (linha_com_dia parse_data r))
                 (grupo texto_compare MOTORISTA df m)).
Proof.
  intros pares. unfold nunique. apply Permutation_length.
  apply NoDup_Permutation.
  - apply NoDup_filter.
    apply (chaves_NoDup Z.compare (fun p : texto * Z => Some (snd p))
             Z_compare_eq Z_compare_antisym Z_compare_trans).
  - apply NoDup_nodup.
  - intros d. rewrite filter_In, existsb_mesma_par, nodup_In, In_presentes.
    rewrite (In_chaves Z.compare (fun p : texto * Z => Some (snd p)) Z_compare_eq).
    unfold pares. rewrite In_pares. rewrite in_map_iff. split.
    + intros (_ & r & Hr & Em & Ed). exists r. split; [exact Ed|].
      apply (In_grupo texto_compare MOTORISTA texto_compare_eq). auto.
    + intros (r & Ed & Hg).
      apply (In_grupo texto_compare MOTORISTA texto_compare_eq) in Hg.
      destruct Hg as [Hr Em].
      assert (Hp : In (m, d) (chaves par_dia_compare chave_par_dia
                                (map (linha_com_dia parse_data) df)))
        by (apply In_pares; eauto).
      split; [|eauto]. exists (m, d). split; [exact Hp|reflexivity].
Qed.

(** X17. The matrix of the heat map agrees with the table of days worked:
    it has one row for each driver with at least one dated trip, every
    cell is 0 or 1, and the cells of a driver's row add up to that
    driver's number of days in the table. *)
Theorem matriz_confere_com_dias (parse_data : texto -> option Z) (df : frame)
    (M : matriz) (tab : list linha_dias_trabalhados) :
  matriz_trabalho parse_data df = Some M ->
  tabela_dias_trabalhados parse_data df = Some tab ->
  Forall2 (fun m celulas =>
             List.length celulas = List.length (m_columns M)
             /\ Forall (fun v => v = 0%Z \/ v = 1%Z) celulas
             /\ (1 <= soma_Z celulas)%Z
             /\ In {| Motorista := m;
                      Dias_Trabalhados := Z.to_nat (soma_Z celulas) |} tab)
          (m_index M) (m_values M)
  /\ (forall x, In x tab ->
        (In (Motorista x) (m_index M) <-> (1 <= Dias_Trabalhados x)%nat)).
Proof.
  intros HM Ht.
  destruct (matriz_trabalho_forma _ _ HM) as (Ei & Ec & Ev).
  apply tabela_dias_linhas in Ht.
  set (pares := chaves par_dia_compare chave_par_dia
                  (map (linha_com_dia parse_data) df)) in *.
  assert (Hidx : forall m, In m (m_index M) <-> exists d, In (m, d) pares).
  { intros m. rewrite Ei.
    rewrite (In_chaves texto_compare (fun p : texto * Z => Some (fst p))
               texto_compare_eq).
    split.
    - intros ([m' d] & Hp & E). inversion E. subst. eauto.
    - intros (d & Hp). exists (m, d). split; [exact Hp|reflexivity]. }
  split.
  - rewrite Ev. apply Forall2_na_imagem. intros m Hm.
    rewrite soma_Z_indicadora, Ec.
    pose proof (dias_da_linha_da_matriz parse_data df m) as Hn.
    cbv zeta in Hn. fold pares in Hn. rewrite Hn. clear Hn.
    rewrite Nat2Z.id.
    apply Hidx in Hm. destruct Hm as (d & Hp). unfold pares in Hp.
    apply In_pares in Hp. destruct Hp as (r & Hr & Em & Ed).
    assert (P : (1 <= nunique (map (fun r => DIA (linha_com_dia parse_data r))
                                  (grupo texto_compare MOTORISTA df m)))%nat).
    { apply nunique_positivo. exists d. rewrite <- Ed. apply in_map_iff.
      exists r. split; [reflexivity|].
      apply (In_grupo texto_compare MOTORISTA texto_compare_eq). auto. }
    split; [now rewrite length_map|]. split.
    + apply Forall_forall. intros v Hv. apply in_map_iff in Hv.
      destruct Hv as (d' & <- & _).
      destruct (existsb _ pares); [now right|now left].
    + split; [lia|]. rewrite Ht. apply in_map_iff. exists m.
      split; [reflexivity|].
      apply (In_chaves texto_compare MOTORISTA texto_compare_eq). eauto.
  - intros x Hx. rewrite Ht in Hx. apply in_map_iff in Hx.
    destruct Hx as (m & <- & Hm). cbn [Motorista Dias_Trabalhados].
    rewrite nunique_positivo, Hidx. split.
    + intros (d & Hp). unfold pares in Hp. apply In_pares in Hp.
      destruct Hp as (r & Hr & Em & Ed). exists d. rewrite <- Ed.
      apply in_map_iff. exists r. split; [reflexivity|].
      apply (In_grupo texto_compare MOTORISTA texto_compare_eq). auto.
    + intros (d & Hd). apply in_map_iff in Hd. destruct Hd as (r & Ed & Hg).
      apply (In_grupo texto_compare MOTORISTA texto_compare_eq) in Hg.
      destruct Hg as [Hr Em]. exists d. unfold pares. apply In_pares. eauto.
Qed.

Lemma matriz_confere_com_dias_witness :
  matriz_trabalho sem_parse (map (normaliza_linha sem_parse) viagens_exemplo)
  = Some {| m_index := [txt "JOÃO"];
            m_columns := [19727%Z; 19728%Z];
            m_values := [[1%Z; 1%Z]] |}
  /\ tabela_dias_trabalhados sem_parse
       (map (normaliza_linha sem_parse) viagens_exemplo)
     = Some [ {| Motorista := txt "JOÃO"; Dias_Trabalhados := 2 |} ]
  /\ forall x,
       In x [ {| Motorista := txt "JOÃO"; Dias_Trabalhados := 2 |} ] ->
       (In (Motorista x) [txt "JOÃO"] <-> (1 <= Dias_Trabalhados x)%nat).
Proof.
  assert (HM : matriz_trabalho sem_parse
                 (map (normaliza_linha sem_parse) viagens_exemplo)
               = Some {| m_index := [txt "JOÃO"];
                         m_columns := [19727%Z; 19728%Z];
                         m_values := [[1%Z; 1%Z]] |})
    by reflexivity.
  assert (Ht : tabela_dias_trabalhados sem_parse
                 (map (normaliza_linha sem_parse) viagens_exemplo)
               = Some [ {| Motorista := txt "JOÃO"; Dias_Trabalhados := 2 |} ])
    by reflexivity.
  split; [exact HM|]. split; [exact Ht|].
  exact (proj2 (@matriz_confere_com_dias sem_parse _ _ _ HM Ht)).
Defined.

(* ================================================================== *)
(** * The revenue of each day *)

Lemma com_data_de_com_dia (parse_data : texto -> option Z) (df : frame) :
  com_data parse_data df = option_map (map da_linha) (com_dia parse_data df).
Proof.
  unfold com_data, com_dia.
  destruct (todos (map (fun r => to_datetime_raise parse_data (DATA r)) df));
    [|reflexivity].
  simpl. now rewrite map_map.
Qed.

Lemma com_data_devolvidos (parse_data : texto -> option Z) (dados : frame)
    (ini fim : Z) (df : frame) :
  snd (limpar_e_filtrar_dados parse_data dados ini fim) = Retorna df ->
  com_data parse_data df = Some df.
Proof.
  intros Hret.
  assert (Hd : devolvidos (snd (limpar_e_filtrar_dados parse_data dados ini fim))
               = df) by now rewrite Hret.
  rewrite com_data_de_com_dia.
  destruct (com_dia_casos parse_data df) as [[_ (r & Hr & (s & Es & _))]|[E _]].
  - exfalso. rewrite <- Hd in Hr. apply limpar_sem_ilegivel in Hr.
    destruct Hr as (t & Et & _). congruence.
  - rewrite E. simpl. f_equal. rewrite map_map.
    rewrite <- (map_id df) at 2. apply map_ext_in. intros r Hr.
    rewrite <- Hd in Hr. apply limpar_sem_ilegivel in Hr.
    destruct Hr as (t & _ & _ & ->). reflexivity.
Qed.

(** X18. On what the cleaning step returns, [grafico_faturamento] plots
    one point for each distinct time stamp, in increasing order and inside
    the chosen range, and the revenue of the points adds up to the revenue
    of all the rows. *)
Theorem faturamento_conservado (parse_data : texto -> option Z) (dados : frame)
    (ini fim : Z) (df : frame) :
  snd (limpar_e_filtrar_dados parse_data dados ini fim) = Retorna df ->
  exists fat,
    faturamento_por_dia parse_data df = Some fat
    /\ StronglySorted Z.lt (map f_DATA fat)
    /\ (forall t, In t (map f_DATA fat)
                  <-> exists r, In r df /\ DATA r = Carimbo t)
    /\ (forall p, In p fat ->
          (to_datetime_date ini <= f_DATA p <= to_datetime_date fim)%Z)
    /\ soma_Q (map f_TOTAL fat) == soma (map TOTAL df).
Proof.
  intros Hret.
  assert (Hd : devolvidos (snd (limpar_e_filtrar_dados parse_data dados ini fim))
               = df) by now rewrite Hret.
  unfold faturamento_por_dia. rewrite (com_data_devolvidos _ _ _ _ Hret).
  eexists. split; [reflexivity|].
  unfold groupby. rewrite !map_map. cbn [f_DATA f_TOTAL fst snd].
  rewrite map_id.
  assert (Hk : forall t, In t (chaves Z.compare chave_data df)
                         <-> exists r, In r df /\ DATA r = Carimbo t).
  { intros t. rewrite (In_chaves Z.compare chave_data Z_compare_eq).
    unfold chave_data. split; intros (r & Hr & E); exists r; split; auto.
    - destruct (DATA r); try discriminate. now inversion E.
    - now rewrite E. }
  split; [|split; [exact Hk|split]].
  - exact (chaves_sorted Z.compare chave_data Z_compare_eq Z_compare_antisym
             Z_compare_trans df).
  - intros p Hp. apply in_map_iff in Hp. destruct Hp as (t & <- & Ht).
    cbn [f_DATA]. apply Hk in Ht. destruct Ht as (r & Hr & Et).
    rewrite <- Hd in Hr. apply limpar_sem_ilegivel in Hr.
    destruct Hr as (t' & Et' & Hrange & _). congruence.
  - apply (soma_grupos Z.compare chave_data Z_compare_eq Z_compare_antisym
             Z_compare_trans TOTAL df).
    intros r Hr En. exfalso. rewrite <- Hd in Hr.
    apply limpar_sem_ilegivel in Hr. destruct Hr as (t & Et & _).
    unfold chave_data in En. rewrite Et in En. discriminate.
Qed.

Lemma faturamento_conservado_witness :
  snd (limpar_e_filtrar_dados sem_parse viagens_exemplo 19723 19753)
  = Retorna (map (normaliza_linha sem_parse) viagens_exemplo)
  /\ exists fat,
       faturamento_por_dia sem_parse
         (map (normaliza_linha sem_parse) viagens_exemplo) = Some fat
       /\ soma_Q (map f_TOTAL fat)
          == soma (map TOTAL (map (normaliza_linha sem_parse) viagens_exemplo)).
Proof.
  assert (H : snd (limpar_e_filtrar_dados sem_parse viagens_exemplo 19723 19753)
              = Retorna (map (normaliza_linha sem_parse) viagens_exemplo))
    by reflexivity.
  split; [exact H|].
  destruct (@faturamento_conservado sem_parse viagens_exemplo 19723 19753 _ H)
    as (fat & E & _ & _ & _ & S).
  exists fat. split; [exact E|exact S].
Defined.

(* ================================================================== *)
(** * Loading the files *)

Section CarregarFacts.

Variables (arquivo erro : Type).
Variable read_excel : arquivo -> erro + frame.

Lemma ler_todos_casos (files : list arquivo) (dfs : list frame) :
  (exists lidos,
      ler_todos read_excel files dfs = inr (dfs ++ lidos)
      /\ map read_excel files = map inr lidos)
  \/ (exists antes f e depois lidos,
        ler_todos read_excel files dfs = inl (f, e)
        /\ files = antes ++ f :: depois
        /\ map read_excel antes = map inr lidos
        /\ read_excel f = inl e).
Proof.
  revert dfs. induction files as [|f files IH]; intros dfs; simpl.
  - left. exists []. now rewrite app_nil_r.
  - destruct (read_excel f) as [e|df] eqn:Ef.
    + right. exists [], f, e, files, []. auto.
    + destruct (IH (dfs ++ [df])) as [(lidos & E & Hm)
                                     |(antes & g & e & depois & lidos & E & Hf & Hm & Hg)].
      * left. exists (df :: lidos). rewrite E, <- app_assoc. simpl.
        split; [reflexivity|]. now rewrite Hm.
      * right. exists (f :: antes), g, e, depois, (df :: lidos).
        split; [exact E|]. split; [now rewrite Hf|]. simpl.
        split; [now rewrite Ef, Hm|exact Hg].
Qed.

Lemma map_inr_inj (l1 l2 : list frame) :
  map (@inr erro frame) l1 = map (@inr erro frame) l2 -> l1 = l2.
Proof.
  revert l2. induction l1 as [|a l1 IH]; intros [|b l2] H; simpl in H;
    try discriminate; [reflexivity|].
  inversion H. f_equal. now apply IH.
Qed.

Lemma primeira_falha (antes antes' depois depois' : list arquivo)
    (f f' : arquivo) (e e' : erro) (lidos lidos' : list frame) :
  antes ++ f :: depois = antes' ++ f' :: depois' ->
  map read_excel antes = map inr lidos -> read_excel f = inl e ->
  map read_excel antes' = map inr lidos' -> read_excel f' = inl e' ->
  antes = antes' /\ f = f' /\ depois = depois'.
Proof.
  revert antes' lidos lidos'.
  induction antes as [|a antes IH]; intros [|a' antes'] lidos lidos' H H1 H2 H3 H4;
    simpl in *.
  - inversion H. auto.
  - exfalso. inversion H. subst a'. destruct lidos'; simpl in H3; [discriminate|].
    inversion H3. congruence.
  - exfalso. inversion H. subst a. destruct lidos; simpl in H1; [discriminate|].
    inversion H1. congruence.
  - inversion H. subst a'.
    destruct lidos as [|x lidos]; [discriminate|].
    destruct lidos' as [|x' lidos']; [discriminate|].
    inversion H1. inversion H3.
    destruct (IH antes' lidos lidos') as (-> & -> & ->); auto.
Qed.

End CarregarFacts.

(** X19. [carregar_arquivos] raises the [ValueError] of having loaded
    nothing exactly for an empty list of files; it returns exactly when
    the list is not empty and every file is read, and then it returns the
    rows of the files in the order of the files; otherwise it reports and
    raises the exception of the first file that cannot be read, the files
    before it having been read. *)
Theorem carregar_arquivos_casos (arquivo erro : Type)
    (read_excel : arquivo -> erro + frame) (files : list arquivo) :
  (carregar_arquivos read_excel files = NenhumDado _ _ <-> files = [])
  /\ (forall df,
        carregar_arquivos read_excel files = Carregado _ _ df
        <-> files <> []
            /\ exists lidos, map read_excel files = map inr lidos
                             /\ df = List.concat lidos)
  /\ (forall f e,
        carregar_arquivos read_excel files = ErroAoLer f e
        <-> exists antes depois lidos,
              files = antes ++ f :: depois
              /\ map read_excel antes = map inr lidos
              /\ read_excel f = inl e).
Proof.
  unfold carregar_arquivos.
  destruct (ler_todos_casos read_excel files [])
    as [(lidos & E & Hm)|(antes & g & e' & depois & lidos & E & Hf & Hm & Hg)];
    rewrite E; simpl.
  - assert (Hnil : lidos = [] <-> files = []).
    { split; intros ->; simpl in Hm.
      - destruct files; [reflexivity|discriminate].
      - destruct lidos; [reflexivity|discriminate]. }
    split; [|split].
    + destruct lidos; [tauto|]. split; [discriminate|].
      intros Hn. apply Hnil in Hn. discriminate.
    + intros df. destruct lidos as [|x lidos].
      * split; [discriminate|]. intros [Hn _]. exfalso. apply Hn. now apply Hnil.
      * split.
        -- intros H. inversion H. split.
           ++ intros Hn. apply Hnil in Hn. discriminate.
           ++ exists (x :: lidos). auto.
        -- intros (_ & lidos' & Hm' & ->). rewrite Hm in Hm'.
           apply map_inr_inj in Hm'. now subst.
    + intros f e. split.
      * destruct lidos; discriminate.
      * intros (antes & depois & lidos' & Hf & _ & Hg). exfalso. subst files.
        rewrite map_app in Hm. simpl in Hm. rewrite Hg in Hm.
        assert (Hin : In (@inl erro frame e) (map inr lidos)).
        { rewrite <- Hm. apply in_or_app. right. now left. }
        apply in_map_iff in Hin. destruct Hin as (x & Hx & _). discriminate.
  - split; [|split].
    + split; [discriminate|]. intros ->. destruct antes; discriminate.
    + intros df. split; [discriminate|].
      intros (_ & lidos' & Hm' & _). exfalso. subst files.
      rewrite map_app in Hm'. simpl in Hm'. rewrite Hg in Hm'.
      assert (Hin : In (@inl erro frame e') (map inr lidos')).
      { rewrite <- Hm'. apply in_or_app. right. now left. }
      apply in_map_iff in Hin. destruct Hin as (x & Hx & _). discriminate.
    + intros f e. split.
      * intros H. inversion H. subst. exists antes, depois, lidos. auto.
      * intros (antes' & depois' & lidos' & Hf' & Hm' & Hg').
        rewrite Hf in Hf'.
        destruct (@primeira_falha _ _ read_excel _ _ _ _ _ _ _ _ _ _ Hf' Hm Hg Hm' Hg')
          as (-> & -> & ->).
        rewrite Hg in Hg'. inversion Hg'. reflexivity.
Qed.
